(** * kamaya: newsletter scrape / download / analyse / aggregate pipeline

    A shallow embedding of the TypeScript sources:
    - [src/app/api/extract/route.ts]  (module [Extract])
    - [src/app/api/analyze/route.ts]  (module [Analyze])
    - [src/app/api/scrape/route.ts]   (module [Scrape])
    - the client page component       (module [Page])

    JavaScript strings are sequences of UTF-16 code units; they are modelled
    as lists of [N].  Regular expressions of the source are translated into
    leftmost-first matchers over such lists. *)

From Stdlib Require Import String Ascii.
From Stdlib Require Import List NArith ZArith Arith Lia Bool DecimalString.
From Stdlib Require Import Sorted Permutation.
From Stdlib Require DecimalN DecimalFacts.
Import ListNotations.

(** ** JavaScript strings *)

Module JS.

Definition char16 := N.
Definition jsstring := list char16.

Definition bytes_of_string (s : string) : list N :=
  map (fun b => N_of_ascii b) (list_ascii_of_string s).

(** Decoder of the UTF-8 bytes of a source literal into code points. *)
Fixpoint utf8_decode (bs : list N) : list N :=
  match bs with
  | [] => []
  | b1 :: t1 =>
    if (b1 <? 128)%N then b1 :: utf8_decode t1
    else match t1 with
    | [] => []
    | b2 :: t2 =>
      if (b1 <? 224)%N then
        (N.lor (N.shiftl (N.land b1 31) 6) (N.land b2 63)) :: utf8_decode t2
      else match t2 with
      | [] => []
      | b3 :: t3 =>
        if (b1 <? 240)%N then
          (N.lor (N.shiftl (N.land b1 15) 12)
             (N.lor (N.shiftl (N.land b2 63) 6) (N.land b3 63))) :: utf8_decode t3
        else match t3 with
        | [] => []
        | b4 :: t4 =>
          (N.lor (N.shiftl (N.land b1 7) 18)
             (N.lor (N.shiftl (N.land b2 63) 12)
                (N.lor (N.shiftl (N.land b3 63) 6) (N.land b4 63)))) :: utf8_decode t4
        end
      end
    end
  end.

(** A code point as one or two UTF-16 code units. *)
Definition utf16_of_code_point (cp : N) : jsstring :=
  if (cp <? 65536)%N then [cp]
  else let v := (cp - 65536)%N in
       [(55296 + N.shiftr v 10)%N; (56320 + N.land v 1023)%N].

(** The JavaScript string denoted by a source literal. *)
Definition lit (s : string) : jsstring :=
  flat_map utf16_of_code_point (utf8_decode (bytes_of_string s)).

Definition ch (a : ascii) : char16 := N_of_ascii a.

(** [s.startsWith(p)] and the remainder after the prefix. *)
Fixpoint strip_prefix (p s : jsstring) : option jsstring :=
  match p with
  | [] => Some s
  | a :: p' =>
    match s with
    | [] => None
    | b :: s' => if (a =? b)%N then strip_prefix p' s' else None
    end
  end.

Definition startsWith (s p : jsstring) : bool :=
  match strip_prefix p s with Some _ => true | None => false end.

(** [s.includes(p)] *)
Fixpoint includes (s p : jsstring) : bool :=
  startsWith s p ||
  match s with
  | [] => false
  | _ :: t => includes t p
  end.

(** [s.substring(0, n)] *)
Definition substring0 (s : jsstring) (n : nat) : jsstring := firstn n s.

(** ECMAScript WhiteSpace and LineTerminator code units: the class [\s] of
    regular expressions and the characters removed by [trim]. *)
Definition is_space (c : char16) : bool :=
  ((9 <=? c) && (c <=? 13) || (c =? 32) || (c =? 160) || (c =? 5760)
   || (8192 <=? c) && (c <=? 8202) || (c =? 8232) || (c =? 8233)
   || (c =? 8239) || (c =? 8287) || (c =? 12288) || (c =? 65279))%N.

(** The class [\d]: ASCII digits only. *)
Definition is_digit (c : char16) : bool := ((48 <=? c) && (c <=? 57))%N.

Fixpoint trimStart (s : jsstring) : jsstring :=
  match s with
  | [] => []
  | c :: t => if is_space c then trimStart t else s
  end.

Definition trimEnd (s : jsstring) : jsstring := rev (trimStart (rev s)).

Definition trim (s : jsstring) : jsstring := trimEnd (trimStart s).

(** [s.padStart(n, '0')] *)
Definition padStart0 (n : nat) (s : jsstring) : jsstring :=
  repeat (ch "0") (n - length s) ++ s.

(** The longest prefix of [s] whose characters satisfy [p], and the rest. *)
Fixpoint span (p : char16 -> bool) (s : jsstring) : jsstring * jsstring :=
  match s with
  | [] => ([], [])
  | c :: t =>
    if p c then let (a, b) := span p t in (c :: a, b) else ([], s)
  end.

(** Leftmost search of an unanchored regular expression: the pattern is
    tried at every start index from left to right, the end of the string
    included; [at_pos] is the match attempt anchored at the head. *)
Fixpoint search {A : Type} (at_pos : jsstring -> option A) (s : jsstring) : option A :=
  match at_pos s with
  | Some r => Some r
  | None =>
    match s with
    | [] => None
    | _ :: t => search at_pos t
    end
  end.

End JS.

Import JS.

(** A string literal of the source, evaluated where it is written. *)
Notation "'js' s" := (ltac:(let v := eval vm_compute in (lit s) in exact v))
  (at level 10, s at level 0, only parsing).


(** ** Declarative reading of "the first occurrence of a pattern" *)

Section OccurrenceDef.
Variable A : Type.
Variable P : jsstring -> A -> Prop.

(** [P] holds of the suffix of [s] that follows [pre], and of no suffix that
    starts earlier. *)
Definition occurs_first (s pre : jsstring) (x : A) : Prop :=
  exists rest, s = pre ++ rest /\ P rest x /\
               forall n y, n < length pre -> ~ P (skipn n s) y.

Definition absent (s : jsstring) : Prop := forall n y, ~ P (skipn n s) y.

End OccurrenceDef.
Arguments occurs_first {A} P s pre x.
Arguments absent {A} P s.

(** ** [src/app/api/extract/route.ts]: pure helpers *)

Module Extract.

Definition SLASH : char16 := Eval vm_compute in ch "/".
Definition AMP : char16 := Eval vm_compute in ch "&".
Definition QUESTION : char16 := Eval vm_compute in ch "?".
Definition UNDERSCORE : char16 := Eval vm_compute in ch "_".

Definition FILE_D : jsstring := js "/file/d/".
Definition ID_EQ : jsstring := js "id=".
Definition UC_DOWNLOAD : jsstring :=
  js "https://drive.google.com/uc?export=download&id=".

Definition not_char (x c : char16) : bool := negb (c =? x)%N.

(** A greedy, non-empty run [[^x]+] that ends the pattern: the capture is
    the longest run of characters other than [x]. *)
Definition run_until (x : char16) (s : jsstring) : option jsstring :=
  match fst (span (not_char x) s) with
  | [] => None
  | id => Some id
  end.

(** [/\/file\/d\/([^/]+)/] tried at the head of [s]; the result is group 1. *)
Definition at_file_d (s : jsstring) : option jsstring :=
  match strip_prefix FILE_D s with
  | Some t => run_until SLASH t
  | None => None
  end.

(** [/[?&]id=([^&]+)/] tried at the head of [s]; the result is group 1. *)
Definition at_query_id (s : jsstring) : option jsstring :=
  match s with
  | c :: t =>
    if ((c =? QUESTION) || (c =? AMP))%N then
      match strip_prefix ID_EQ t with
      | Some v => run_until AMP v
      | None => None
      end
    else None
  | [] => None
  end.

Definition getGoogleDriveDownloadUrl (viewUrl : jsstring) : jsstring :=
  match search at_file_d viewUrl with
  | Some id => UC_DOWNLOAD ++ id
  | None =>
    match search at_query_id viewUrl with
    | Some id => UC_DOWNLOAD ++ id
    | None => viewUrl
    end
  end.

(** Characters removed by the first [replace]: the class of less-than,
    greater-than, colon, double quote (code unit 34), slash, backslash, bar,
    question mark and star. *)
Definition DISALLOWED : jsstring :=
  Eval vm_compute in js "<>:" ++ [34%N] ++ js "/\|?*".

Definition is_disallowed (c : char16) : bool := existsb (N.eqb c) DISALLOWED.

(** [.replace(/\s+/g, '_')]: every maximal run of white space becomes one
    underscore; [in_run] tells that the previous character was white space. *)
Fixpoint replace_spaces (in_run : bool) (s : jsstring) : jsstring :=
  match s with
  | [] => []
  | c :: t =>
    if is_space c then
      if in_run then replace_spaces true t else UNDERSCORE :: replace_spaces true t
    else c :: replace_spaces false t
  end.

Definition sanitizeFilename (title : jsstring) : jsstring :=
  substring0
    (replace_spaces false (filter (fun c => negb (is_disallowed c)) title))
    100.

(** *** The two URL shapes, stated on the text of the URL *)

(** [s] begins with [/file/d/<id>], where [<id>] is non-empty, holds no
    slash and is followed by a slash or by the end of the URL. *)
Definition path_segment (s id : jsstring) : Prop :=
  exists post, s = FILE_D ++ id ++ post /\ id <> [] /\
    Forall (fun c => c <> SLASH) id /\
    (post = [] \/ exists t, post = SLASH :: t).

(** [s] begins with [?id=<id>] or [&id=<id>], where [<id>] is non-empty,
    holds no ampersand and is followed by one or by the end of the URL. *)
Definition id_parameter (s id : jsstring) : Prop :=
  exists sep post, s = sep :: ID_EQ ++ id ++ post /\
    (sep = QUESTION \/ sep = AMP) /\ id <> [] /\
    Forall (fun c => c <> AMP) id /\
    (post = [] \/ exists t, post = AMP :: t).


(** *** The request handler

    The handler reads and writes files of the download directory and calls
    [fetch]; it is modelled in a state-and-exception monad over the directory
    and the list of URLs fetched so far. *)

Inductive result (A : Type) : Type :=
| Ok (a : A)
| Throws (error : jsstring).
Arguments Ok {A} a.
Arguments Throws {A} error.

(** A directory entry: a file with its bytes, or an entry that [access]
    accepts and [readFile] rejects with the given error. *)
Inductive entry : Type :=
| File (content : list Byte.byte)
| Unreadable (error : jsstring).

Record World : Type := {
  disk : jsstring -> option entry;   (* file name in DOWNLOAD_DIR -> entry *)
  fetched : list jsstring            (* URLs given to fetch, oldest first *)
}.

(** The part of a fetch [Response] that the handler reads. *)
Record Response : Type := {
  ok : bool;
  status : N;
  content_type : option jsstring;        (* headers.get('content-type') *)
  text : result jsstring;                (* await response.text() *)
  arrayBuffer : result (list Byte.byte)  (* await response.arrayBuffer() *)
}.

(** The request body [{ pdfUrl, title, pdfType }]. *)
Record Body : Type := {
  pdfUrl : option jsstring;
  title : jsstring;
  pdfType : option jsstring
}.

(** The two shapes of JSON that the handler answers with:
    [{ success: false, error, skipped? }] under an HTTP status, and
    [{ success: true, title, pdfBase64, size, savedPath, filename, cached }]. *)
Inductive Reply : Type :=
| Failure (http_status : N) (error : jsstring) (skipped : bool)
| Success (title pdfBase64 : jsstring) (size : nat)
          (savedPath filename : jsstring) (cached : bool).


Definition skipped (r : Reply) : bool :=
  match r with Failure _ _ b => b | Success _ _ _ _ _ _ => false end.

Definition skip (error : jsstring) : Reply := Failure 200 error true.

Definition M (A : Type) : Type := World -> result A * World.

Definition ret {A : Type} (a : A) : M A := fun w => (Ok a, w).

Definition bind {A B : Type} (m : M A) (k : A -> M B) : M B :=
  fun w => match m w with
           | (Ok a, w') => k a w'
           | (Throws e, w') => (Throws e, w')
           end.

Definition lift {A : Type} (r : result A) : M A := fun w => (r, w).

(** [try { m } catch (error) { handler(error) }] *)
Definition try_catch {A : Type} (m : M A) (handler : jsstring -> M A) : M A :=
  fun w => match m w with
           | (Ok a, w') => (Ok a, w')
           | (Throws e, w') => handler e w'
           end.

Notation "x <- m ;; k" := (bind m (fun x => k))
  (at level 61, m at next level, right associativity).

(** The confirm-link pattern: the text [href=], a double quote, group 1,
    a double quote, where group 1 is a run without double quotes that holds
    [confirm=].  Tried at the head of [s]: the attribute value runs to the
    next double quote, which must exist, and must hold [confirm=]; group 1 is
    the whole value. *)
Definition QUOTE : char16 := 34%N.
Definition HREF_QUOTE : jsstring := Eval vm_compute in js "href=" ++ [QUOTE].

Definition at_confirm (s : jsstring) : option jsstring :=
  match strip_prefix HREF_QUOTE s with
  | Some t =>
    match span (not_char QUOTE) t with
    | (value, q :: _) => if includes value (js "confirm=") then Some value else None
    | (_, []) => None
    end
  | None => None
  end.

(** [.replace(/&amp;/g, '&')]; [skip_n] counts the characters of a match
    that are still to be dropped. *)
Fixpoint unescape_amp (skip_n : nat) (s : jsstring) : jsstring :=
  match s with
  | [] => []
  | c :: t =>
    match skip_n with
    | S k => unescape_amp k t
    | O => if startsWith s (js "&amp;") then AMP :: unescape_amp 4 t
           else c :: unescape_amp 0 t
    end
  end.

Definition access_denied (html : jsstring) : bool :=
  includes html (js "Request access") || includes html (js "アクセス権") ||
  includes html (js "Access denied") || includes html (js "Sign in") ||
  includes html (js "You need permission") || includes html (js "ログイン").

(** Decimal text of a number, as a template literal prints it. *)
Definition decimal (n : N) : jsstring :=
  lit (NilEmpty.string_of_uint (N.to_uint n)).

Section Handler.

(** The platform: the network, as a function of the URLs fetched before and
    of the URL asked for; the error of [mkdir] when it fails; the fault of
    [writeFile] on a file name, if there is one: its error and, when the
    file had been opened before the failure, the number of bytes that were
    written to it; base64 encoding; the download directory. *)
Variable net : list jsstring -> jsstring -> result Response.
Variable mkdir_fault : option jsstring.
Variable write_fault : jsstring -> option (jsstring * option nat).
Variable base64 : list Byte.byte -> jsstring.
Variable DOWNLOAD_DIR : jsstring.

Definition filepath (filename : jsstring) : jsstring :=
  DOWNLOAD_DIR ++ [SLASH] ++ filename.

Definition fileExists (filename : jsstring) : M bool :=
  fun w => (Ok (match disk w filename with Some _ => true | None => false end), w).

Definition readFile (filename : jsstring) : M (list Byte.byte) :=
  fun w => match disk w filename with
           | Some (File b) => (Ok b, w)
           | Some (Unreadable e) => (Throws e, w)
           | None => (Throws (js "Error: ENOENT: no such file or directory"), w)
           end.

(** Equality of strings ([===]). *)
Fixpoint list_eqb (a b : jsstring) : bool :=
  match a, b with
  | [], [] => true
  | x :: a', y :: b' => (x =? y)%N && list_eqb a' b'
  | _, _ => false
  end.

Definition mkdir : M unit :=
  fun w => match mkdir_fault with
           | Some e => (Throws e, w)
           | None => (Ok tt, w)
           end.

(** [writeFile(filepath, buffer)] opens the file with the flag [w], which
    creates it or empties it, and then writes.  A write that fails before
    the file is opened leaves the directory as it was; one that fails
    later leaves the bytes written so far under the name. *)
Definition writeFile (filename : jsstring) (buffer : list Byte.byte) : M unit :=
  fun w =>
    let holding (content : list Byte.byte) :=
      {| disk := fun f => if list_eqb f filename then Some (File content)
                          else disk w f;
         fetched := fetched w |} in
    match write_fault filename with
    | Some (e, None) => (Throws e, w)
    | Some (e, Some written_bytes) => (Throws e, holding (firstn written_bytes buffer))
    | None => (Ok tt, holding buffer)
    end.

Definition fetch (url : jsstring) : M Response :=
  fun w => (net (fetched w) url,
            {| disk := disk w; fetched := fetched w ++ [url] |}).

Definition savePdfAndRespond (buffer : list Byte.byte) (title filename : jsstring)
  : M Reply :=
  try_catch
    (_ <- mkdir ;;
     _ <- writeFile filename buffer ;;
     ret (Success title (base64 buffer) (length buffer)
                  (filepath filename) filename false))
    (fun error => ret (skip (js "Failed to save PDF: " ++ error))).

Definition header (h : option jsstring) : jsstring :=
  match h with Some v => v | None => [] end.

(** The cache lookup: [Some reply] when the file exists and can be read,
    [None] when the download has to take place. *)
Definition cache_lookup (title filename : jsstring) : M (option Reply) :=
  cached <- fileExists filename ;;
  if cached then
    try_catch
      (buffer <- readFile filename ;;
       ret (Some (Success title (base64 buffer) (length buffer)
                          (filepath filename) filename true)))
      (fun _ => ret None)
  else ret None.

(** The confirm link of the virus-scan page: [Some reply] when it led to a
    PDF, [None] when the handler falls through to the skip. *)
Definition follow_confirm (html title filename : jsstring) : M (option Reply) :=
  match search at_confirm html with
  | Some href =>
    let confirmUrl := unescape_amp 0 href in
    let confirmUrl :=
      if startsWith confirmUrl (js "http") then confirmUrl
      else js "https://drive.google.com" ++ confirmUrl in
    confirmResponse <- fetch confirmUrl ;;
    if ok confirmResponse then
      let confirmContentType := header (content_type confirmResponse) in
      if includes confirmContentType (js "application/pdf")
         || includes confirmContentType (js "octet-stream")
      then
        buffer <- lift (arrayBuffer confirmResponse) ;;
        r <- savePdfAndRespond buffer title filename ;;
        ret (Some r)
      else ret None
    else ret None
  | None => ret None
  end.

Definition download_url (b : Body) (url : jsstring) : jsstring :=
  if (match pdfType b with
      | Some t => list_eqb t (js "google-drive")
      | None => false
      end) || includes url (js "drive.google.com")
  then getGoogleDriveDownloadUrl url
  else url.

Definition POST_body (request : result Body) : M Reply :=
  b <- lift request ;;
  match pdfUrl b with
  | None | Some [] =>
    ret (Failure 400 (js "PDF URL is required") false)
  | Some url =>
    let filename := sanitizeFilename (title b) ++ js ".pdf" in
    hit <- cache_lookup (title b) filename ;;
    match hit with
    | Some r => ret r
    | None =>
      response <- fetch (download_url b url) ;;
      if negb (ok response) then
        ret (skip (js "Failed to download PDF: " ++ decimal (status response)))
      else
        let contentType := header (content_type response) in
        if includes contentType (js "text/html") then
          html <- lift (text response) ;;
          if access_denied html then
            ret (skip (js "Access denied - no permission to view this PDF"))
          else
            confirmed <- follow_confirm html (title b) filename ;;
            match confirmed with
            | Some r => ret r
            | None =>
              ret (skip (js "Received HTML instead of PDF (access restriction)"))
            end
        else
          buffer <- lift (arrayBuffer response) ;;
          savePdfAndRespond buffer (title b) filename
    end
  end.

(** The handler with its outer [catch], which turns every exception into a
    skip carrying the text of the error. *)
Definition POST (request : result Body) (w : World) : Reply * World :=
  match POST_body request w with
  | (Ok r, w') => (r, w')
  | (Throws error, w') => (skip error, w')
  end.

End Handler.


(** The download answered with an HTML page. *)
Definition is_html (r : Response) : bool :=
  includes (header (content_type r)) (js "text/html").

(** The name under which the PDF of a request is kept. *)
Definition cache_name (b : Body) : jsstring :=
  sanitizeFilename (title b) ++ js ".pdf".

(** Sample platform values used to exercise the handler: a host that
    answers every request with the given page, one that answers with the
    given PDF bytes, and the empty download directory. *)
Definition html_page (page : jsstring) : Response :=
  {| ok := true; status := 200;
     content_type := Some (js "text/html; charset=utf-8");
     text := Ok page; arrayBuffer := Ok [] |}.

Definition html_host (page : jsstring) : list jsstring -> jsstring -> result Response :=
  fun _ _ => Ok (html_page page).

Definition pdf_host (bytes : list Byte.byte) : list jsstring -> jsstring -> result Response :=
  fun _ _ => Ok {| ok := true; status := 200;
                   content_type := Some (js "application/pdf");
                   text := Throws (js "TypeError: body is not text");
                   arrayBuffer := Ok bytes |}.

Definition empty_world : World := {| disk := fun _ => None; fetched := [] |}.

Definition drive_request (url t : string) : Body :=
  {| pdfUrl := Some (lit url); title := lit t; pdfType := Some (js "google-drive") |}.

Definition direct_request (url : string) (t : jsstring) : Body :=
  {| pdfUrl := Some (lit url); title := t; pdfType := Some (js "direct") |}.

End Extract.

(** ** JSON values *)

Module Json.

(** A number: an integer, or a literal written with a fraction or an
    exponent, which is kept as its text (the pipeline only counts). *)
Inductive number : Type :=
| Int (z : Z)
| Real (literal : jsstring).

Unset Elimination Schemes.
Inductive json : Type :=
| JNull
| JBool (b : bool)
| JNumber (n : number)
| JString (s : jsstring)
| JArray (items : list json)
| JObject (fields : list (jsstring * json)).
Set Elimination Schemes.

Fixpoint lookup (k : jsstring) (fields : list (jsstring * json)) : option json :=
  match fields with
  | [] => None
  | (k', v) :: rest => if Extract.list_eqb k' k then Some v else lookup k rest
  end.

(** The property read [v.k] for the property names that the sources read
    (none of them is defined on strings, arrays or numbers): reading from
    [null] throws, other values without the property give [undefined],
    which is [None]. *)
Definition get (v : json) (k : jsstring) : Extract.result (option json) :=
  match v with
  | JNull => Extract.Throws (js "TypeError: Cannot read properties of null")
  | JObject fields => Extract.Ok (lookup k fields)
  | _ => Extract.Ok None
  end.

(** The values that cannot be converted to a primitive, so that the
    conversion throws a [TypeError].  An object is converted by its
    [valueOf], which gives the object itself, and then by its [toString]:
    a parsed object with a member of that name of its own has no method
    there, since a parsed member is never a function.  An array is
    converted by joining the conversions of its items. *)
Fixpoint no_primitive (v : json) : bool :=
  match v with
  | JObject fields =>
    match lookup (js "toString") fields with Some _ => true | None => false end
  | JArray items => existsb no_primitive items
  | _ => false
  end.

(** The number that a literal with a fraction or an exponent denotes, as
    [m * 10 ^ e]: [m] is the number written by the digits in front of the
    exponent, the point left out, and [e] the exponent less the number of
    digits of the fraction. *)
Definition number_of_digits (digits : jsstring) : N :=
  fold_left (fun n c => (10 * n + (c - 48))%N) digits 0%N.

Definition literal_value (literal : jsstring) : N * Z :=
  let (mantissa, exponent) :=
    span (fun c => negb ((c =? 101) || (c =? 69))%N) literal in
  let fraction := snd (span (fun c => negb (c =? 46)%N) mantissa) in
  let m := number_of_digits (filter is_digit mantissa) in
  let shown :=
    match exponent with
    | _ :: sign :: digits =>
      if (sign =? 45)%N then (- Z.of_N (number_of_digits (filter is_digit digits)))%Z
      else Z.of_N (number_of_digits (filter is_digit (sign :: digits)))
    | _ => 0%Z
    end in
  (m, (shown - Z.of_nat (length (filter is_digit fraction)))%Z).

(** The literal is read as zero: the number it denotes is zero, or so small
    that the nearest double is zero, which is the case up to [2 ^ -1075],
    half of the smallest positive double. *)
Definition is_zero_literal (literal : jsstring) : bool :=
  let (m, e) := literal_value literal in
  (m =? 0)%N ||
  ((e <? 0)%Z && (m * 2 ^ 1075 <=? 10 ^ Z.to_N (- e))%N).

(** Truthiness of a value that may be [undefined]. *)
Definition truthy (v : option json) : bool :=
  match v with
  | None | Some JNull | Some (JBool false) | Some (JString []) => false
  | Some (JNumber (Int z)) => negb (z =? 0)%Z
  | Some (JNumber (Real l)) => negb (is_zero_literal l)
  | Some _ => true
  end.

(** [v || []] *)
Definition or_empty (v : option json) : json :=
  match v with
  | Some x => if truthy v then x else JArray []
  | None => JArray []
  end.

End Json.

(** ** [src/app/api/analyze/route.ts] *)

Module Analyze.
Import Json.
Import Extract (result, Ok, Throws).

Definition LBRACE : char16 := Eval vm_compute in ch "{".
Definition RBRACE : char16 := Eval vm_compute in ch "}".

(** The longest prefix of [s] that ends with [x]: what a greedy [[\s\S]*]
    followed by [x] matches. *)
Fixpoint upto_last (x : char16) (s : jsstring) : option jsstring :=
  match s with
  | [] => None
  | c :: t =>
    match upto_last x t with
    | Some m => Some (c :: m)
    | None => if (c =? x)%N then Some [c] else None
    end
  end.

(** [/\{[\s\S]*\}/] tried at the head of [s]; the result is the match. *)
Definition at_braces (s : jsstring) : option jsstring :=
  match s with
  | c :: t =>
    if (c =? LBRACE)%N then
      match upto_last RBRACE t with
      | Some m => Some (c :: m)
      | None => None
      end
    else None
  | [] => None
  end.

(** [responseText.match(/\{[\s\S]*\}/)]: [jsonMatch[0]] or [null]. *)
Definition jsonMatch (responseText : jsstring) : option jsstring :=
  search at_braces responseText.

Record Pdf : Type := { title : jsstring; pdfBase64 : jsstring }.

Record Body : Type := { pdf : option Pdf; apiKey : jsstring }.

Record Data : Type := {
  ingredients : json;
  dishes : json;
  cookingMethods : json;
  seasons : json
}.

(** The JSON answers: [{ success: false, error }] under an HTTP status, and
    [{ success: true, title, data }]. *)
Inductive Reply : Type :=
| Failure (http_status : N) (error : jsstring)
| Analysed (title : jsstring) (data : Data).

Definition EXTRACT_FAILED : Reply := Failure 200 (js "JSONを抽出できませんでした").

Section Handler.

(** The platform: the generative model, called with the API key and the
    PDF, answers with the text of its reply or throws; [JSON.parse]. *)
Variable generateContent : jsstring -> jsstring -> result jsstring.
Variable JSON_parse : jsstring -> result json.

Definition field (parsed : json) (k : jsstring) (cont : json -> Reply) : Reply :=
  match get parsed k with
  | Ok v => cont (or_empty v)
  | Throws e => Failure 500 e
  end.

(** The answer once [JSON.parse] has run on the extracted text. *)
Definition parsed_reply (title : jsstring) (parsed : result json) : Reply :=
  match parsed with
  | Throws e => Failure 500 e
  | Ok parsed =>
    field parsed (js "ingredients") (fun i =>
    field parsed (js "dishes") (fun d =>
    field parsed (js "cookingMethods") (fun c =>
    field parsed (js "seasons") (fun s =>
      Analysed title
        {| ingredients := i; dishes := d; cookingMethods := c; seasons := s |}))))
  end.

Definition respond (title : jsstring) (responseText : jsstring) : Reply :=
  match jsonMatch responseText with
  | None => EXTRACT_FAILED
  | Some text => parsed_reply title (JSON_parse text)
  end.

Definition POST (request : result Body) : Reply :=
  match request with
  | Throws e => Failure 500 e
  | Ok b =>
    match pdf b with
    | None => Failure 400 (js "PDF データが必要です")
    | Some p =>
      match pdfBase64 p with
      | [] => Failure 400 (js "PDF データが必要です")
      | _ :: _ =>
        match apiKey b with
        | [] => Failure 400 (js "Gemini API キーが必要です")
        | _ :: _ =>
          match generateContent (apiKey b) (pdfBase64 p) with
          | Throws e => Failure 500 e
          | Ok responseText => respond (title p) responseText
          end
        end
      end
    end
  end.

End Handler.

(** The request for the PDF [p] was accepted and the model answered with
    [responseText]. *)
Definition answered (generateContent : jsstring -> jsstring -> result jsstring)
    (b : Body) (p : Pdf) (responseText : jsstring) : Prop :=
  pdf b = Some p /\ pdfBase64 p <> [] /\ apiKey b <> [] /\
  generateContent (apiKey b) (pdfBase64 p) = Ok responseText.

(** [text] holds an opening brace with a closing brace somewhere after it. *)
Definition has_braces (text : jsstring) : Prop :=
  exists pre body post, text = pre ++ LBRACE :: body ++ RBRACE :: post.

(** Sample platform values used to exercise the handler. *)
Definition sample_model (reply : jsstring) : jsstring -> jsstring -> result jsstring :=
  fun _ _ => Ok reply.

Definition sample_parse : jsstring -> result json :=
  fun text => if Extract.list_eqb text (js "{}") then Ok (JObject [])
              else Throws (js "SyntaxError: Unexpected token").

Definition sample_body : Body :=
  {| pdf := Some {| title := js "かま屋通信 1月号"; pdfBase64 := js "JVBERi0=" |};
     apiKey := js "key" |}.

End Analyze.

(** ** [src/app/api/scrape/route.ts]: the date of an article *)

Module Scrape.
Import Extract (result, Ok, Throws, Response, ok, text).

Definition NEN : char16 := Eval vm_compute in hd 0%N (js "年").
Definition GATSU : char16 := Eval vm_compute in hd 0%N (js "月").
Definition NICHI : char16 := Eval vm_compute in hd 0%N (js "日").
Definition GOU : char16 := Eval vm_compute in hd 0%N (js "号").
Definition BAR : char16 := Eval vm_compute in ch "|".

(** Pieces of a pattern, each taking the rest of the pattern as a
    continuation, so that a greedy quantifier can give characters back. *)

(** A literal character. *)
Definition expect {A : Type} (c : char16) (k : jsstring -> option A)
    (s : jsstring) : option A :=
  match s with
  | x :: t => if (x =? c)%N then k t else None
  | [] => None
  end.

(** [(\d{4})] *)
Definition digits_4 {A : Type} (k : jsstring -> jsstring -> option A)
    (s : jsstring) : option A :=
  match s with
  | a :: b :: c :: d :: t =>
    if is_digit a && is_digit b && is_digit c && is_digit d
    then k [a; b; c; d] t else None
  | _ => None
  end.

(** [(\d{1,2})]: two digits are tried first, then one. *)
Definition digits_1_2 {A : Type} (k : jsstring -> jsstring -> option A)
    (s : jsstring) : option A :=
  match s with
  | a :: t =>
    if is_digit a then
      match t with
      | b :: t' =>
        if is_digit b then
          match k [a; b] t' with
          | Some r => Some r
          | None => k [a] t
          end
        else k [a] t
      | [] => k [a] t
      end
    else None
  | [] => None
  end.

(** [/(\d{4})年(\d{1,2})月(\d{1,2})日/] tried at the head of [s]; the result
    is the groups 1, 2 and 3. *)
Definition at_date (s : jsstring) : option (jsstring * jsstring * jsstring) :=
  digits_4 (fun y =>
    expect NEN (digits_1_2 (fun m =>
      expect GATSU (digits_1_2 (fun d =>
        expect NICHI (fun _ => Some (y, m, d))))))) s.

(** [/(\d{4})年(\d{1,2})月号/] tried at the head of [s]; the result is the
    groups 1 and 2. *)
Definition at_issue (s : jsstring) : option (jsstring * jsstring) :=
  digits_4 (fun y =>
    expect NEN (digits_1_2 (fun m =>
      expect GATSU (expect GOU (fun _ => Some (y, m)))))) s.

Definition HYPHEN : jsstring := js "-".

Definition format_date (ymd : jsstring * jsstring * jsstring) : jsstring :=
  let '(y, m, d) := ymd in
  y ++ HYPHEN ++ padStart0 2 m ++ HYPHEN ++ padStart0 2 d.

Definition format_issue (ym : jsstring * jsstring) : jsstring :=
  let '(y, m) := ym in
  y ++ HYPHEN ++ padStart0 2 m ++ js "-01".

(** The fields of [ArticleInfo] that the date computation reads or writes;
    the PDF link fields are set by a part of the function that does not
    touch them and are left out. *)
Record ArticleInfo : Type := {
  title : jsstring;
  url : jsstring;
  date : jsstring
}.

Section Fetch.

(** The platform: the network, and the two texts that the HTML parser gives
    for the first [h1] element and for the [title] elements of a page. *)
Variable net : jsstring -> result Response.
Variable h1_text : jsstring -> jsstring.
Variable title_text : jsstring -> jsstring.

Definition fetchPage (u : jsstring) : option jsstring :=
  match net u with
  | Ok response =>
    if negb (ok response) then None
    else match text response with
         | Ok html => Some html
         | Throws _ => None
         end
  | Throws _ => None
  end.

(** [articleTitle]: [$('h1').first().text().trim() ||
    $('title').text().split('|')[0].trim()] *)
Definition articleTitle (html : jsstring) : jsstring :=
  let h1 := trim (h1_text html) in
  let titleTag :=
    trim (fst (span (fun c => negb (c =? BAR)%N) (title_text html))) in
  match h1 with
  | [] => titleTag
  | _ :: _ => h1
  end.

Definition articleDate (html title : jsstring) : jsstring :=
  let date :=
    match search at_date html with
    | Some dateMatch => format_date dateMatch
    | None => []
    end in
  match search at_issue title with
  | Some issueMatch =>
    match date with
    | [] => format_issue issueMatch
    | _ :: _ => date
    end
  | None => date
  end.

Definition fetchArticleDetails (u : jsstring) : ArticleInfo :=
  match fetchPage u with
  | None | Some [] => {| title := []; url := u; date := [] |}
  | Some html =>
    let t := articleTitle html in
    {| title := t; url := u; date := articleDate html t |}
  end.

End Fetch.

(** *** The two date formats, stated on the text *)

Definition all_digits (s : jsstring) : Prop := Forall (fun c => is_digit c = true) s.

Definition one_or_two (s : jsstring) : Prop := length s = 1 \/ length s = 2.

(** [s] begins with [YYYY年M月D日]. *)
Definition explicit_date (s : jsstring) (ymd : jsstring * jsstring * jsstring) : Prop :=
  let '(y, m, d) := ymd in
  exists rest, s = y ++ NEN :: m ++ GATSU :: d ++ NICHI :: rest /\
    length y = 4 /\ all_digits y /\
    one_or_two m /\ all_digits m /\ one_or_two d /\ all_digits d.

(** [s] begins with [YYYY年M月号]. *)
Definition issue_label (s : jsstring) (ym : jsstring * jsstring) : Prop :=
  let '(y, m) := ym in
  exists rest, s = y ++ NEN :: m ++ GATSU :: GOU :: rest /\
    length y = 4 /\ all_digits y /\ one_or_two m /\ all_digits m.




End Scrape.

(** ** [JSON.stringify(value, null, 2)] and [JSON.parse]

    The two functions of the platform, after ECMA-262 (SerializeJSONProperty
    with a gap of two spaces, and the JSON grammar).  Properties are written
    in the order of the list; property names that are array indices, which
    JavaScript enumerates first, do not occur in the data of the pipeline. *)

Module JsonText.
Import Json.

(** The two halves of a surrogate pair. *)
Definition is_high (c : char16) : bool := ((55296 <=? c) && (c <=? 56319))%N.
Definition is_low (c : char16) : bool := ((56320 <=? c) && (c <=? 57343))%N.

Definition SPACE : char16 := 32%N.
Definition NEWLINE : char16 := 10%N.
Definition DQUOTE : char16 := 34%N.
Definition BACKSLASH : char16 := 92%N.
Definition COMMA : char16 := 44%N.
Definition COLON : char16 := 58%N.
Definition LBRACKET : char16 := 91%N.
Definition RBRACKET : char16 := 93%N.
Definition LBRACE : char16 := 123%N.
Definition RBRACE : char16 := 125%N.
Definition MINUS : char16 := 45%N.
Definition ZERO : char16 := 48%N.

(** *** Writing *)

Definition hex_digit (d : N) : char16 :=
  if (d <? 10)%N then (48 + d)%N else (87 + d)%N.

(** Four lowercase hexadecimal digits. *)
Definition hex4 (c : N) : jsstring :=
  [hex_digit (N.land (N.shiftr c 12) 15); hex_digit (N.land (N.shiftr c 8) 15);
   hex_digit (N.land (N.shiftr c 4) 15); hex_digit (N.land c 15)].

Definition unicode_escape (c : char16) : jsstring :=
  BACKSLASH :: 117%N :: hex4 c.

(** QuoteJSONString, character by character: the short escapes, [\uXXXX]
    for the other control characters and for a surrogate without its pair,
    the character itself otherwise.  [paired] tells that the character
    before was the first half of a pair. *)
Fixpoint quote_chars (paired : bool) (s : jsstring) : jsstring :=
  match s with
  | [] => []
  | c :: t =>
    if (c =? 8)%N then BACKSLASH :: 98%N :: quote_chars false t
    else if (c =? 9)%N then BACKSLASH :: 116%N :: quote_chars false t
    else if (c =? 10)%N then BACKSLASH :: 110%N :: quote_chars false t
    else if (c =? 12)%N then BACKSLASH :: 102%N :: quote_chars false t
    else if (c =? 13)%N then BACKSLASH :: 114%N :: quote_chars false t
    else if (c =? DQUOTE)%N then BACKSLASH :: DQUOTE :: quote_chars false t
    else if (c =? BACKSLASH)%N then BACKSLASH :: BACKSLASH :: quote_chars false t
    else if (c <? 32)%N then unicode_escape c ++ quote_chars false t
    else if is_high c then
      match t with
      | l :: _ =>
        if is_low l then c :: quote_chars true t
        else unicode_escape c ++ quote_chars false t
      | [] => unicode_escape c ++ quote_chars false t
      end
    else if is_low c then
      if paired then c :: quote_chars false t
      else unicode_escape c ++ quote_chars false t
    else c :: quote_chars false t
  end.

Definition quote (s : jsstring) : jsstring :=
  DQUOTE :: quote_chars false s ++ [DQUOTE].

Fixpoint uint_chars (u : Decimal.uint) : jsstring :=
  match u with
  | Decimal.Nil => []
  | Decimal.D0 u => 48%N :: uint_chars u
  | Decimal.D1 u => 49%N :: uint_chars u
  | Decimal.D2 u => 50%N :: uint_chars u
  | Decimal.D3 u => 51%N :: uint_chars u
  | Decimal.D4 u => 52%N :: uint_chars u
  | Decimal.D5 u => 53%N :: uint_chars u
  | Decimal.D6 u => 54%N :: uint_chars u
  | Decimal.D7 u => 55%N :: uint_chars u
  | Decimal.D8 u => 56%N :: uint_chars u
  | Decimal.D9 u => 57%N :: uint_chars u
  end.

Definition digits_of (n : N) : jsstring := uint_chars (N.to_uint n).

Definition number_text (n : number) : jsstring :=
  match n with
  | Int z => if (z <? 0)%Z then MINUS :: digits_of (Z.to_N (- z))
             else digits_of (Z.to_N z)
  | Real literal => literal
  end.

Definition spaces (n : nat) : jsstring := repeat SPACE n.

(** The elements of a non-empty array or object, one per line at the
    indentation [ind], separated by a comma. *)
Fixpoint lines (ind : nat) (texts : list jsstring) : jsstring :=
  match texts with
  | [] => []
  | [x] => spaces ind ++ x
  | x :: rest => spaces ind ++ x ++ COMMA :: NEWLINE :: lines ind rest
  end.

Fixpoint stringify (ind : nat) (v : json) : jsstring :=
  match v with
  | JNull => js "null"
  | JBool true => js "true"
  | JBool false => js "false"
  | JNumber n => number_text n
  | JString s => quote s
  | JArray [] => js "[]"
  | JArray items =>
    LBRACKET :: NEWLINE ::
      lines (ind + 2) (map (stringify (ind + 2)) items)
      ++ NEWLINE :: spaces ind ++ [RBRACKET]
  | JObject [] => js "{}"
  | JObject fields =>
    LBRACE :: NEWLINE ::
      lines (ind + 2)
        (map (fun kv => quote (fst kv) ++ COLON :: SPACE :: stringify (ind + 2) (snd kv))
             fields)
      ++ NEWLINE :: spaces ind ++ [RBRACE]
  end.

(** [JSON.stringify(value, null, 2)] *)
Definition JSON_stringify (v : json) : jsstring := stringify 0 v.

(** *** Reading *)

Definition is_ws (c : char16) : bool :=
  ((c =? 32) || (c =? 9) || (c =? 10) || (c =? 13))%N.

Fixpoint skip_ws (s : jsstring) : jsstring :=
  match s with
  | [] => []
  | c :: t => if is_ws c then skip_ws t else s
  end.

Definition hex_value (c : char16) : option N :=
  if ((48 <=? c) && (c <=? 57))%N then Some (c - 48)%N
  else if ((97 <=? c) && (c <=? 102))%N then Some (c - 87)%N
  else if ((65 <=? c) && (c <=? 70))%N then Some (c - 55)%N
  else None.

Definition hex4_value (a b c d : char16) : option N :=
  match hex_value a, hex_value b, hex_value c, hex_value d with
  | Some x, Some y, Some z, Some w => Some (4096 * x + 256 * y + 16 * z + w)%N
  | _, _, _, _ => None
  end.

(** The characters of a string after its opening quote, up to the closing
    quote: the string and the text that follows it. *)
Fixpoint read_chars (s : jsstring) : option (jsstring * jsstring) :=
  match s with
  | [] => None
  | c :: t =>
    if (c =? DQUOTE)%N then Some ([], t)
    else if (c =? BACKSLASH)%N then
      match t with
      | e :: t1 =>
        let simple x :=
          match read_chars t1 with
          | Some (str, r) => Some (x :: str, r)
          | None => None
          end in
        if (e =? DQUOTE)%N then simple DQUOTE
        else if (e =? BACKSLASH)%N then simple BACKSLASH
        else if (e =? 47)%N then simple 47%N
        else if (e =? 98)%N then simple 8%N
        else if (e =? 102)%N then simple 12%N
        else if (e =? 110)%N then simple 10%N
        else if (e =? 114)%N then simple 13%N
        else if (e =? 116)%N then simple 9%N
        else if (e =? 117)%N then
          match t1 with
          | h1 :: h2 :: h3 :: h4 :: t2 =>
            match hex4_value h1 h2 h3 h4, read_chars t2 with
            | Some x, Some (str, r) => Some (x :: str, r)
            | _, _ => None
            end
          | _ => None
          end
        else None
      | [] => None
      end
    else if (c <? 32)%N then None
    else
      match read_chars t with
      | Some (str, r) => Some (c :: str, r)
      | None => None
      end
  end.

Fixpoint chars_uint (s : jsstring) : option Decimal.uint :=
  match s with
  | [] => Some Decimal.Nil
  | c :: t =>
    match chars_uint t with
    | None => None
    | Some u =>
      if (c =? 48)%N then Some (Decimal.D0 u)
      else if (c =? 49)%N then Some (Decimal.D1 u)
      else if (c =? 50)%N then Some (Decimal.D2 u)
      else if (c =? 51)%N then Some (Decimal.D3 u)
      else if (c =? 52)%N then Some (Decimal.D4 u)
      else if (c =? 53)%N then Some (Decimal.D5 u)
      else if (c =? 54)%N then Some (Decimal.D6 u)
      else if (c =? 55)%N then Some (Decimal.D7 u)
      else if (c =? 56)%N then Some (Decimal.D8 u)
      else if (c =? 57)%N then Some (Decimal.D9 u)
      else None
    end
  end.

(** The integer part of a number: a single zero, or a digit from 1 to 9
    followed by digits. *)
Definition read_int (s : jsstring) : option (jsstring * jsstring) :=
  match s with
  | c :: t =>
    if (c =? ZERO)%N then Some ([c], t)
    else if is_digit c then let (ds, r) := span is_digit t in Some (c :: ds, r)
    else None
  | [] => None
  end.

(** At least one digit. *)
Definition read_digits (s : jsstring) : option (jsstring * jsstring) :=
  match span is_digit s with
  | ([], _) => None
  | (ds, r) => Some (ds, r)
  end.

(** The optional fraction [.digits]. *)
Definition read_frac (s : jsstring) : option (jsstring * jsstring) :=
  match s with
  | c :: t =>
    if (c =? 46)%N then
      match read_digits t with
      | Some (ds, r) => Some (c :: ds, r)
      | None => None
      end
    else Some ([], s)
  | [] => Some ([], s)
  end.

(** The optional exponent [e], sign, digits. *)
Definition read_exp (s : jsstring) : option (jsstring * jsstring) :=
  match s with
  | c :: t =>
    if ((c =? 101) || (c =? 69))%N then
      match t with
      | sg :: t' =>
        if ((sg =? 43) || (sg =? 45))%N then
          match read_digits t' with
          | Some (ds, r) => Some (c :: sg :: ds, r)
          | None => None
          end
        else
          match read_digits t with
          | Some (ds, r) => Some (c :: ds, r)
          | None => None
          end
      | [] => None
      end
    else Some ([], s)
  | [] => Some ([], s)
  end.

(** A number without its sign: integer part, fraction, exponent.  Written
    with neither fraction nor exponent it is an integer, which is kept as
    it is; any other number is kept as it is written.  [JSON.parse] gives
    the nearest double: the two agree on the integers up to [2 ^ 53], the
    range of the counts of a report, and not beyond. *)
Definition read_magnitude (negative : bool) (s : jsstring) : option (json * jsstring) :=
  match read_int s with
  | None => None
  | Some (int_part, r1) =>
    match read_frac r1 with
    | None => None
    | Some (frac, r2) =>
      match read_exp r2 with
      | None => None
      | Some (ex, r3) =>
        match frac, ex with
        | [], [] =>
          match chars_uint int_part with
          | Some u =>
            let n := Z.of_N (N.of_uint u) in
            Some (JNumber (Int (if negative then - n else n)%Z), r3)
          | None => None
          end
        | _, _ =>
          Some (JNumber (Real ((if negative then [MINUS] else []) ++
                               int_part ++ frac ++ ex)), r3)
        end
      end
    end
  end.

Definition read_number (s : jsstring) : option (json * jsstring) :=
  match s with
  | c :: t => if (c =? MINUS)%N then read_magnitude true t else read_magnitude false s
  | [] => None
  end.

(** [CreateDataProperty]: a name met again keeps its place and takes the
    new value.  The members are kept in the order of the text, which is
    the order in which an object lists its properties unless a name is an
    array index: an object lists these first.  The names that the sources
    read and write are not array indices. *)
Fixpoint obj_set (k : jsstring) (v : json) (fields : list (jsstring * json))
  : list (jsstring * json) :=
  match fields with
  | [] => [(k, v)]
  | (k', v') :: rest =>
    if Extract.list_eqb k' k then (k', v) :: rest
    else (k', v') :: obj_set k v rest
  end.

Definition keyword (word : jsstring) (v : json) (s : jsstring) : option (json * jsstring) :=
  match strip_prefix word s with
  | Some r => Some (v, r)
  | None => None
  end.

(** The recursive descent, with [fuel] bounding its depth and the number of
    elements read in a row; the text length is always enough. *)
Fixpoint read_value (fuel : nat) (s : jsstring) : option (json * jsstring) :=
  match fuel with
  | O => None
  | S f =>
    match skip_ws s with
    | [] => None
    | c :: t =>
      if (c =? DQUOTE)%N then
        match read_chars t with
        | Some (str, r) => Some (JString str, r)
        | None => None
        end
      else if (c =? LBRACKET)%N then
        match skip_ws t with
        | c' :: r =>
          if (c' =? RBRACKET)%N then Some (JArray [], r)
          else
            match read_elements f t with
            | Some (items, r') => Some (JArray items, r')
            | None => None
            end
        | [] => None
        end
      else if (c =? LBRACE)%N then
        match skip_ws t with
        | c' :: r =>
          if (c' =? RBRACE)%N then Some (JObject [], r)
          else
            match read_members f [] t with
            | Some (fields, r') => Some (JObject fields, r')
            | None => None
            end
        | [] => None
        end
      else if (c =? 116)%N then keyword (js "true") (JBool true) (c :: t)
      else if (c =? 102)%N then keyword (js "false") (JBool false) (c :: t)
      else if (c =? 110)%N then keyword (js "null") JNull (c :: t)
      else read_number (c :: t)
    end
  end

with read_elements (fuel : nat) (s : jsstring) : option (list json * jsstring) :=
  match fuel with
  | O => None
  | S f =>
    match read_value f s with
    | Some (v, r) =>
      match skip_ws r with
      | c :: r' =>
        if (c =? COMMA)%N then
          match read_elements f r' with
          | Some (vs, r'') => Some (v :: vs, r'')
          | None => None
          end
        else if (c =? RBRACKET)%N then Some ([v], r')
        else None
      | [] => None
      end
    | None => None
    end
  end

with read_members (fuel : nat) (acc : list (jsstring * json)) (s : jsstring)
  : option (list (jsstring * json) * jsstring) :=
  match fuel with
  | O => None
  | S f =>
    match skip_ws s with
    | q :: t =>
      if (q =? DQUOTE)%N then
        match read_chars t with
        | Some (k, r) =>
          match skip_ws r with
          | c :: r1 =>
            if (c =? COLON)%N then
              match read_value f r1 with
              | Some (v, r2) =>
                let acc' := obj_set k v acc in
                match skip_ws r2 with
                | c2 :: r3 =>
                  if (c2 =? COMMA)%N then read_members f acc' r3
                  else if (c2 =? RBRACE)%N then Some (acc', r3)
                  else None
                | [] => None
                end
              | None => None
              end
            else None
          | [] => None
          end
        | None => None
        end
      else None
    | [] => None
    end
  end.

(** [JSON.parse(text)] *)
Definition JSON_parse (text : jsstring) : Extract.result json :=
  match read_value (S (length text)) text with
  | Some (v, r) =>
    match skip_ws r with
    | [] => Extract.Ok v
    | _ :: _ => Extract.Throws (js "SyntaxError: Unexpected non-whitespace character after JSON")
    end
  | None => Extract.Throws (js "SyntaxError: Unexpected token in JSON")
  end.

(** One more character in front of what was read. *)
Definition read_more (c : char16) (r : option (jsstring * jsstring))
  : option (jsstring * jsstring) :=
  match r with
  | Some (str, rest) => Some (c :: str, rest)
  | None => None
  end.

(** *** Values that are written and read back unchanged *)

(** Numbers are integers and no object lists a name twice. *)
Fixpoint printable (v : json) : Prop :=
  match v with
  | JNumber (Real _) => False
  | JArray items => fold_right (fun x acc => printable x /\ acc) True items
  | JObject fields =>
    NoDup (map fst fields) /\
    fold_right (fun kv acc => printable (snd kv) /\ acc) True fields
  | _ => True
  end.

(** A bound on the fuel that reading a value back takes. *)
Fixpoint size (v : json) : nat :=
  match v with
  | JArray items => S (fold_right (fun x acc => S (size x + acc)) 0 items)
  | JObject fields =>
    S (fold_right (fun kv acc => S (size (snd kv) + acc)) 0 fields)
  | _ => 1
  end.

(** The fuel bound of a list of elements. *)
Definition sizes (items : list json) : nat :=
  fold_right (fun x acc => S (size x + acc)) 0 items.

(** A value that was written is read back, whatever follows it. *)
Definition reads_back (v : json) : Prop :=
  printable v ->
  forall (fuel ind : nat) (rest : jsstring),
  size v <= fuel ->
  match rest with
  | [] => True
  | c :: _ => is_digit c = false /\ c <> 46%N /\ c <> 101%N /\ c <> 69%N
  end ->
  read_value fuel (stringify ind v ++ rest) = Some (v, rest).

(** The text of a property: name, colon, space, value. *)
Definition member_text (ind : nat) (kv : jsstring * json) : jsstring :=
  quote (fst kv) ++ COLON :: SPACE :: stringify ind (snd kv).

(** The fuel bound of a list of properties. *)
Definition sizes_of_fields (fields : list (jsstring * json)) : nat :=
  fold_right (fun kv acc => S (size (snd kv) + acc)) 0 fields.

(** The properties set one after the other on top of [acc]. *)
Definition set_all (fields acc : list (jsstring * json)) : list (jsstring * json) :=
  fold_left (fun a kv => obj_set (fst kv) (snd kv) a) fields acc.

(** The text after a value does not continue a number. *)
Definition delimited (rest : jsstring) : Prop :=
  match rest with
  | [] => True
  | c :: _ => is_digit c = false /\ c <> 46%N /\ c <> 101%N /\ c <> 69%N
  end.

End JsonText.

(** ** The client page: aggregation of the analyses *)

Module Page.
Import Json.
Import JsonText (is_high, is_low).

Record PdfData : Type := {
  title : jsstring;
  pdfBase64 : jsstring;
  size : N
}.

(** A property read from a value that is not [null]: the value of the
    property, or [undefined]. *)
Definition prop_of (v : json) (k : jsstring) : option json :=
  match get v k with
  | Extract.Ok x => x
  | Extract.Throws _ => None
  end.

Record RankingItem : Type := {
  name : jsstring;
  count : N
}.

Inductive Step : Type :=
| idle | scraping | extracting | analyzing | loading | complete.

(** The values held by the [results] state: the four properties are plain
    JavaScript values, arrays of [{ name, count }] objects when they come
    from an analysis. *)
Record AnalysisResults : Type := {
  ingredients : json;
  dishes : json;
  cookingMethods : json;
  seasons : json
}.

Definition item_json (it : RankingItem) : json :=
  JObject [(js "name", JString (name it));
           (js "count", JNumber (Int (Z.of_N (count it))))].

Definition ranking_json (l : list RankingItem) : json :=
  JArray (map item_json l).

(** *** [Map<string, number>]: entries in insertion order *)

Definition Map : Type := list (jsstring * N).

Fixpoint map_get (k : jsstring) (m : Map) : option N :=
  match m with
  | [] => None
  | (k', v) :: rest => if Extract.list_eqb k' k then Some v else map_get k rest
  end.

(** [map.set(k, v)]: an existing key keeps its place, a new one goes last. *)
Fixpoint map_set (k : jsstring) (v : N) (m : Map) : Map :=
  match m with
  | [] => [(k, v)]
  | (k', v') :: rest =>
    if Extract.list_eqb k' k then (k', v) :: rest
    else (k', v') :: map_set k v rest
  end.

(** [map.set(key, (map.get(key) || 0) + 1)] *)
Definition increment (key : jsstring) (m : Map) : Map :=
  map_set key (match map_get key m with Some n => n | None => 0 end + 1)%N m.

(** [Array.prototype.sort] with the comparator [(a, b) => b[1] - a[1]]: the
    sort is stable, so its result is the one of a stable insertion sort.  An
    entry is put in front of the first entry whose count is not larger. *)
Fixpoint insert_desc (x : jsstring * N) (l : list (jsstring * N)) : list (jsstring * N) :=
  match l with
  | [] => [x]
  | y :: rest =>
    if (snd x <? snd y)%N then y :: insert_desc x rest else x :: y :: rest
  end.

Definition sort_desc (l : list (jsstring * N)) : list (jsstring * N) :=
  fold_right insert_desc [] l.

Definition sortMap (map : Map) : list RankingItem :=
  List.map (fun e => {| name := fst e; count := snd e |}) (sort_desc map).

(** *** Exceptions and the values of a reply *)

Inductive exn : Type :=
| AbortError                (* the rejection of an aborted fetch *)
| Canceled                  (* new Error('Canceled') *)
| OtherError (text : jsstring).

(** The code points of a string, each as a string: what [for ... of]
    iterates over. *)

Fixpoint code_points (s : jsstring) : list jsstring :=
  match s with
  | [] => []
  | a :: t =>
    match t with
    | b :: t' =>
      if is_high a && is_low b then [a; b] :: code_points t'
      else [a] :: code_points t
    | [] => [[a]]
    end
  end.

(** The items that [for (const item of v)] visits, or the [TypeError] of a
    value that is not iterable. *)
Definition iterate (v : json) : list json + exn :=
  match v with
  | JArray items => inl items
  | JString s => inl (List.map JString (code_points s))
  | _ => inr (OtherError (js "TypeError: value is not iterable"))
  end.

(** One loop [for (const item of ...) { const key = item.trim(); if (key)
    map.set(...) }]: the map after the loop and the exception that ended it,
    if any.  An item without a [trim] method throws; the entries counted
    before it stay in the map. *)
Fixpoint count_items (items : list json) (m : Map) : Map * option exn :=
  match items with
  | [] => (m, None)
  | JString s :: rest =>
    match trim s with
    | [] => count_items rest m
    | key => count_items rest (increment key m)
    end
  | _ :: _ => (m, Some (OtherError (js "TypeError: item.trim is not a function")))
  end.

(** [for (const item of data.data.<k> || []) ...] *)
Definition count_field (d : json) (k : jsstring) (m : Map) : Map * option exn :=
  match get d k with
  | Extract.Throws e => (m, Some (OtherError e))
  | Extract.Ok v =>
    match iterate (or_empty v) with
    | inl items => count_items items m
    | inr e => (m, Some e)
    end
  end.

Record Maps : Type := {
  ingredientsMap : Map;
  dishesMap : Map;
  cookingMethodsMap : Map;
  seasonsMap : Map
}.

Definition empty_maps : Maps :=
  {| ingredientsMap := []; dishesMap := []; cookingMethodsMap := []; seasonsMap := [] |}.

(** The four loops over [data.data], in their order; a loop that throws
    ends the sequence. *)
Definition count_data (d : json) (ms : Maps) : Maps * option exn :=
  let (m1, e1) := count_field d (js "ingredients") (ingredientsMap ms) in
  let ms1 := {| ingredientsMap := m1; dishesMap := dishesMap ms;
                cookingMethodsMap := cookingMethodsMap ms; seasonsMap := seasonsMap ms |} in
  match e1 with
  | Some e => (ms1, Some e)
  | None =>
    let (m2, e2) := count_field d (js "dishes") (dishesMap ms) in
    let ms2 := {| ingredientsMap := m1; dishesMap := m2;
                  cookingMethodsMap := cookingMethodsMap ms; seasonsMap := seasonsMap ms |} in
    match e2 with
    | Some e => (ms2, Some e)
    | None =>
      let (m3, e3) := count_field d (js "cookingMethods") (cookingMethodsMap ms) in
      let ms3 := {| ingredientsMap := m1; dishesMap := m2;
                    cookingMethodsMap := m3; seasonsMap := seasonsMap ms |} in
      match e3 with
      | Some e => (ms3, Some e)
      | None =>
        let (m4, e4) := count_field d (js "seasons") (seasonsMap ms) in
        ({| ingredientsMap := m1; dishesMap := m2;
            cookingMethodsMap := m3; seasonsMap := m4 |}, e4)
      end
    end
  end.

Definition report (ms : Maps) : AnalysisResults :=
  {| ingredients := ranking_json (sortMap (ingredientsMap ms));
     dishes := ranking_json (sortMap (dishesMap ms));
     cookingMethods := ranking_json (sortMap (cookingMethodsMap ms));
     seasons := ranking_json (sortMap (seasonsMap ms)) |}.

(** *** The component state and [handleAnalyze] *)

Record Article : Type := {
  article_title : jsstring;
  article_url : jsstring;
  article_date : jsstring;
  article_pdfUrl : option jsstring;
  article_pdfType : option jsstring
}.

(** The [useState] cells of the component, and whether the [useRef] cell
    holds a controller.  A log line is kept without its clock prefix. *)
Record State : Type := {
  step : Step;
  articles : list Article;
  pdfDataList : list PdfData;
  results : option AnalysisResults;
  progress : N * N;                  (* { current, total } *)
  logs : list jsstring;
  error : option jsstring;
  apiKey : jsstring;
  skippedCount : N;
  savedPdfCount : N;
  abortControllerRef : bool
}.

Definition setStep (x : Step) (s : State) : State :=
  {| step := x; articles := articles s; pdfDataList := pdfDataList s;
     results := results s; progress := progress s; logs := logs s;
     error := error s; apiKey := apiKey s; skippedCount := skippedCount s;
     savedPdfCount := savedPdfCount s; abortControllerRef := abortControllerRef s |}.

Definition setResults (x : option AnalysisResults) (s : State) : State :=
  {| step := step s; articles := articles s; pdfDataList := pdfDataList s;
     results := x; progress := progress s; logs := logs s;
     error := error s; apiKey := apiKey s; skippedCount := skippedCount s;
     savedPdfCount := savedPdfCount s; abortControllerRef := abortControllerRef s |}.

Definition setProgress (current total : N) (s : State) : State :=
  {| step := step s; articles := articles s; pdfDataList := pdfDataList s;
     results := results s; progress := (current, total); logs := logs s;
     error := error s; apiKey := apiKey s; skippedCount := skippedCount s;
     savedPdfCount := savedPdfCount s; abortControllerRef := abortControllerRef s |}.

Definition addLog (message : jsstring) (s : State) : State :=
  {| step := step s; articles := articles s; pdfDataList := pdfDataList s;
     results := results s; progress := progress s; logs := logs s ++ [message];
     error := error s; apiKey := apiKey s; skippedCount := skippedCount s;
     savedPdfCount := savedPdfCount s; abortControllerRef := abortControllerRef s |}.

Definition setError (x : option jsstring) (s : State) : State :=
  {| step := step s; articles := articles s; pdfDataList := pdfDataList s;
     results := results s; progress := progress s; logs := logs s;
     error := x; apiKey := apiKey s; skippedCount := skippedCount s;
     savedPdfCount := savedPdfCount s; abortControllerRef := abortControllerRef s |}.

Definition setController (x : bool) (s : State) : State :=
  {| step := step s; articles := articles s; pdfDataList := pdfDataList s;
     results := results s; progress := progress s; logs := logs s;
     error := error s; apiKey := apiKey s; skippedCount := skippedCount s;
     savedPdfCount := savedPdfCount s; abortControllerRef := x |}.

(** What one turn of the loop meets: the signal at the check that opens the
    turn, the end of [fetch] and [res.json()], and the signal during the
    wait that closes the turn. *)
Inductive FetchOutcome : Type :=
| Rejected (e : exn)
| Replied (data : json).

Record Turn : Type := {
  aborted_at_check : bool;
  outcome : FetchOutcome;
  aborted_in_wait : bool
}.

(** The local variables of the loop together with the component state. *)
Record Acc : Type := {
  maps : Maps;
  successCount : N;
  errorCount : N;
  ui : State
}.

Definition title20 (pdf : PdfData) : jsstring :=
  substring0 (title pdf) 20 ++ js "...".

Definition String_of_exn (e : exn) : jsstring :=
  match e with
  | AbortError => js "AbortError: The operation was aborted."
  | Canceled => js "Error: Canceled"
  | OtherError text => text
  end.

(** [errorCount++; addLog(`エラー: ...`)] *)
Definition note_error (pdf : PdfData) (ms : Maps) (a : Acc) : Acc :=
  {| maps := ms; successCount := successCount a;
     errorCount := (errorCount a + 1)%N;
     ui := addLog (js "エラー: " ++ title20 pdf) (ui a) |}.

(** [errorCount++; addLog(`スキップ: ...`)] *)
Definition note_skip (pdf : PdfData) (a : Acc) : Acc :=
  {| maps := maps a; successCount := successCount a;
     errorCount := (errorCount a + 1)%N;
     ui := addLog (js "スキップ: " ++ title20 pdf) (ui a) |}.

(** [successCount++; addLog(`分析完了 (i+1/n): ...`)] *)
Definition note_success (pdf : PdfData) (i n : N) (ms : Maps) (a : Acc) : Acc :=
  {| maps := ms; successCount := (successCount a + 1)%N;
     errorCount := errorCount a;
     ui := addLog (js "分析完了 (" ++ Extract.decimal (i + 1) ++ js "/" ++
                   Extract.decimal n ++ js "): " ++ title20 pdf) (ui a) |}.

(** The inner [catch]: a cancellation is thrown again, anything else counts
    as an error of the document.  The maps are the ones the body left. *)
Definition inner_catch (pdf : PdfData) (ms : Maps) (a : Acc) (e : exn)
  : Acc * option exn :=
  match e with
  | AbortError | Canceled =>
    ({| maps := ms; successCount := successCount a;
        errorCount := errorCount a; ui := ui a |}, Some e)
  | OtherError _ => (note_error pdf ms a, None)
  end.

(** The body of the inner [try] once [res.json()] gave [data]. *)
Definition on_reply (pdf : PdfData) (i n : N) (data : json) (a : Acc)
  : Acc * option exn :=
  match get data (js "success") with
  | Extract.Throws e => inner_catch pdf (maps a) a (OtherError e)
  | Extract.Ok ok =>
    if truthy ok then
      match get data (js "data") with
      | Extract.Throws e => inner_catch pdf (maps a) a (OtherError e)
      | Extract.Ok (Some d) =>
        if truthy (Some d) then
          match count_data d (maps a) with
          | (ms, None) => (note_success pdf i n ms a, None)
          | (ms, Some e) => inner_catch pdf ms a e
          end
        else (note_skip pdf a, None)
      | Extract.Ok None => (note_skip pdf a, None)
      end
    else (note_skip pdf a, None)
  end.

(** The inner [try] with its [catch]: the local variables after it and the
    exception thrown again, if any. *)
Definition on_outcome (pdf : PdfData) (i n : N) (o : FetchOutcome) (a : Acc)
  : Acc * option exn :=
  match o with
  | Rejected e => inner_catch pdf (maps a) a e
  | Replied data => on_reply pdf i n data a
  end.

Definition with_progress (current total : N) (a : Acc) : Acc :=
  {| maps := maps a; successCount := successCount a; errorCount := errorCount a;
     ui := setProgress current total (ui a) |}.

(** The [for] loop over [pdfDataList] from index [i]: the local variables
    at its end and the exception that left it, if any. *)
Fixpoint loop (env : nat -> Turn) (n : N) (i : nat) (pdfs : list PdfData) (a : Acc)
  : Acc * option exn :=
  match pdfs with
  | [] => (a, None)
  | pdf :: rest =>
    let turn := env i in
    if aborted_at_check turn then (a, Some Canceled)
    else
      let a := with_progress (N.of_nat i + 1) n a in
      match on_outcome pdf (N.of_nat i) n (outcome turn) a with
      | (a', Some e) => (a', Some e)
      | (a', None) =>
        if aborted_in_wait turn then (a', Some Canceled)
        else loop env n (S i) rest a'
      end
  end.

Definition handleAnalyze (env : nat -> Turn) (s : State) : State :=
  match apiKey s with
  | [] => setError (Some (js "Gemini APIキーを入力してください。")) s
  | _ :: _ =>
    match pdfDataList s with
    | [] => setError (Some (js "分析対象のPDFがありません。")) s
    | _ :: _ =>
      let n := N.of_nat (length (pdfDataList s)) in
      let s := setController true s in
      let s := setStep analyzing s in
      let s := setProgress 0 n s in
      let s := addLog (js "Gemini AIによる分析を開始... (" ++ Extract.decimal n ++ js "件)") s in
      let start := {| maps := empty_maps; successCount := 0; errorCount := 0; ui := s |} in
      let (a, thrown) := loop env n 0 (pdfDataList s) start in
      let s :=
        match thrown with
        | None =>
          let s := setResults (Some (report (maps a))) (ui a) in
          let s := addLog (js "分析完了: " ++ Extract.decimal (successCount a) ++
                           js "件成功, " ++ Extract.decimal (errorCount a) ++
                           js "件エラー") s in
          setStep complete s
        | Some AbortError | Some Canceled =>
          let s := addLog (js "中断しました: " ++ Extract.decimal (successCount a) ++
                           js "件分析済み") (ui a) in
          let s := setResults (Some (report (maps a))) s in
          setStep complete s
        | Some (OtherError text) =>
          let s := setError (Some text) (ui a) in
          let s := addLog (js "分析エラー: " ++ text) s in
          setStep idle s
        end in
      setController false s
    end
  end.

(** *** The report as a file *)

Record Download : Type := {
  download : jsstring;     (* a.download, the name of the file *)
  content : jsstring       (* the text of the blob *)
}.

(** [x.split('T')[0]] *)
Definition before_T (x : jsstring) : jsstring :=
  fst (span (fun c => negb (c =? 84)%N) x).

Definition report_data (generatedAt : jsstring) (r : AnalysisResults) : json :=
  JObject [(js "generatedAt", JString generatedAt);
           (js "ingredients", ingredients r);
           (js "dishes", dishes r);
           (js "cookingMethods", cookingMethods r);
           (js "seasons", seasons r)].

(** [downloadReportAsJson]: the file handed to the browser, if there are
    results.  [now] and [now'] are the two readings of
    [new Date().toISOString()]. *)
Definition downloadReportAsJson (now now' : jsstring) (s : State) : option Download :=
  match results s with
  | None => None
  | Some r =>
    Some {| download := js "kamaya-report-" ++ before_T now' ++ js ".json";
            content := JsonText.JSON_stringify (report_data now r) |}
  end.

Section Load.

(** The platform: [new Date(x).toLocaleString('ja-JP')] for the values that
    [new Date] can convert; for the others it throws. *)
Variable toLocaleString : json -> jsstring.

Definition date_line (generatedAt : json) : Extract.result jsstring :=
  if no_primitive generatedAt then
    Extract.Throws (js "TypeError: Cannot convert object to primitive value")
  else Extract.Ok (js "  生成日時: " ++ toLocaleString generatedAt).

(** [reader.onload], with the text that was read and [JSON.parse] of the
    platform.  The state cells written before an exception keep what was
    written: the [catch] only sets the error. *)
Definition onload (JSON_parse : jsstring -> Extract.result json)
    (fileName text : jsstring) (s : State) : State :=
  let failed e s := setError (Some (js "JSONファイルの読み込みに失敗しました: " ++ e)) s in
  match JSON_parse text with
  | Extract.Throws e => failed e s
  | Extract.Ok json =>
    match get json (js "ingredients") with
    | Extract.Throws e => failed e s
    | Extract.Ok i =>
      let d := prop_of json (js "dishes") in
      let c := prop_of json (js "cookingMethods") in
      let z := prop_of json (js "seasons") in
      match i, d, c, z with
      | Some i', Some d', Some c', Some z' =>
        if truthy i && truthy d && truthy c && truthy z then
          let s := setResults (Some {| ingredients := i'; dishes := d';
                                       cookingMethods := c'; seasons := z' |}) s in
          let s := addLog (js "レポートを読み込みました: " ++ fileName) s in
          let g := prop_of json (js "generatedAt") in
          match g with
          | Some g' =>
            if truthy g then
              match date_line g' with
              | Extract.Ok line => setStep complete (addLog line s)
              | Extract.Throws e => failed e s
              end
            else setStep complete s
          | None => setStep complete s
          end
        else
          setError (Some (js "無効なファイル形式です。kamaya-report-*.json ファイルを選択してください。")) s
      | _, _, _, _ =>
        setError (Some (js "無効なファイル形式です。kamaya-report-*.json ファイルを選択してください。")) s
      end
    end
  end.

(** [loadReportFromJson] once the reader has the text of the chosen file;
    [None] stands for an event without a file. *)
Definition loadReportFromJson (file : option (jsstring * jsstring)) (s : State) : State :=
  match file with
  | None => s
  | Some (fileName, text) => onload JsonText.JSON_parse fileName text s
  end.

End Load.

(** The results that hold the four given rankings. *)
Definition rankings (i d c z : list RankingItem) : AnalysisResults :=
  {| ingredients := ranking_json i; dishes := ranking_json d;
     cookingMethods := ranking_json c; seasons := ranking_json z |}.

(** *** Reading the aggregation off the replies *)

(** A key without white space at either end, and not empty. *)
Definition trimmed (k : jsstring) : Prop :=
  match k with
  | [] => False
  | c :: _ => is_space c = false /\ is_space (last k c) = false
  end.


(** The terms of one analysed document. *)
Record Analysis : Type := {
  a_ingredients : list jsstring;
  a_dishes : list jsstring;
  a_cookingMethods : list jsstring;
  a_seasons : list jsstring
}.

Fixpoint all_strings (items : list json) : option (list jsstring) :=
  match items with
  | [] => Some []
  | JString s :: rest =>
    match all_strings rest with
    | Some l => Some (s :: l)
    | None => None
    end
  | _ :: _ => None
  end.

(** The strings that a property of [data.data] lists: an array of strings,
    a string (its code points), or nothing when it is missing or falsy. *)
Definition strings_of (v : option json) : option (list jsstring) :=
  match or_empty v with
  | JArray items => all_strings items
  | JString s => Some (code_points s)
  | _ => None
  end.

Inductive reading : Type :=
| Unsuccessful              (* no [success] or no [data]: nothing to count *)
| Analysed (a : Analysis)   (* [success], [data], four lists of strings *)
| Malformed.                (* [success] and [data], but not such lists *)

Definition prop (d : json) (k : jsstring) : option json :=
  match get d k with
  | Extract.Ok v => v
  | Extract.Throws _ => None
  end.

Definition read_reply (data : json) : reading :=
  if truthy (prop data (js "success")) && truthy (prop data (js "data")) then
    match prop data (js "data") with
    | Some d =>
      match strings_of (prop d (js "ingredients")), strings_of (prop d (js "dishes")),
            strings_of (prop d (js "cookingMethods")), strings_of (prop d (js "seasons")) with
      | Some i, Some di, Some c, Some se =>
        Analysed {| a_ingredients := i; a_dishes := di;
                    a_cookingMethods := c; a_seasons := se |}
      | _, _, _, _ => Malformed
      end
    | None => Unsuccessful
    end
  else Unsuccessful.

(** The keys counted for a list of terms: each term trimmed, the empty ones
    dropped. *)
Definition keys (terms : list jsstring) : list jsstring :=
  filter (fun k => match k with [] => false | _ :: _ => true end) (map trim terms).

(** Counting keys one by one from the empty map. *)
Definition tally (ks : list jsstring) : Map :=
  fold_left (fun m k => increment k m) ks [].

Definition ranking_of (terms : list jsstring) : json :=
  ranking_json (sortMap (tally (keys terms))).

(** The report that the given analysed documents, in their order, add up
    to. *)
Definition expected_report (docs : list Analysis) : AnalysisResults :=
  {| ingredients := ranking_of (flat_map a_ingredients docs);
     dishes := ranking_of (flat_map a_dishes docs);
     cookingMethods := ranking_of (flat_map a_cookingMethods docs);
     seasons := ranking_of (flat_map a_seasons docs) |}.

Definition analysis_of (t : Turn) : list Analysis :=
  match outcome t with
  | Replied data =>
    match read_reply data with
    | Analysed a => [a]
    | _ => []
    end
  | Rejected _ => []
  end.

(** The documents analysed in the turns [0 .. m-1]. *)
Definition analyses (env : nat -> Turn) (m : nat) : list Analysis :=
  flat_map (fun i => analysis_of (env i)) (seq 0 m).

Definition is_cancel (o : FetchOutcome) : bool :=
  match o with
  | Rejected AbortError | Rejected Canceled => true
  | _ => false
  end.

(** A turn during which the signal is not seen aborted. *)
Definition calm (t : Turn) : Prop :=
  aborted_at_check t = false /\ is_cancel (outcome t) = false /\
  aborted_in_wait t = false.

(** The places of a turn where the cancellation can be observed, with the
    number of documents of the turn (none or one) handled before that. *)
Inductive observed (t : Turn) : nat -> Prop :=
| at_check : aborted_at_check t = true -> observed t 0
| in_fetch : aborted_at_check t = false -> is_cancel (outcome t) = true ->
             observed t 0
| in_wait : aborted_at_check t = false -> is_cancel (outcome t) = false ->
            aborted_in_wait t = true -> observed t 1.

(** No reply of the turn is malformed. *)
Definition readable (t : Turn) : Prop :=
  match outcome t with
  | Replied data => read_reply data <> Malformed
  | Rejected _ => True
  end.

(** The maps once the terms of the given documents were counted, category
    by category, on top of [ms]. *)
Definition counted (docs : list Analysis) (ms : Maps) : Maps :=
  let add terms m := fold_left (fun m k => increment k m) (keys terms) m in
  {| ingredientsMap := add (flat_map a_ingredients docs) (ingredientsMap ms);
     dishesMap := add (flat_map a_dishes docs) (dishesMap ms);
     cookingMethodsMap := add (flat_map a_cookingMethods docs) (cookingMethodsMap ms);
     seasonsMap := add (flat_map a_seasons docs) (seasonsMap ms) |}.

(** The line logged when a run is cancelled after [n] analysed documents. *)
Definition cancel_line (n : nat) : jsstring :=
  js "中断しました: " ++ Extract.decimal (N.of_nat n) ++ js "件分析済み".

(** The line logged when a run ends after [n] analysed documents and [e]
    documents in error. *)
Definition finish_line (n e : N) : jsstring :=
  js "分析完了: " ++ Extract.decimal n ++ js "件成功, " ++
  Extract.decimal e ++ js "件エラー".

(** *** Notions used to reason on the loop *)

(** A map whose keys are trimmed and distinct and whose counts are
    positive. *)
Definition good_map (m : Map) : Prop :=
  NoDup (map fst m) /\
  forall k c, In (k, c) m -> trimmed k /\ (1 <= c)%N.

Definition good_maps (ms : Maps) : Prop :=
  good_map (ingredientsMap ms) /\ good_map (dishesMap ms) /\
  good_map (cookingMethodsMap ms) /\ good_map (seasonsMap ms).




(** The cells that only [setStep], [setResults] and [setError] write. *)
Definition frame (s s' : State) : Prop :=
  step s' = step s /\ results s' = results s /\ error s' = error s /\
  pdfDataList s' = pdfDataList s /\ apiKey s' = apiKey s /\
  articles s' = articles s /\ skippedCount s' = skippedCount s /\
  savedPdfCount s' = savedPdfCount s /\
  abortControllerRef s' = abortControllerRef s.

(** No exception, or one of the two that stand for a cancellation. *)
Definition is_cancel_exn (e : option exn) : Prop :=
  e = None \/ e = Some Canceled \/ e = Some AbortError.

(** The documents of one reply. *)
Definition docs_of_reply (data : json) : list Analysis :=
  match read_reply data with
  | Analysed a => [a]
  | _ => []
  end.

(** *** Sample values used to exercise the handlers *)

Definition sample_reply (i d c z : list string) : json :=
  let strings l := JArray (map (fun x => JString (lit x)) l) in
  JObject [(js "success", JBool true);
           (js "data", JObject [(js "ingredients", strings i);
                                (js "dishes", strings d);
                                (js "cookingMethods", strings c);
                                (js "seasons", strings z)])].

Definition sample_pdf (t : string) : PdfData :=
  {| title := lit t; pdfBase64 := js "JVBERi0="; size := 6 |}.

Definition sample_state : State :=
  {| step := idle; articles := [];
     pdfDataList := [sample_pdf "かま屋通信 1月号"; sample_pdf "かま屋通信 2月号";
                     sample_pdf "かま屋通信 3月号"];
     results := None; progress := (0, 0)%N; logs := []; error := None;
     apiKey := js "key"; skippedCount := 0; savedPdfCount := 3;
     abortControllerRef := false |}.

(** Three turns: two documents are analysed, and the signal is aborted
    during the wait after the second one when [cancel] is set. *)
Definition sample_env (cancel : bool) (i : nat) : Turn :=
  match i with
  | 0 => {| aborted_at_check := false;
            outcome := Replied (sample_reply [" 大根 "%string; "人参"%string; "大根"%string] ["おでん"%string]
                                             ["煮る"%string] ["冬"%string; "  "%string]);
            aborted_in_wait := false |}
  | 1 => {| aborted_at_check := false;
            outcome := Replied (sample_reply ["人参"%string; "大根"%string; "白菜"%string] ["鍋"%string; "おでん"%string]
                                             ["煮る"%string; "蒸す"%string] []);
            aborted_in_wait := cancel |}
  | _ => {| aborted_at_check := false;
            outcome := Rejected (OtherError (js "TypeError: Failed to fetch"));
            aborted_in_wait := false |}
  end.

(** A reply whose list of ingredients holds a number after a term, and the
    turns in which each fetch gets this reply and the signal is aborted
    during the wait that follows. *)
Definition sample_mixed_reply : json :=
  JObject [(js "success", JBool true);
           (js "data",
            JObject [(js "ingredients",
                      JArray [JString (js "大根"); JNumber (Int 5)])])].

Definition sample_mixed_env (i : nat) : Turn :=
  {| aborted_at_check := false; outcome := Replied sample_mixed_reply;
     aborted_in_wait := true |}.

(** The state after the sample run went to its end, and the rankings of one
    category of its documents. *)
Definition sample_done : State := handleAnalyze (sample_env false) sample_state.

Definition sample_ranking (category : Analysis -> list jsstring) : list RankingItem :=
  sortMap (tally (keys (flat_map category (analyses (sample_env false) 3)))).

Definition sample_clock : json -> jsstring := fun _ => js "2026/11/3 9:00:00".

End Page.

(** ** Notions used to state further properties of the handlers *)

Module ExtractSpec.
Import Extract.

(** [s] begins with an [href] attribute in double quotes whose value holds
    [confirm=]: the text [href=], a double quote, the value, which holds no
    double quote, and a double quote. *)
Definition confirm_link (s value : jsstring) : Prop :=
  exists post, s = HREF_QUOTE ++ value ++ QUOTE :: post /\
    Forall (fun c => c <> QUOTE) value /\
    includes value (js "confirm=") = true.

(** The address that the handler asks for when it follows the link
    [href]: the entities [&amp;] are decoded, and an address that does not
    begin with [http] is taken on the Drive host. *)
Definition confirm_url (href : jsstring) : jsstring :=
  let u := unescape_amp 0 href in
  if startsWith u (js "http") then u else js "https://drive.google.com" ++ u.

(** The response is taken as a PDF by the handler when it follows a confirm
    link. *)
Definition is_pdf (r : Response) : bool :=
  includes (header (content_type r)) (js "application/pdf")
  || includes (header (content_type r)) (js "octet-stream").

(** The directory after [bytes] were written under [name]. *)
Definition written (name : jsstring) (bytes : list Byte.byte) (w : World)
  : jsstring -> option entry :=
  fun f => if list_eqb f name then Some (File bytes) else disk w f.

(** The directory after a write of [bytes] under [name] failed: as it was
    when the file was not opened, and otherwise with the bytes that were
    written before the failure under the name. *)
Definition left_over (name : jsstring) (bytes : list Byte.byte)
    (opened : option nat) (w : World) : jsstring -> option entry :=
  match opened with
  | None => disk w
  | Some written_bytes => written name (firstn written_bytes bytes) w
  end.

(** A title that sanitization leaves as it is. *)
Definition safe_title (t : jsstring) : Prop :=
  Forall (fun c => is_disallowed c = false /\ is_space c = false) t /\
  length t <= 100.

(** Sample platform values used to exercise the handler: the first bytes
    of a PDF, a stand-in for the base64 encoder, a confirm page, and a host
    that answers the first request with a page and the later ones with a
    PDF. *)
Definition sample_bytes : list Byte.byte := [Byte.x25; Byte.x50; Byte.x44; Byte.x46].

Definition sample_encoder : list Byte.byte -> jsstring := map Byte.to_N.

Definition confirm_page : jsstring :=
  Eval vm_compute in
    js "<html><a id='dl' href=" ++ [QUOTE] ++
    js "/uc?export=download&amp;confirm=t&amp;id=1AbC" ++ [QUOTE] ++
    js ">Download anyway</a></html>".

Definition confirm_host (page : jsstring) (bytes : list Byte.byte)
  : list jsstring -> jsstring -> result Response :=
  fun history u =>
    match history with
    | [] => html_host page history u
    | _ :: _ => pdf_host bytes history u
    end.

(** A directory that holds one PDF. *)
Definition sample_world : World :=
  {| disk := written (js "かま屋通信_1月号.pdf") sample_bytes empty_world;
     fetched := [] |}.

End ExtractSpec.

Module AnalyzeSpec.
Import Json Analyze.

(** The request lacks the PDF, its data, or the key. *)
Definition incomplete (b : Body) : Prop :=
  pdf b = None \/ (exists p, pdf b = Some p /\ pdfBase64 p = []) \/ apiKey b = [].

(** The data that the handler answers with for an object with the given
    properties: each of the four lists, or the empty list in the place of a
    missing or falsy one. *)
Definition data_of (fields : list (jsstring * json)) : Data :=
  {| ingredients := or_empty (lookup (js "ingredients") fields);
     dishes := or_empty (lookup (js "dishes") fields);
     cookingMethods := or_empty (lookup (js "cookingMethods") fields);
     seasons := or_empty (lookup (js "seasons") fields) |}.

Definition sample_fields : list (jsstring * json) :=
  [(js "ingredients", JArray [JString (js "大根"); JString (js "人参")]);
   (js "dishes", JArray []);
   (js "seasons", JNull)].

End AnalyzeSpec.

Module ScrapeSpec.
Import Scrape.

(** A date written [YYYY-MM-DD]: four digits, two digits and two digits,
    with hyphens between them. *)
Definition iso_date (s : jsstring) : Prop :=
  exists y m d, s = y ++ HYPHEN ++ m ++ HYPHEN ++ d /\
    length y = 4 /\ length m = 2 /\ length d = 2 /\
    all_digits y /\ all_digits m /\ all_digits d.

End ScrapeSpec.

Module PageSpec.
Import Json Page.

(** A value without a [trim] method that gives a string: anything but a
    string. *)
Definition not_a_string (v : json) : Prop :=
  match v with JString _ => False | _ => True end.

(** The document whose only terms are the given ingredients. *)
Definition only_ingredients (terms : list jsstring) : Analysis :=
  {| a_ingredients := terms; a_dishes := []; a_cookingMethods := [];
     a_seasons := [] |}.

(** The entry of a map as an item of a ranking. *)
Definition item_of (e : jsstring * N) : RankingItem :=
  {| name := fst e; count := snd e |}.

(** The four properties that [loadReportFromJson] asks for are there and
    truthy. *)
Definition report_like (v : json) (r : AnalysisResults) : Prop :=
  prop v (js "ingredients") = Some (ingredients r) /\
  prop v (js "dishes") = Some (dishes r) /\
  prop v (js "cookingMethods") = Some (cookingMethods r) /\
  prop v (js "seasons") = Some (seasons r) /\
  truthy (Some (ingredients r)) = true /\ truthy (Some (dishes r)) = true /\
  truthy (Some (cookingMethods r)) = true /\ truthy (Some (seasons r)) = true.

(** A reply that is a success with data whose list of ingredients holds a
    value that is not a string after the given terms. *)
Definition sample_bad_reply : json :=
  JObject [(js "success", JBool true);
           (js "data",
            JObject [(js "ingredients",
                      JArray [JString (js "大根"); JString (js " 人参 ");
                              JNumber (Int 3); JString (js "白菜")]);
                     (js "dishes", JArray [JString (js "おでん")])])].

Definition sample_bad_env (i : nat) : Turn :=
  {| aborted_at_check := false; outcome := Replied sample_bad_reply;
     aborted_in_wait := false |}.

Definition sample_one : State :=
  {| step := idle; articles := [];
     pdfDataList := [sample_pdf "かま屋通信 1月号"];
     results := None; progress := (0, 0)%N; logs := []; error := None;
     apiKey := js "key"; skippedCount := 0; savedPdfCount := 1;
     abortControllerRef := false |}.

End PageSpec.

(** ** [src/app/api/load-pdfs/route.ts] *)

Module LoadPdfs.
Import Json.
Import Extract (result, Ok, Throws, UNDERSCORE).

Definition DOT_PDF : jsstring := js ".pdf".
Definition SPACE : char16 := 32%N.

(** [s.endsWith(p)] *)
Definition endsWith (s p : jsstring) : bool := startsWith (rev s) (rev p).

(** [s.replace(p, '')] with a string [p]: the first occurrence of [p] is
    removed. *)
Fixpoint remove_first (p s : jsstring) : jsstring :=
  match strip_prefix p s with
  | Some t => t
  | None =>
    match s with
    | [] => []
    | c :: t => c :: remove_first p t
    end
  end.

(** [s.replace(/_/g, ' ')] *)
Definition underscores_to_spaces (s : jsstring) : jsstring :=
  map (fun c => if (c =? UNDERSCORE)%N then SPACE else c) s.

(** [filename.replace('.pdf', '').replace(/_/g, ' ')] *)
Definition restore_title (filename : jsstring) : jsstring :=
  underscores_to_spaces (remove_first DOT_PDF filename).

(** An element of the list that [GET] answers with. *)
Record Info : Type := {
  title : jsstring;
  filename : jsstring;
  size : N;
  filepath : jsstring
}.

(** An element of the list that [POST] answers with:
    [{ title, filename, pdfBase64, size }]. *)
Record Content : Type := {
  content_title : jsstring;
  content_filename : jsstring;
  pdfBase64 : jsstring;
  content_size : nat
}.

(** [{ success: true, count, pdfs }], or [{ success: false, error, pdfs: [] }]
    under status 200. *)
Inductive GetReply : Type :=
| Listing (count : nat) (pdfs : list Info)
| ListingFailure (error : jsstring).

(** [{ success: true, count, pdfs }], or [{ success: false, error }] under
    an HTTP status. *)
Inductive PostReply : Type :=
| Contents (count : nat) (pdfs : list Content)
| ContentsFailure (http_status : N) (error : jsstring).

Section Routes.

(** The platform: [readdir(DOWNLOAD_DIR)]; [stat] and [readFile] of the
    file at a path; [path.join(DOWNLOAD_DIR, name)]; base64 encoding. *)
Variable readdir : result (list jsstring).
Variable stat : jsstring -> result N.
Variable readFile : jsstring -> result (list Byte.byte).
Variable join : jsstring -> jsstring.
Variable base64 : list Byte.byte -> jsstring.

(** The loop of [GET] over the PDF files: the first [stat] that fails ends
    it with its error. *)
Fixpoint stat_all (pdfFiles : list jsstring) : result (list Info) :=
  match pdfFiles with
  | [] => Ok []
  | f :: rest =>
    match stat (join f) with
    | Throws e => Throws e
    | Ok fileSize =>
      match stat_all rest with
      | Throws e => Throws e
      | Ok pdfs =>
        Ok ({| title := restore_title f; filename := f; size := fileSize;
               filepath := join f |} :: pdfs)
      end
    end
  end.

Definition GET : GetReply :=
  match readdir with
  | Throws _ => Listing 0 []
  | Ok files =>
    let pdfFiles := filter (fun f => endsWith f DOT_PDF) files in
    match stat_all pdfFiles with
    | Ok pdfs => Listing (length pdfs) pdfs
    | Throws e => ListingFailure e
    end
  end.

(** One turn of the loop of [POST]: the element pushed, or nothing when the
    body of the inner [try] throws, as it does for a name that is not a
    string and for a file that cannot be read. *)
Definition read_one (item : json) : list Content :=
  match item with
  | JString name =>
    match readFile (join name) with
    | Ok buffer =>
      [{| content_title := restore_title name; content_filename := name;
          pdfBase64 := base64 buffer; content_size := length buffer |}]
    | Throws _ => []
    end
  | _ => []
  end.

Definition POST (request : result json) : PostReply :=
  match request with
  | Throws e => ContentsFailure 500 e
  | Ok body =>
    match get body (js "filenames") with
    | Throws e => ContentsFailure 500 e
    | Ok (Some (JArray filenames)) =>
      let pdfs := flat_map read_one filenames in
      Contents (length pdfs) pdfs
    | Ok _ => ContentsFailure 400 (js "filenames array is required")
    end
  end.

End Routes.

(** *** Notions used to state the properties *)

(** A title that comes back from its file name: no disallowed character,
    no underscore, no white space but single spaces, no [.pdf] inside, at
    most 100 code units. *)
Fixpoint single_spaces (after_space : bool) (s : jsstring) : Prop :=
  match s with
  | [] => True
  | c :: t =>
    if is_space c then c = SPACE /\ after_space = false /\ single_spaces true t
    else single_spaces false t
  end.

Definition plain_title (t : jsstring) : Prop :=
  Forall (fun c => Extract.is_disallowed c = false /\ c <> UNDERSCORE) t /\
  single_spaces false t /\
  includes t DOT_PDF = false /\
  length t <= 100.

(** Every white space character replaced by an underscore. *)
Definition spaces_to_underscores (s : jsstring) : jsstring :=
  map (fun c => if is_space c then UNDERSCORE else c) s.

(** The body [{ filenames: names }] of a request, as [JSON.parse] gives
    it. *)
Definition names_body (names : list jsstring) : json :=
  JObject [(js "filenames", JArray (map JString names))].

(** The element that [POST] answers with for a file name whose file holds
    the given bytes. *)
Definition content_of (base64 : list Byte.byte -> jsstring)
    (name : jsstring) (buffer : list Byte.byte) : Content :=
  {| content_title := restore_title name; content_filename := name;
     pdfBase64 := base64 buffer; content_size := length buffer |}.

(** The elements for the names whose file can be read, in the order of the
    names. *)
Fixpoint readable_contents (readFile : jsstring -> result (list Byte.byte))
    (join : jsstring -> jsstring) (base64 : list Byte.byte -> jsstring)
    (names : list jsstring) : list Content :=
  match names with
  | [] => []
  | name :: rest =>
    match readFile (join name) with
    | Ok buffer =>
      content_of base64 name buffer :: readable_contents readFile join base64 rest
    | Throws _ => readable_contents readFile join base64 rest
    end
  end.

(** The file names among the items of a request: the items that are
    strings. *)
Fixpoint string_items (items : list json) : list jsstring :=
  match items with
  | [] => []
  | JString name :: rest => name :: string_items rest
  | _ :: rest => string_items rest
  end.

(** Sample platform values: a directory with two PDF files and a note, one
    of the PDF files being unreadable. *)
Definition sample_files : list jsstring :=
  [js "かま屋通信_1月号.pdf"; js "notes.txt"; js "かま屋通信_2月号.pdf"].

Definition sample_join (name : jsstring) : jsstring := js "/app/downloads/" ++ name.

Definition sample_readFile (path : jsstring) : result (list Byte.byte) :=
  if Extract.list_eqb path (js "/app/downloads/かま屋通信_1月号.pdf")
  then Ok [Byte.x25; Byte.x50; Byte.x44; Byte.x46]
  else Throws (js "Error: EACCES: permission denied").

Definition sample_stat (path : jsstring) : result N := Ok 4%N.

Definition sample_body : json :=
  JObject [(js "filenames",
            JArray [JString (js "かま屋通信_2月号.pdf"); JNumber (Int 7);
                    JString (js "かま屋通信_1月号.pdf")])].

End LoadPdfs.

(** ** The client page: loading the saved PDFs *)

Module Client.
Import Json Page.

Definition setPdfDataList (x : list PdfData) (s : State) : State :=
  {| step := step s; articles := articles s; pdfDataList := x;
     results := results s; progress := progress s; logs := logs s;
     error := error s; apiKey := apiKey s; skippedCount := skippedCount s;
     savedPdfCount := savedPdfCount s; abortControllerRef := abortControllerRef s |}.

Definition setSkippedCount (x : N) (s : State) : State :=
  {| step := step s; articles := articles s; pdfDataList := pdfDataList s;
     results := results s; progress := progress s; logs := logs s;
     error := error s; apiKey := apiKey s; skippedCount := x;
     savedPdfCount := savedPdfCount s; abortControllerRef := abortControllerRef s |}.

Definition setSavedPdfCount (x : N) (s : State) : State :=
  {| step := step s; articles := articles s; pdfDataList := pdfDataList s;
     results := results s; progress := progress s; logs := logs s;
     error := error s; apiKey := apiKey s; skippedCount := skippedCount s;
     savedPdfCount := x; abortControllerRef := abortControllerRef s |}.

(** The end of [await fetch(...)] followed by [await response.json()]: a
    rejection, or the reply of the endpoint. *)
Inductive Outcome (A : Type) : Type :=
| Rejected (e : exn)
| Replied (reply : A).
Arguments Rejected {A} e.
Arguments Replied {A} reply.

(** [array.slice(i, j)] *)
Definition slice {A : Type} (i j : nat) (l : list A) : list A :=
  firstn (j - i) (skipn i l).

(** The element of [pdfDataList] that an element of the reply of the
    content request becomes; its [filename] property is read by nothing. *)
Definition pdf_of_content (c : LoadPdfs.Content) : PdfData :=
  {| title := LoadPdfs.content_title c; pdfBase64 := LoadPdfs.pdfBase64 c;
     size := N.of_nat (LoadPdfs.content_size c) |}.

(** [String(new Error(message))] *)
Definition String_of_Error (message : jsstring) : jsstring :=
  match message with
  | [] => js "Error"
  | _ :: _ => js "Error: " ++ message
  end.

Section LoadSaved.

(** The platform: the end of the request for the list, and the end of the
    content request for a batch of file names.  The replies are those of
    the load-pdfs route. *)
Variable get_list : Outcome LoadPdfs.GetReply.
Variable post_batch : list jsstring -> Outcome LoadPdfs.PostReply.

Definition batchSize : nat := 5.

(** The loop [for (let i = 0; i < filenames.length; i += batchSize)] from
    index [i] with [allPdfs] as it stands; [fuel] bounds the number of
    turns.  A rejected request leaves the loop with its exception. *)
Fixpoint load_batches (fuel i : nat) (filenames : list jsstring)
    (allPdfs : list PdfData) : list PdfData + exn :=
  match fuel with
  | O => inl allPdfs
  | S fuel' =>
    if i <? length filenames then
      let batch := slice i (i + batchSize) filenames in
      match post_batch batch with
      | Rejected e => inr e
      | Replied (LoadPdfs.Contents _ pdfs) =>
        load_batches fuel' (i + batchSize) filenames
                     (allPdfs ++ map pdf_of_content pdfs)
      | Replied (LoadPdfs.ContentsFailure _ _) =>
        load_batches fuel' (i + batchSize) filenames allPdfs
      end
    else inl allPdfs
  end.

Definition handleLoadSavedPdfs (s : State) : State :=
  let s := setStep loading s in
  let s := setError None s in
  let s := addLog (js "保存済みPDFを確認中...") s in
  let failed (text : jsstring) := setStep idle (setError (Some text) s) in
  match get_list with
  | Rejected e => failed (String_of_exn e)
  | Replied (LoadPdfs.ListingFailure error) => failed (String_of_Error error)
  | Replied (LoadPdfs.Listing count pdfs) =>
    match pdfs with
    | [] => setStep idle s
    | _ :: _ =>
      let s1 := addLog (Extract.decimal (N.of_nat count) ++
                        js "件のPDFを検出。読み込みを開始します...") s in
      let filenames := map LoadPdfs.filename pdfs in
      match load_batches (length filenames) 0 filenames [] with
      | inr e => setStep idle (setError (Some (String_of_exn e)) s1)
      | inl allPdfs =>
        let s2 := setPdfDataList allPdfs s1 in
        let s3 := addLog (Extract.decimal (N.of_nat (length allPdfs)) ++
                          js "件のPDFをメモリに読み込みました。") s2 in
        setStep idle s3
      end
    end
  end.

End LoadSaved.

(** *** Downloading the PDFs: [handleExtract] *)

(** [a.pdfUrl] is truthy. *)
Definition has_pdfUrl (a : Article) : bool :=
  match article_pdfUrl a with
  | Some (_ :: _) => true
  | _ => false
  end.

(** What one turn of the loop meets: the signal at the check that opens the
    turn, the end of the request to the extract endpoint, and the signal
    during the wait that closes the turn.  The replies are those of the
    extract route. *)
Record ExtractTurn : Type := {
  aborted_at_check : bool;
  outcome : Outcome Extract.Reply;
  aborted_in_wait : bool
}.

(** The local variables of the loop together with the component state. *)
Record ExtractAcc : Type := {
  pdfs : list PdfData;
  cachedCount : N;
  downloadedCount : N;
  skipped : N;
  ui : State
}.

Definition with_ui (x : State) (a : ExtractAcc) : ExtractAcc :=
  {| pdfs := pdfs a; cachedCount := cachedCount a;
     downloadedCount := downloadedCount a; skipped := skipped a; ui := x |}.

(** [skippedCount++] *)
Definition skip_one (a : ExtractAcc) : ExtractAcc :=
  {| pdfs := pdfs a; cachedCount := cachedCount a;
     downloadedCount := downloadedCount a; skipped := (skipped a + 1)%N; ui := ui a |}.

(** The body of the inner [try] with its [catch]: the local variables after
    it and the exception thrown again, if any. *)
Definition on_extract (article : Article) (o : Outcome Extract.Reply) (a : ExtractAcc)
  : ExtractAcc * option exn :=
  match o with
  | Rejected AbortError => (a, Some AbortError)
  | Rejected _ => (skip_one a, None)
  | Replied (Extract.Success t b64 sz _ _ cached) =>
    let pdf := {| title := t; pdfBase64 := b64; size := N.of_nat sz |} in
    if cached then
      ({| pdfs := pdfs a ++ [pdf]; cachedCount := (cachedCount a + 1)%N;
          downloadedCount := downloadedCount a; skipped := skipped a; ui := ui a |},
       None)
    else
      ({| pdfs := pdfs a ++ [pdf]; cachedCount := cachedCount a;
          downloadedCount := (downloadedCount a + 1)%N; skipped := skipped a;
          ui := addLog (js "新規ダウンロード: " ++ substring0 (article_title article) 25
                        ++ js "...") (ui a) |},
       None)
  | Replied (Extract.Failure _ error _) =>
    let a := skip_one a in
    match error with
    | [] => (a, None)
    | _ :: _ =>
      if includes error (js "Access denied") then (a, None)
      else (with_ui (addLog (js "スキップ: " ++ substring0 (article_title article) 20
                             ++ js "...") (ui a)) a, None)
    end
  end.

(** [checkSavedPdfs]: the count of a successful answer is stored, anything
    else is ignored. *)
Definition checkSavedPdfs (o : Outcome LoadPdfs.GetReply) (s : State) : State :=
  match o with
  | Replied (LoadPdfs.Listing count _) => setSavedPdfCount (N.of_nat count) s
  | _ => s
  end.

Section ExtractRun.

Variable env : nat -> ExtractTurn.
Variable saved : Outcome LoadPdfs.GetReply.

(** The [for] loop over [targets] from index [i]. *)
Fixpoint extract_loop (n : N) (i : nat) (targets : list Article) (a : ExtractAcc)
  : ExtractAcc * option exn :=
  match targets with
  | [] => (a, None)
  | article :: rest =>
    let turn := env i in
    if aborted_at_check turn then (a, Some Canceled)
    else
      let a := with_ui (setProgress (N.of_nat i + 1) n (ui a)) a in
      match on_extract article (outcome turn) a with
      | (a', Some e) => (a', Some e)
      | (a', None) =>
        if aborted_in_wait turn then (a', Some Canceled)
        else extract_loop n (S i) rest a'
      end
  end.

Definition count_line (label : jsstring) (n : N) : jsstring :=
  label ++ Extract.decimal n ++ js "件".

Definition handleExtract (s : State) : State :=
  let targets := filter has_pdfUrl (articles s) in
  match targets with
  | [] => setError (Some (js "PDFリンクのある記事が見つかりません。")) s
  | _ :: _ =>
    let n := N.of_nat (length targets) in
    let s := setController true s in
    let s := setStep extracting s in
    let s := setProgress 0 n s in
    let s := setPdfDataList [] s in
    let s := setSkippedCount 0 s in
    let s := addLog (js "PDFのダウンロードを開始します... (対象: " ++
                     Extract.decimal n ++ js "件)") s in
    let start := {| pdfs := []; cachedCount := 0; downloadedCount := 0;
                    skipped := 0; ui := s |} in
    let (a, thrown) := extract_loop n 0 targets start in
    let s :=
      match thrown with
      | None =>
        let s := setPdfDataList (pdfs a) (ui a) in
        let s := setSkippedCount (skipped a) s in
        let s := addLog (js "--- 完了 ---") s in
        let s := addLog (count_line (js "  キャッシュから読込: ") (cachedCount a)) s in
        let s := addLog (count_line (js "  新規ダウンロード: ") (downloadedCount a)) s in
        let s := addLog (count_line (js "  スキップ（アクセス不可等）: ") (skipped a)) s in
        let s := addLog (count_line (js "  合計: ") (N.of_nat (length (pdfs a)))) s in
        checkSavedPdfs saved s
      | Some AbortError | Some Canceled =>
        let s := addLog (js "キャンセルされました") (ui a) in
        let s := addLog (js "  キャッシュ: " ++ Extract.decimal (cachedCount a) ++
                         js "件, 新規: " ++ Extract.decimal (downloadedCount a) ++
                         js "件, スキップ: " ++ Extract.decimal (skipped a) ++ js "件") s in
        let s := setPdfDataList (pdfs a) s in
        let s := setSkippedCount (skipped a) s in
        checkSavedPdfs saved s
      | Some (OtherError text) => setError (Some text) (ui a)
      end in
    setController false (setStep idle s)
  end.

End ExtractRun.

(** The documents delivered by the turns [0 .. m-1]: one for each reply
    that is a success, in the order of the turns. *)
Definition delivered_by (t : ExtractTurn) : list PdfData :=
  match outcome t with
  | Replied (Extract.Success t b64 sz _ _ _) =>
    [{| title := t; pdfBase64 := b64; size := N.of_nat sz |}]
  | _ => []
  end.

Definition delivered (env : nat -> ExtractTurn) (m : nat) : list PdfData :=
  flat_map (fun i => delivered_by (env i)) (seq 0 m).

(** A turn during which the signal is not seen aborted. *)
Definition quiet (t : ExtractTurn) : Prop :=
  aborted_at_check t = false /\ outcome t <> Rejected AbortError /\
  aborted_in_wait t = false.

(** Sample values: three articles, one without a link; the first request is
    answered from the cache, the second one is refused. *)
Definition sample_article (t : string) (link : option jsstring) : Article :=
  {| article_title := lit t; article_url := js "https://foodhub.co.jp/daybook/1";
     article_date := js "2024-01-01"; article_pdfUrl := link;
     article_pdfType := Some (js "google-drive") |}.

Definition sample_articles : State :=
  {| step := idle;
     articles := [sample_article "かま屋通信 1月号" (Some (js "https://drive.google.com/file/d/1/view"));
                  sample_article "お知らせ" None;
                  sample_article "かま屋通信 2月号" (Some (js "https://drive.google.com/file/d/2/view"))];
     pdfDataList := []; results := None; progress := (0, 0)%N; logs := [];
     error := None; apiKey := []; skippedCount := 0; savedPdfCount := 0;
     abortControllerRef := false |}.

Definition sample_extract_env (i : nat) : ExtractTurn :=
  match i with
  | 0 => {| aborted_at_check := false;
            outcome := Replied (Extract.Success (js "かま屋通信 1月号") (js "JVBERi0=") 6
                                  (js "/app/downloads/かま屋通信_1月号.pdf")
                                  (js "かま屋通信_1月号.pdf") true);
            aborted_in_wait := false |}
  | _ => {| aborted_at_check := false;
            outcome := Replied (Extract.skip (js "Access denied - no permission to view this PDF"));
            aborted_in_wait := false |}
  end.

(** *** Collecting the articles: [handleScrape] *)

Definition setArticles (x : list Article) (s : State) : State :=
  {| step := step s; articles := x; pdfDataList := pdfDataList s;
     results := results s; progress := progress s; logs := logs s;
     error := error s; apiKey := apiKey s; skippedCount := skippedCount s;
     savedPdfCount := savedPdfCount s; abortControllerRef := abortControllerRef s |}.

Definition setLogs (x : list jsstring) (s : State) : State :=
  {| step := step s; articles := articles s; pdfDataList := pdfDataList s;
     results := results s; progress := progress s; logs := x;
     error := error s; apiKey := apiKey s; skippedCount := skippedCount s;
     savedPdfCount := savedPdfCount s; abortControllerRef := abortControllerRef s |}.

Definition NEWLINE : char16 := 10%N.

(** [text.split('\n\n')], the last element apart: the pieces that end with
    a blank line, and what follows the last blank line.  The text is read
    from left to right; [piece] is the piece read so far. *)
Fixpoint split_blank (piece text : jsstring) : list jsstring * jsstring :=
  match text with
  | [] => ([], piece)
  | c :: t =>
    match t with
    | d :: t' =>
      if ((c =? NEWLINE) && (d =? NEWLINE))%N then
        let (pieces, last) := split_blank [] t' in (piece :: pieces, last)
      else split_blank (piece ++ [c]) t
    | [] => ([], piece ++ [c])
    end
  end.

(** [v === 'text'] for a value that may be [undefined]. *)
Definition is_text (v : option json) (text : jsstring) : bool :=
  match v with
  | Some (JString s) => Extract.list_eqb s text
  | _ => false
  end.

(** What one read of the stream meets: the signal at the check before the
    read, and the end of the read, a chunk of decoded text or a
    rejection. *)
Inductive Read : Type :=
| Chunk (text : jsstring)
| ReadFails (e : exn).

Record ReadTurn : Type := {
  aborted : bool;
  read : Read
}.

(** The end of [fetch('/api/scrape')]: a rejection, a response without a
    body, or a body with the reads that it gives until it is done. *)
Inductive ScrapeResponse : Type :=
| FetchFails (e : exn)
| NoBody
| Stream (turns : list ReadTurn).

Section Scrape.

(** The platform: [JSON.parse]; the text that a template literal gives for
    a parsed value or [undefined]; and the values of a message as the
    typed cells of the state hold them. *)
Variable JSON_parse : jsstring -> Extract.result json.
Variable ToString : option json -> jsstring.
Variable as_number : option json -> N.
Variable as_articles : option json -> list Article.
Variable as_error : option json -> option jsstring.

(** The body of [for (const line of lines)]: a line that does not begin
    with [data: ], a text that is not JSON and the value [null] change
    nothing. *)
Definition on_line (line : jsstring) (s : State) : State :=
  if startsWith line (js "data: ") then
    match JSON_parse (skipn 6 line) with
    | Extract.Throws _ => s
    | Extract.Ok data =>
      match get data (js "type") with
      | Extract.Throws _ => s
      | Extract.Ok type =>
        if is_text type (js "log") then
          addLog (ToString (prop_of data (js "message"))) s
        else if is_text type (js "progress") then
          let s := addLog (ToString (prop_of data (js "message"))) s in
          if truthy (prop_of data (js "total")) then
            setProgress (as_number (prop_of data (js "current")))
                        (as_number (prop_of data (js "total"))) s
          else s
        else if is_text type (js "complete") then
          let s := setArticles (as_articles (prop_of data (js "articles"))) s in
          addLog (ToString (prop_of data (js "total")) ++
                  js "件の記事を発見しました。（うちPDFあり: " ++
                  ToString (prop_of data (js "withPdf")) ++ js "件）") s
        else if is_text type (js "error") then
          setError (as_error (prop_of data (js "error"))) s
        else s
      end
    end
  else s.

Definition on_lines (lines : list jsstring) (s : State) : State :=
  fold_left (fun s line => on_line line s) lines s.

(** The [while (true)] loop: the state at its end and the exception that
    left it, if any.  The end of the list is the read that is done. *)
Fixpoint read_loop (turns : list ReadTurn) (buffer : jsstring) (s : State)
  : State * option exn :=
  match turns with
  | [] => (s, None)
  | t :: rest =>
    if aborted t then (s, None)
    else
      match read t with
      | ReadFails e => (s, Some e)
      | Chunk text =>
        let (lines, buffer) := split_blank [] (buffer ++ text) in
        read_loop rest buffer (on_lines lines s)
      end
  end.

(** The state in which the request is sent. *)
Definition scraping_state (s : State) : State :=
  let s := setStep scraping s in
  let s := setError None s in
  let s := setLogs [] s in
  let s := setProgress 0 0 s in
  let s := addLog (js "Webサイトから記事情報を収集中...") s in
  setController true s.

Definition handleScrape (response : ScrapeResponse) (s : State) : State :=
  let s := scraping_state s in
  let (s, thrown) :=
    match response with
    | FetchFails e => (s, Some e)
    | NoBody => (s, Some (OtherError (js "Error: No response body")))
    | Stream turns => read_loop turns [] s
    end in
  let s :=
    match thrown with
    | None => setStep idle s
    | Some AbortError | Some Canceled =>
      setStep idle (addLog (js "取得がキャンセルされました。") s)
    | Some (OtherError text) => setStep idle (setError (Some text) s)
    end in
  setController false s.

End Scrape.

(** A piece that was read before the text whose pieces are [r]: it belongs
    to the first of them. *)
Definition put_before (piece : jsstring) (r : list jsstring * jsstring)
  : list jsstring * jsstring :=
  match fst r with
  | [] => ([], piece ++ snd r)
  | x :: pieces => ((piece ++ x) :: pieces, snd r)
  end.

(** The pieces of a text that end with a blank line. *)
Definition complete_lines (text : jsstring) : list jsstring :=
  fst (split_blank [] text).

(** A stream that gives the given chunks and is done, the signal never
    being aborted. *)
Definition chunks (texts : list jsstring) : ScrapeResponse :=
  Stream (map (fun text => {| aborted := false; read := Chunk text |}) texts).

(** Sample platform values: a parser that knows one message, and a stream
    that cuts it in the middle of its blank line. *)
Definition sample_message : jsstring := js "data: log-message".

Definition sample_parser (text : jsstring) : Extract.result json :=
  if Extract.list_eqb text (js "log-message")
  then Extract.Ok (JObject [(js "type", JString (js "log"));
                            (js "message", JString (js "ページ一覧を取得中..."))])
  else Extract.Throws (js "SyntaxError: Unexpected token").

Definition sample_ToString (v : option json) : jsstring :=
  match v with
  | Some (JString s) => s
  | _ => js "undefined"
  end.

(** The requests of the page served by the load-pdfs route over the given
    platform; the route reads the body [{ filenames: batch }] that the page
    sent. *)
Definition served_list (readdir : Extract.result (list jsstring))
    (stat : jsstring -> Extract.result N) (join : jsstring -> jsstring)
  : Outcome LoadPdfs.GetReply :=
  Replied (LoadPdfs.GET readdir stat join).

Definition served_batch (readFile : jsstring -> Extract.result (list Byte.byte))
    (join : jsstring -> jsstring) (base64 : list Byte.byte -> jsstring)
    (batch : list jsstring) : Outcome LoadPdfs.PostReply :=
  Replied (LoadPdfs.POST readFile join base64
             (Extract.Ok (LoadPdfs.names_body batch))).

End Client.

(** ** [src/app/api/scrape/route.ts]: the collection of the article
    addresses by [GET] *)

Module ScrapeList.
Import Extract (result, Response, SLASH).

Definition BASE_URL : jsstring := js "https://foodhub.co.jp".

(** [encodeURIComponent] of the name of the category: its UTF-8 bytes in
    percent notation. *)
Definition CATEGORY_ENCODED : jsstring :=
  js "%E3%81%8B%E3%81%BE%E5%B1%8B%E9%80%9A%E4%BF%A1".

Definition DAYBOOK : jsstring := js "/daybook/".

(** [/\/daybook\/(\d+)\/?$/] tried at the head of [s]; the result is group
    1.  The digits are followed by the end of the text, or by one slash and
    the end. *)
Definition at_daybook_end (s : jsstring) : option jsstring :=
  match strip_prefix DAYBOOK s with
  | Some t =>
    match span is_digit t with
    | ([], _) => None
    | (id, []) => Some id
    | (id, [c]) => if (c =? SLASH)%N then Some id else None
    | (_, _ :: _ :: _) => None
    end
  | None => None
  end.

(** [match && !href.includes('/page/')] *)
Definition is_article_link (href : jsstring) : bool :=
  match search at_daybook_end href with
  | Some _ => negb (includes href (js "/page/"))
  | None => false
  end.

(** [s.replace(/\/$/, '')] *)
Definition strip_slash (s : jsstring) : jsstring :=
  match rev s with
  | c :: r => if (c =? SLASH)%N then rev r else s
  | [] => s
  end.

(** [href.startsWith('http') ? href : `${BASE_URL}${href}`], normalized *)
Definition normalizedUrl (href : jsstring) : jsstring :=
  strip_slash (if startsWith href (js "http") then href else BASE_URL ++ href).

(** [allUrls.has(u)] for a [Set] kept as the list of its elements in
    insertion order. *)
Definition has (u : jsstring) (allUrls : list jsstring) : bool :=
  existsb (Extract.list_eqb u) allUrls.

(** The callback of [.each] for one anchor: the set and the count of the
    page after it. *)
Definition on_anchor (acc : list jsstring * nat) (href : jsstring)
  : list jsstring * nat :=
  let (allUrls, foundOnThisPage) := acc in
  match href with
  | [] => acc
  | _ :: _ =>
    if is_article_link href then
      let u := normalizedUrl href in
      if negb (has u allUrls) && negb (has (u ++ [SLASH]) allUrls)
      then (allUrls ++ [u], S foundOnThisPage)
      else acc
    else acc
  end.

Definition page_url (page : nat) : jsstring :=
  match page with
  | 1 => BASE_URL ++ js "/daybook/?category=" ++ CATEGORY_ENCODED
  | _ => BASE_URL ++ js "/daybook/page/" ++ Extract.decimal (N.of_nat page)
         ++ js "/?category=" ++ CATEGORY_ENCODED
  end.

(** What the progress message of a page reports. *)
Record PageReport : Type := {
  page_number : nat;
  found : nat;          (* foundOnThisPage *)
  total : nat           (* allUrls.size *)
}.

Section Collect.

(** The platform: the network, and the [href] attributes of the anchors
    that the selector [a[href*="/daybook/"]] finds in a page, in document
    order. *)
Variable net : jsstring -> result Response.
Variable hrefs : jsstring -> list jsstring.

(** The loop [for (let page = 1; page <= 15; page++)] over the pages that
    are left: the set at its end and the reports of the pages that were
    read. *)
Fixpoint collect (pages : list nat) (allUrls : list jsstring)
  : list jsstring * list PageReport :=
  match pages with
  | [] => (allUrls, [])
  | page :: rest =>
    match Scrape.fetchPage net (page_url page) with
    | None | Some [] => (allUrls, [])
    | Some html =>
      let (allUrls', foundOnThisPage) :=
        fold_left on_anchor (hrefs html) (allUrls, 0) in
      let report := {| page_number := page; found := foundOnThisPage;
                       total := length allUrls' |} in
      if (foundOnThisPage =? 0) && (1 <? page) then (allUrls', [report])
      else
        let (urls, reports) := collect rest allUrls' in
        (urls, report :: reports)
    end
  end.

(** [Array.from(allUrls)] after the loop, with the reports. *)
Definition collected : list jsstring * list PageReport :=
  collect (seq 1 15) [].

End Collect.

(** The address of an article: some text, [/daybook/], and a number that
    ends it. *)
Definition article_address (u : jsstring) : Prop :=
  exists before id, u = before ++ DAYBOOK ++ id /\ id <> [] /\
    Forall (fun c => is_digit c = true) id.

(** The set holds each address once, each one the address of an article. *)
Definition tidy (allUrls : list jsstring) : Prop :=
  NoDup allUrls /\ Forall article_address allUrls.

(** Sample platform values: a site of two list pages; the second one
    repeats an article of the first with a slash at its end. *)
Definition sample_net (u : jsstring) : result Response :=
  if Extract.list_eqb u (page_url 1) then Extract.Ok (Extract.html_page (js "page-1"))
  else if Extract.list_eqb u (page_url 2) then Extract.Ok (Extract.html_page (js "page-2"))
  else Extract.Throws (js "TypeError: fetch failed").

Definition sample_hrefs (html : jsstring) : list jsstring :=
  if Extract.list_eqb html (js "page-1")
  then [js "/daybook/101/"; js "https://foodhub.co.jp/daybook/102"; js "/daybook/page/2/"]
  else [js "/daybook/101"; js "/daybook/"].

End ScrapeList.

(** ** The analysis run served by the analyze endpoint *)

Module Pipeline.
Import Json Page.

(** The JSON that the analyze endpoint answers with, as [res.json()] gives
    it to the page. *)
Definition reply_json (r : Analyze.Reply) : json :=
  match r with
  | Analyze.Failure _ error =>
    JObject [(js "success", JBool false); (js "error", JString error)]
  | Analyze.Analysed title data =>
    JObject [(js "success", JBool true);
             (js "title", JString title);
             (js "data",
              JObject [(js "ingredients", Analyze.ingredients data);
                       (js "dishes", Analyze.dishes data);
                       (js "cookingMethods", Analyze.cookingMethods data);
                       (js "seasons", Analyze.seasons data)])]
  end.

(** The body [{ pdf, apiKey }] that the page sends for a document, as the
    endpoint reads it. *)
Definition request_of (key : jsstring) (pdf : PdfData) : Analyze.Body :=
  {| Analyze.pdf := Some {| Analyze.title := title pdf;
                            Analyze.pdfBase64 := pdfBase64 pdf |};
     Analyze.apiKey := key |}.

Section Served.

Variable generateContent : jsstring -> jsstring -> Extract.result jsstring.
Variable JSON_parse : jsstring -> Extract.result json.

Definition answer (key : jsstring) (pdf : PdfData) : Analyze.Reply :=
  Analyze.POST generateContent JSON_parse (Extract.Ok (request_of key pdf)).

(** The turns of a run in which every request is answered by the endpoint
    and the signal is never aborted. *)
Definition served (key : jsstring) (pdfs : list PdfData) (i : nat) : Turn :=
  {| aborted_at_check := false;
     outcome :=
       match nth_error pdfs i with
       | Some pdf => Replied (reply_json (answer key pdf))
       | None => Rejected (OtherError (js "TypeError: Failed to fetch"))
       end;
     aborted_in_wait := false |}.

End Served.

(** The four lists of the data of an answer, when they are lists of
    strings. *)
Definition lists_of (d : Analyze.Data) : option Analysis :=
  match strings_of (Some (Analyze.ingredients d)), strings_of (Some (Analyze.dishes d)),
        strings_of (Some (Analyze.cookingMethods d)), strings_of (Some (Analyze.seasons d)) with
  | Some i, Some di, Some c, Some se =>
    Some {| a_ingredients := i; a_dishes := di; a_cookingMethods := c; a_seasons := se |}
  | _, _, _, _ => None
  end.

(** The document that an answer stands for: the lists of a success, and
    nothing for a failure. *)
Definition document_of (r : Analyze.Reply) : list Analysis :=
  match r with
  | Analyze.Analysed _ d =>
    match lists_of d with
    | Some a => [a]
    | None => []
    end
  | Analyze.Failure _ _ => []
  end.

(** An answer whose lists, if it is a success, are lists of strings. *)
Definition well_typed (r : Analyze.Reply) : Prop :=
  match r with
  | Analyze.Analysed _ d => lists_of d <> None
  | Analyze.Failure _ _ => True
  end.

(** Sample platform values: a model that answers with an object for the
    documents whose data begin with [J] and with prose for the others. *)
Definition sample_model (key data : jsstring) : Extract.result jsstring :=
  match data with
  | 74%N :: _ =>
    Extract.Ok (js "結果: " ++
                JsonText.JSON_stringify
                  (JObject [(js "ingredients", JArray [JString (js "大根"); JString (js " 大根 ")]);
                            (js "dishes", JArray [JString (js "おでん")])]))
  | _ => Extract.Ok (js "分析できませんでした")
  end.

Definition sample_run : State :=
  {| step := idle; articles := [];
     pdfDataList := [sample_pdf "かま屋通信 1月号";
                     {| title := js "かま屋通信 2月号"; pdfBase64 := js "AAAA"; size := 3 |}];
     results := None; progress := (0, 0)%N; logs := []; error := None;
     apiKey := js "key"; skippedCount := 0; savedPdfCount := 2;
     abortControllerRef := false |}.

End Pipeline.

(** * Verification *)

(** *** Facts on the string primitives *)

Lemma strip_prefix_app (p s : jsstring) : strip_prefix p (p ++ s) = Some s.
Proof.
  induction p as [|a p IH]; simpl; [reflexivity|].
  now rewrite N.eqb_refl.
Qed.

Lemma strip_prefix_Some (p s t : jsstring) :
  strip_prefix p s = Some t -> s = p ++ t.
Proof.
  revert s; induction p as [|a p IH]; simpl; intros s H.
  - now inversion H.
  - destruct s as [|b s]; [discriminate|].
    destruct (N.eqb_spec a b) as [->|]; [|discriminate].
    now rewrite (IH _ H).
Qed.

Lemma strip_prefix_None (p s : jsstring) :
  strip_prefix p s = None -> forall t, s <> p ++ t.
Proof.
  intros H t ->. now rewrite strip_prefix_app in H.
Qed.

Lemma startsWith_true (s p : jsstring) :
  startsWith s p = true <-> exists t, s = p ++ t.
Proof.
  unfold startsWith; split.
  - destruct (strip_prefix p s) eqn:E; [|discriminate].
    intros _. eexists. apply strip_prefix_Some. exact E.
  - intros [t ->]. now rewrite strip_prefix_app.
Qed.

Lemma includes_true (s p : jsstring) :
  includes s p = true <-> exists a b, s = a ++ p ++ b.
Proof.
  induction s as [|c s IH]; simpl.
  - rewrite orb_false_r, startsWith_true. split.
    + intros [t H]. exists [], t. exact H.
    + intros (a & b & H). destruct a; [now exists b|discriminate].
  - rewrite orb_true_iff, startsWith_true, IH. split.
    + intros [[t H]|(a & b & H)].
      * exists [], t. exact H.
      * exists (c :: a), b. now rewrite H.
    + intros (a & b & H). destruct a as [|x a].
      * left. now exists b.
      * right. inversion H. now exists a, b.
Qed.

Lemma span_app (p : char16 -> bool) (s : jsstring) :
  s = fst (span p s) ++ snd (span p s).
Proof.
  induction s as [|c s IH]; simpl; [reflexivity|].
  destruct (p c); [|reflexivity].
  destruct (span p s); simpl in *. now rewrite <- IH.
Qed.

Lemma span_fst_all (p : char16 -> bool) (s : jsstring) :
  forallb p (fst (span p s)) = true.
Proof.
  induction s as [|c s IH]; simpl; [reflexivity|].
  destruct (p c) eqn:E; [|reflexivity].
  destruct (span p s); simpl in *. now rewrite E.
Qed.

Lemma span_snd_stop (p : char16 -> bool) (s : jsstring) :
  match snd (span p s) with [] => True | c :: _ => p c = false end.
Proof.
  induction s as [|c s IH]; simpl; [exact I|].
  destruct (p c) eqn:E; [|exact E].
  now destruct (span p s).
Qed.

(** The greedy run is the unique split into characters of the class followed
    by the end of the string or a character outside of it. *)
Lemma span_unique (p : char16 -> bool) (a b : jsstring) :
  forallb p a = true ->
  match b with [] => True | c :: _ => p c = false end ->
  span p (a ++ b) = (a, b).
Proof.
  intros Ha Hb. induction a as [|x a IH]; simpl in *.
  - destruct b as [|c b]; [reflexivity|]. simpl. now rewrite Hb.
  - apply andb_true_iff in Ha as [Hx Ha]. now rewrite Hx, (IH Ha).
Qed.

(** *** Leftmost search *)

Section Search.
Variable A : Type.
Variable at_pos : jsstring -> option A.

Lemma search_found (s : jsstring) (r : A) :
  search at_pos s = Some r ->
  exists n, n <= length s /\ at_pos (skipn n s) = Some r /\
            forall m, m < n -> at_pos (skipn m s) = None.
Proof.
  induction s as [|c s IH]; simpl.
  - destruct (at_pos []) eqn:E; [|discriminate].
    intros H; inversion H; subst. exists 0. simpl. repeat split; auto; lia.
  - destruct (at_pos (c :: s)) eqn:E.
    + intros H; inversion H; subst. exists 0. simpl. repeat split; auto; lia.
    + intros H. destruct (IH H) as (n & Hn & Hat & Hlt).
      exists (S n). simpl. repeat split; auto; try lia.
      intros [|m] Hm; simpl; [exact E|]. apply Hlt. lia.
Qed.

Lemma search_first (n : nat) (s : jsstring) (r : A) :
  at_pos (skipn n s) = Some r ->
  (forall m, m < n -> at_pos (skipn m s) = None) ->
  search at_pos s = Some r.
Proof.
  revert s; induction n as [|n IH]; intros s Hat Hlt.
  - simpl in Hat. destruct s; simpl; now rewrite Hat.
  - destruct s as [|c s].
    + simpl in *. now rewrite Hat.
    + simpl. generalize (Hlt 0 (Nat.lt_0_succ n)); simpl; intros ->.
      simpl in Hat. apply IH; [exact Hat|].
      intros m Hm. apply (Hlt (S m)). lia.
Qed.

Lemma search_None (s : jsstring) :
  search at_pos s = None <-> forall n, at_pos (skipn n s) = None.
Proof.
  induction s as [|c s IH]; simpl.
  - split.
    + destruct (at_pos []) eqn:E; [discriminate|]. intros _ [|n]; exact E.
    + intros H. specialize (H 0). simpl in H. now rewrite H.
  - split.
    + destruct (at_pos (c :: s)) eqn:E; [discriminate|].
      intros H [|n]; [exact E|]. simpl. now apply IH.
    + intros H. generalize (H 0); simpl; intros ->.
      apply IH. intros n. exact (H (S n)).
Qed.

End Search.



(** *** Leftmost search finds the first occurrence *)

Section Occurrence.
Variable A : Type.
Variable P : jsstring -> A -> Prop.
Variable at_pos : jsstring -> option A.
Hypothesis at_pos_spec : forall s x, at_pos s = Some x <-> P s x.

Lemma at_pos_None s : at_pos s = None <-> forall y, ~ P s y.
Proof.
  split.
  - intros H y Hy. apply at_pos_spec in Hy. congruence.
  - intros H. destruct (at_pos s) as [y|] eqn:E; [|reflexivity].
    apply at_pos_spec in E. now apply H in E.
Qed.

Lemma search_occurs_first s pre x :
  occurs_first P s pre x -> search at_pos s = Some x.
Proof.
  intros (rest & -> & HP & Hfirst).
  apply search_first with (n := length pre).
  - rewrite skipn_app, skipn_all, Nat.sub_diag. simpl. now apply at_pos_spec.
  - intros m Hm. apply at_pos_None. intros y. now apply Hfirst.
Qed.

Lemma search_absent s : absent P s <-> search at_pos s = None.
Proof.
  rewrite search_None. split.
  - intros H n. apply at_pos_None. intros y. apply H.
  - intros H n y. now apply at_pos_None.
Qed.

Lemma search_Some_occurs s x :
  search at_pos s = Some x -> exists pre, occurs_first P s pre x.
Proof.
  intros H. apply search_found in H as (n & Hn & Hat & Hlt).
  exists (firstn n s), (skipn n s). repeat split.
  - now rewrite firstn_skipn.
  - now apply at_pos_spec.
  - intros m y Hm. apply at_pos_None. apply Hlt.
    rewrite length_firstn in Hm. lia.
Qed.

(** Checking a first occurrence by evaluation. *)
Lemma occurs_first_by_eval s pre rest x :
  strip_prefix pre s = Some rest ->
  at_pos rest = Some x ->
  forallb (fun n => match at_pos (skipn n s) with None => true | Some _ => false end)
          (seq 0 (length pre)) = true ->
  occurs_first P s pre x.
Proof.
  intros Hs Hx Hall. exists rest. split; [now apply strip_prefix_Some|].
  split; [now apply at_pos_spec|].
  intros n y Hn Hy. apply at_pos_spec in Hy.
  rewrite forallb_forall in Hall. specialize (Hall n).
  rewrite Hy in Hall. discriminate Hall. apply in_seq. lia.
Qed.

End Occurrence.


(** ** The Google Drive URL transformer *)

Section DriveUrl.
Import Extract.

Lemma not_char_all (x : char16) (id : jsstring) :
  forallb (not_char x) id = true <-> Forall (fun c => c <> x) id.
Proof.
  rewrite forallb_forall, Forall_forall. unfold not_char.
  split; intros H c Hc; specialize (H c Hc).
  - apply negb_true_iff in H. now apply N.eqb_neq.
  - apply negb_true_iff. now apply N.eqb_neq.
Qed.

Lemma run_until_spec (x : char16) (s id : jsstring) :
  run_until x s = Some id <->
  exists post, s = id ++ post /\ id <> [] /\ Forall (fun c => c <> x) id /\
               (post = [] \/ exists t, post = x :: t).
Proof.
  unfold run_until. split.
  - pose proof (span_app (not_char x) s) as Happ.
    pose proof (span_fst_all (not_char x) s) as Hall.
    pose proof (span_snd_stop (not_char x) s) as Hstop.
    destruct (span (not_char x) s) as [a b]; simpl in *.
    destruct a as [|c a]; [discriminate|]. intros H; inversion H; subst id.
    exists b. repeat split; [exact Happ|discriminate|now apply not_char_all|].
    destruct b as [|d b]; [now left|right].
    unfold not_char in Hstop. apply negb_false_iff, N.eqb_eq in Hstop.
    subst d. now exists b.
  - intros (post & -> & Hne & Hall & Hpost).
    rewrite span_unique.
    + simpl. destruct id; [contradiction|reflexivity].
    + now apply not_char_all.
    + destruct Hpost as [->|[t ->]]; [exact I|].
      unfold not_char. now rewrite N.eqb_refl.
Qed.

Lemma at_file_d_spec (s id : jsstring) :
  at_file_d s = Some id <-> path_segment s id.
Proof.
  unfold at_file_d, path_segment. split.
  - destruct (strip_prefix FILE_D s) as [t|] eqn:E; [|discriminate].
    apply strip_prefix_Some in E. intros H.
    apply run_until_spec in H as (post & -> & H). exists post. now split.
  - intros (post & -> & H). rewrite strip_prefix_app.
    apply run_until_spec. now exists post.
Qed.

Lemma at_query_id_spec (s id : jsstring) :
  at_query_id s = Some id <-> id_parameter s id.
Proof.
  unfold at_query_id, id_parameter. split.
  - destruct s as [|c s]; [discriminate|].
    destruct ((c =? QUESTION) || (c =? AMP))%N eqn:Ec; [|discriminate].
    destruct (strip_prefix ID_EQ s) as [t|] eqn:E; [|discriminate].
    apply strip_prefix_Some in E. intros H.
    apply run_until_spec in H as (post & -> & H). exists c, post.
    split; [now rewrite E|]. split; [|exact H].
    apply orb_true_iff in Ec as [Ec|Ec]; apply N.eqb_eq in Ec; auto.
  - intros (sep & post & -> & Hsep & H).
    assert (((sep =? QUESTION) || (sep =? AMP))%N = true) as ->.
    { destruct Hsep as [->| ->]; reflexivity. }
    rewrite strip_prefix_app. apply run_until_spec. now exists post.
Qed.

End DriveUrl.

(** C1: a URL whose first [/file/d/<id>] path segment captures [<id>] is
    turned into the direct download URL of [<id>]; a URL with no such segment
    whose first [id=] query parameter has the value [<id>] likewise.  The
    path pattern is consulted first. *)
Theorem getGoogleDriveDownloadUrl_extracts (viewUrl pre id : jsstring) :
  occurs_first Extract.path_segment viewUrl pre id \/
  (absent Extract.path_segment viewUrl /\
   occurs_first Extract.id_parameter viewUrl pre id) ->
  Extract.getGoogleDriveDownloadUrl viewUrl =
  lit "https://drive.google.com/uc?export=download&id=" ++ id.
Proof.
  unfold Extract.getGoogleDriveDownloadUrl.
  intros [Hpath|[Hnone Hquery]].
  - now rewrite (search_occurs_first _ _ _ at_file_d_spec _ _ _ Hpath).
  - apply (search_absent _ _ _ at_file_d_spec) in Hnone. rewrite Hnone.
    now rewrite (search_occurs_first _ _ _ at_query_id_spec _ _ _ Hquery).
Qed.

(** C9: a URL with neither a [/file/d/<id>] segment nor an [id=] query
    parameter is returned as it is. *)
Theorem getGoogleDriveDownloadUrl_other (viewUrl : jsstring) :
  absent Extract.path_segment viewUrl ->
  absent Extract.id_parameter viewUrl ->
  Extract.getGoogleDriveDownloadUrl viewUrl = viewUrl.
Proof.
  intros Hp Hq. unfold Extract.getGoogleDriveDownloadUrl.
  apply (search_absent _ _ _ at_file_d_spec) in Hp.
  apply (search_absent _ _ _ at_query_id_spec) in Hq.
  now rewrite Hp, Hq.
Qed.

Lemma getGoogleDriveDownloadUrl_extracts_witness :
  Extract.getGoogleDriveDownloadUrl
    (lit "https://drive.google.com/file/d/1AbC_x/view?usp=sharing&id=zz") =
    lit "https://drive.google.com/uc?export=download&id=" ++ lit "1AbC_x"
  /\
  Extract.getGoogleDriveDownloadUrl
    (lit "https://drive.google.com/open?usp=x&id=1AbC_x&hl=ja") =
    lit "https://drive.google.com/uc?export=download&id=" ++ lit "1AbC_x".
Proof.
  split.
  - apply (getGoogleDriveDownloadUrl_extracts _ (lit "https://drive.google.com")).
    left.
    apply (occurs_first_by_eval _ _ _ at_file_d_spec) with
      (rest := lit "/file/d/1AbC_x/view?usp=sharing&id=zz");
      vm_compute; reflexivity.
  - apply (getGoogleDriveDownloadUrl_extracts _ (lit "https://drive.google.com/open?usp=x")).
    right. split.
    + apply (search_absent _ _ _ at_file_d_spec). vm_compute. reflexivity.
    + apply (occurs_first_by_eval _ _ _ at_query_id_spec) with
        (rest := lit "&id=1AbC_x&hl=ja");
        vm_compute; reflexivity.
Defined.

Lemma getGoogleDriveDownloadUrl_other_witness :
  Extract.getGoogleDriveDownloadUrl (lit "https://foodhub.co.jp/wp-content/uploads/kamaya.pdf?fileid=3") =
  lit "https://foodhub.co.jp/wp-content/uploads/kamaya.pdf?fileid=3".
Proof.
  apply getGoogleDriveDownloadUrl_other.
  - apply (search_absent _ _ _ at_file_d_spec). vm_compute. reflexivity.
  - apply (search_absent _ _ _ at_query_id_spec). vm_compute. reflexivity.
Defined.

(** ** Filename sanitization *)

Section Sanitize.
Import Extract.

Lemma is_disallowed_In (c : char16) :
  is_disallowed c = true <-> In c DISALLOWED.
Proof.
  unfold is_disallowed. rewrite existsb_exists. split.
  - intros (x & Hx & E). apply N.eqb_eq in E. now subst.
  - intros H. exists c. split; [exact H|apply N.eqb_refl].
Qed.

(** Every character of the result is an underscore or a character of the
    input that is not white space. *)
Lemma replace_spaces_chars (b : bool) (s : jsstring) (c : char16) :
  In c (replace_spaces b s) ->
  c = UNDERSCORE \/ (In c s /\ is_space c = false).
Proof.
  revert b; induction s as [|x s IH]; simpl; intros b H; [contradiction|].
  destruct (is_space x) eqn:Ex.
  - destruct b.
    + destruct (IH _ H) as [?|[? ?]]; auto.
    + destruct H as [<-|H]; [now left|].
      destruct (IH _ H) as [?|[? ?]]; auto.
  - destruct H as [<-|H]; [right; auto|].
    destruct (IH _ H) as [?|[? ?]]; auto.
Qed.

Lemma replace_spaces_id (b : bool) (s : jsstring) :
  Forall (fun c => is_space c = false) s -> replace_spaces b s = s.
Proof.
  intros H; revert b; induction H as [|x s Hx _ IH]; intros b; simpl;
    [reflexivity|].
  now rewrite Hx, IH.
Qed.

Lemma filter_id (A : Type) (f : A -> bool) (l : list A) :
  Forall (fun c => f c = true) l -> filter f l = l.
Proof.
  induction 1 as [|x l Hx _ IH]; simpl; [reflexivity|]. now rewrite Hx, IH.
Qed.

Lemma In_firstn (A : Type) (n : nat) (l : list A) (x : A) :
  In x (firstn n l) -> In x l.
Proof.
  intros H. rewrite <- (firstn_skipn n l). apply in_or_app. now left.
Qed.

Lemma sanitizeFilename_chars (title : jsstring) (c : char16) :
  In c (sanitizeFilename title) ->
  is_disallowed c = false /\ is_space c = false.
Proof.
  unfold sanitizeFilename, substring0. intros H.
  apply In_firstn in H.
  apply replace_spaces_chars in H as [->|[H Hs]]; [now vm_compute|].
  apply filter_In in H as [_ H]. apply negb_true_iff in H. now split.
Qed.

End Sanitize.

(** C2: sanitization is idempotent, and its result holds no disallowed
    character, no white space, and at most 100 code units. *)
Theorem sanitizeFilename_idempotent (title : jsstring) :
  Extract.sanitizeFilename (Extract.sanitizeFilename title) =
    Extract.sanitizeFilename title /\
  (forall c, In c Extract.DISALLOWED -> ~ In c (Extract.sanitizeFilename title)) /\
  (forall c, is_space c = true -> ~ In c (Extract.sanitizeFilename title)) /\
  length (Extract.sanitizeFilename title) <= 100.
Proof.
  assert (Hlen : length (Extract.sanitizeFilename title) <= 100).
  { unfold Extract.sanitizeFilename, substring0. rewrite length_firstn. lia. }
  repeat split.
  - unfold Extract.sanitizeFilename at 1.
    rewrite filter_id, replace_spaces_id.
    + unfold substring0. now apply firstn_all2.
    + apply Forall_forall. intros c Hc. now apply sanitizeFilename_chars in Hc.
    + apply Forall_forall. intros c Hc.
      apply sanitizeFilename_chars in Hc as [-> _]. reflexivity.
  - intros c Hd Hc. apply is_disallowed_In in Hd.
    apply sanitizeFilename_chars in Hc as [Hc _]. congruence.
  - intros c Hs Hc. apply sanitizeFilename_chars in Hc as [_ Hc]. congruence.
  - exact Hlen.
Qed.

(** ** The extract handler *)

Section ExtractHandler.
Import Extract.

Variable net : list jsstring -> jsstring -> result Response.
Variable mkdir_fault : option jsstring.
Variable write_fault : jsstring -> option (jsstring * option nat).
Variable base64 : list Byte.byte -> jsstring.
Variable DOWNLOAD_DIR : jsstring.

Lemma list_eqb_refl (a : jsstring) : list_eqb a a = true.
Proof. induction a as [|x a IH]; simpl; [reflexivity|]. now rewrite N.eqb_refl. Qed.

Lemma cache_lookup_miss (t f : jsstring) (w : World) :
  (forall bytes, disk w f <> Some (File bytes)) ->
  cache_lookup base64 DOWNLOAD_DIR t f w = (Ok None, w).
Proof.
  intros H. unfold cache_lookup, bind, fileExists, try_catch, readFile, ret.
  destruct (disk w f) as [[bytes|e]|] eqn:E; cbn; rewrite ?E; try reflexivity.
  exfalso. now apply (H bytes).
Qed.

Lemma cache_lookup_hit (t f : jsstring) (w : World) (bytes : list Byte.byte) :
  disk w f = Some (File bytes) ->
  cache_lookup base64 DOWNLOAD_DIR t f w =
  (Ok (Some (Success t (base64 bytes) (length bytes)
                     (filepath DOWNLOAD_DIR f) f true)), w).
Proof.
  intros H. unfold cache_lookup, bind, fileExists, try_catch, readFile, ret.
  rewrite H. cbn. now rewrite H.
Qed.

(** A request whose file is in the directory is answered from it, whatever
    the title that was used when the file was written. *)
Lemma POST_cache_hit (b : Body) (url : jsstring) (w : World) (bytes : list Byte.byte) :
  pdfUrl b = Some url -> url <> [] ->
  disk w (cache_name b) = Some (File bytes) ->
  POST net mkdir_fault write_fault base64 DOWNLOAD_DIR (Ok b) w =
  (Success (title b) (base64 bytes) (length bytes)
           (filepath DOWNLOAD_DIR (cache_name b)) (cache_name b) true, w).
Proof.
  intros Hu Hne Hd. unfold POST, POST_body, lift.
  unfold bind at 1. rewrite Hu. destruct url as [|c url]; [contradiction|].
  unfold bind at 1. fold (cache_name b).
  now rewrite (cache_lookup_hit _ _ _ _ Hd).
Qed.

End ExtractHandler.



(** C10: sanitization is not injective.  Two titles that differ in a
    disallowed character, in the kind of white space, or after the 100th
    code unit have the same file name; and after the PDF of the first title
    of such a pair was downloaded and saved, the request for the second one
    is answered from the cache with the bytes saved for the first, without
    any fetch. *)
Theorem sanitizeFilename_not_injective :
  (let t1 := lit "かま屋通信: 1月号" in
   let t2 := lit "かま屋通信 1月号" in
   let t3 := lit "かま屋通信　1月号" in
   t1 <> t2 /\ t2 <> t3 /\
   Extract.sanitizeFilename t1 = Extract.sanitizeFilename t2 /\
   Extract.sanitizeFilename t2 = Extract.sanitizeFilename t3) /\
  (let t1 := repeat (ch "a") 100 ++ lit "-1" in
   let t2 := repeat (ch "a") 100 ++ lit "-2" in
   t1 <> t2 /\ Extract.sanitizeFilename t1 = Extract.sanitizeFilename t2) /\
  (forall (base64 : list Byte.byte -> jsstring) (DOWNLOAD_DIR : jsstring)
          (bytes : list Byte.byte),
   let t1 := lit "かま屋通信: 1月号" in
   let t2 := lit "かま屋通信 1月号" in
   let handler := Extract.POST (Extract.pdf_host bytes) None (fun _ => None)
                               base64 DOWNLOAD_DIR in
   let name := lit "かま屋通信_1月号.pdf" in
   let first := handler (Extract.Ok (Extract.direct_request "https://foodhub.co.jp/a.pdf" t1))
                        Extract.empty_world in
   let second := handler (Extract.Ok (Extract.direct_request "https://foodhub.co.jp/b.pdf" t2))
                         (snd first) in
   fst first = Extract.Success t1 (base64 bytes) (length bytes)
                 (Extract.filepath DOWNLOAD_DIR name) name false /\
   fst second = Extract.Success t2 (base64 bytes) (length bytes)
                 (Extract.filepath DOWNLOAD_DIR name) name true /\
   Extract.fetched (snd second) = [lit "https://foodhub.co.jp/a.pdf"]).
Proof.
  split; [|split].
  - vm_compute. repeat split; try reflexivity; discriminate.
  - vm_compute. repeat split; try reflexivity; discriminate.
  - intros base64 DOWNLOAD_DIR bytes. cbv zeta.
    split; [|split]; vm_compute; reflexivity.
Qed.

(** ** The analyze handler *)

Section AnalyzeFacts.
Import Analyze.

Lemma upto_last_None (x : char16) (s : jsstring) :
  ~ In x s -> upto_last x s = None.
Proof.
  induction s as [|c s IH]; simpl; intros H; [reflexivity|].
  rewrite IH by tauto.
  destruct (N.eqb_spec c x) as [->|]; [|reflexivity]. tauto.
Qed.

Lemma upto_last_In (x : char16) (s : jsstring) :
  In x s -> upto_last x s <> None.
Proof.
  induction s as [|c s IH]; simpl; intros H; [contradiction|].
  destruct (upto_last x s); [discriminate|].
  destruct H as [->|H]; [|now apply IH in H].
  rewrite N.eqb_refl. discriminate.
Qed.

Lemma upto_last_app (x : char16) (body post : jsstring) :
  ~ In x post -> upto_last x (body ++ x :: post) = Some (body ++ [x]).
Proof.
  intros H. induction body as [|c body IH]; simpl.
  - now rewrite (upto_last_None _ _ H), N.eqb_refl.
  - now rewrite IH.
Qed.

(** The match starts at the first opening brace and ends at the last
    closing brace. *)
Lemma jsonMatch_found (pre body post : jsstring) :
  ~ In LBRACE pre -> ~ In RBRACE post ->
  jsonMatch (pre ++ LBRACE :: body ++ RBRACE :: post) =
  Some (LBRACE :: body ++ [RBRACE]).
Proof.
  intros Hpre Hpost. unfold jsonMatch.
  induction pre as [|c pre IH].
  - cbn [app search at_braces]. rewrite N.eqb_refl.
    now rewrite (upto_last_app _ _ _ Hpost).
  - cbn [app search at_braces].
    destruct (N.eqb_spec c LBRACE) as [->|_].
    + exfalso. apply Hpre. now left.
    + apply IH. intros H. apply Hpre. now right.
Qed.

Lemma jsonMatch_None (text : jsstring) :
  jsonMatch text = None <-> ~ has_braces text.
Proof.
  unfold jsonMatch, has_braces. split.
  - intros H (pre & body & post & ->).
    rewrite search_None in H. specialize (H (length pre)).
    rewrite skipn_app, skipn_all, Nat.sub_diag in H. simpl in H.
    destruct (upto_last RBRACE (body ++ RBRACE :: post)) eqn:E; [discriminate|].
    revert E. apply upto_last_In. apply in_or_app. right. now left.
  - intros H. destruct (search at_braces text) as [m|] eqn:E; [|reflexivity].
    exfalso. apply H. apply search_found in E as (n & _ & E & _).
    unfold at_braces in E.
    destruct (skipn n text) as [|c t] eqn:Es; [discriminate|].
    destruct (N.eqb_spec c LBRACE) as [->|]; [|discriminate].
    destruct (upto_last RBRACE t) as [m'|] eqn:Em; [|discriminate].
    assert (Hin : In RBRACE t).
    { destruct (in_dec N.eq_dec RBRACE t) as [Hi|Hi]; [exact Hi|].
      apply upto_last_None in Hi. congruence. }
    apply in_split in Hin as (body & post & ->).
    exists (firstn n text), body, post.
    now rewrite <- Es, firstn_skipn.
Qed.

Lemma parsed_reply_not_extract_failed (t : jsstring) (parsed : Extract.result Json.json) :
  parsed_reply t parsed <> EXTRACT_FAILED.
Proof.
  unfold parsed_reply, field, EXTRACT_FAILED.
  destruct parsed as [v|e]; [|discriminate].
  repeat match goal with
         | |- context [Json.get v ?k] => destruct (Json.get v k)
         end; discriminate.
Qed.

End AnalyzeFacts.

(** C5: for a reply text of the model, the handler answers that the JSON
    could not be extracted exactly when the text holds no opening brace
    followed by a closing brace; otherwise the text handed to [JSON.parse]
    runs from the first opening brace to the last closing brace, and the
    answer is the one built from its parse. *)
Theorem analyze_extracts_braces
    (generateContent : jsstring -> jsstring -> Extract.result jsstring)
    (JSON_parse : jsstring -> Extract.result Json.json)
    (b : Analyze.Body) (p : Analyze.Pdf) (responseText : jsstring) :
  Analyze.answered generateContent b p responseText ->
  (Analyze.POST generateContent JSON_parse (Extract.Ok b) = Analyze.EXTRACT_FAILED
   <-> ~ Analyze.has_braces responseText) /\
  (forall pre body post,
     responseText = pre ++ Analyze.LBRACE :: body ++ Analyze.RBRACE :: post ->
     ~ In Analyze.LBRACE pre -> ~ In Analyze.RBRACE post ->
     Analyze.jsonMatch responseText = Some (Analyze.LBRACE :: body ++ [Analyze.RBRACE]) /\
     Analyze.POST generateContent JSON_parse (Extract.Ok b) =
     Analyze.parsed_reply (Analyze.title p)
       (JSON_parse (Analyze.LBRACE :: body ++ [Analyze.RBRACE]))).
Proof.
  intros (Hp & Hb & Hk & Hg).
  assert (HPOST : Analyze.POST generateContent JSON_parse (Extract.Ok b) =
                  Analyze.respond JSON_parse (Analyze.title p) responseText).
  { unfold Analyze.POST. rewrite Hp.
    destruct (Analyze.pdfBase64 p); [contradiction|].
    destruct (Analyze.apiKey b) eqn:Ek; [contradiction|].
    now rewrite Hg. }
  rewrite HPOST. unfold Analyze.respond. split.
  - rewrite <- jsonMatch_None.
    destruct (Analyze.jsonMatch responseText) as [m|]; split; intros H;
      try reflexivity; try discriminate.
    now apply parsed_reply_not_extract_failed in H.
  - intros pre body post -> Hpre Hpost.
    now rewrite (jsonMatch_found _ _ _ Hpre Hpost).
Qed.

Lemma analyze_extracts_braces_witness :
  Analyze.POST (Analyze.sample_model (lit "結果: {} 以上")) Analyze.sample_parse
               (Extract.Ok Analyze.sample_body) =
  Analyze.Analysed (lit "かま屋通信 1月号")
    {| Analyze.ingredients := Json.JArray []; Analyze.dishes := Json.JArray [];
       Analyze.cookingMethods := Json.JArray []; Analyze.seasons := Json.JArray [] |}.
Proof.
  destruct (analyze_extracts_braces
              (Analyze.sample_model (lit "結果: {} 以上")) Analyze.sample_parse
              Analyze.sample_body
              {| Analyze.title := lit "かま屋通信 1月号"; Analyze.pdfBase64 := lit "JVBERi0=" |}
              (lit "結果: {} 以上")) as [_ H].
  - repeat split; vm_compute; discriminate.
  - destruct (H (lit "結果: ") [] (lit " 以上")) as [_ ->].
    + vm_compute. reflexivity.
    + vm_compute. intuition discriminate.
    + vm_compute. intuition discriminate.
    + vm_compute. reflexivity.
Defined.

(** ** The date of an article *)

Section ScrapeFacts.
Import Scrape.

Lemma expect_Some (A : Type) (c : char16) (k : jsstring -> option A)
    (s : jsstring) (r : A) :
  expect c k s = Some r <-> exists t, s = c :: t /\ k t = Some r.
Proof.
  unfold expect. split.
  - destruct s as [|x t]; [discriminate|].
    destruct (N.eqb_spec x c) as [->|]; [|discriminate].
    intros H. now exists t.
  - intros (t & -> & H). now rewrite N.eqb_refl.
Qed.

Lemma digits_4_Some (A : Type) (k : jsstring -> jsstring -> option A)
    (s : jsstring) (r : A) :
  digits_4 k s = Some r <->
  exists y t, s = y ++ t /\ length y = 4 /\ all_digits y /\ k y t = Some r.
Proof.
  unfold digits_4, all_digits. split.
  - destruct s as [|a [|b [|c [|d t]]]]; try discriminate.
    destruct (is_digit a) eqn:Ea, (is_digit b) eqn:Eb,
             (is_digit c) eqn:Ec, (is_digit d) eqn:Ed; try discriminate.
    intros H. exists [a; b; c; d], t. repeat split; auto.
  - intros (y & t & -> & Hl & Hd & H).
    destruct y as [|a [|b [|c [|d [|]]]]]; try discriminate. simpl.
    inversion Hd as [|? ? Ha Hd1]; subst. inversion Hd1 as [|? ? Hb Hd2]; subst.
    inversion Hd2 as [|? ? Hc Hd3]; subst. inversion Hd3 as [|? ? Hd' _]; subst.
    now rewrite Ha, Hb, Hc, Hd'.
Qed.

(** One or two digits followed by a character that is not a digit: the
    alternatives exclude each other, so the match is the declarative one. *)
Lemma digits_1_2_Some (A : Type) (c : char16) (k : jsstring -> jsstring -> option A)
    (s : jsstring) (r : A) :
  is_digit c = false ->
  digits_1_2 (fun m => expect c (k m)) s = Some r <->
  exists m t, s = m ++ c :: t /\ one_or_two m /\ all_digits m /\ k m t = Some r.
Proof.
  intros Hc. unfold digits_1_2, one_or_two, all_digits. split.
  - destruct s as [|a t]; [discriminate|].
    destruct (is_digit a) eqn:Ea; [|discriminate].
    assert (H1 : expect c (k [a]) t = Some r ->
                 exists m t0, a :: t = m ++ c :: t0 /\
                   (length m = 1 \/ length m = 2) /\
                   Forall (fun x => is_digit x = true) m /\ k m t0 = Some r).
    { intros H. apply expect_Some in H as (t0 & -> & H).
      exists [a], t0. repeat split; auto. }
    destruct t as [|b t']; [exact H1|].
    destruct (is_digit b) eqn:Eb; [|exact H1].
    destruct (expect c (k [a; b]) t') eqn:E2; [|exact H1].
    intros H; inversion H; subst. apply expect_Some in E2 as (t0 & -> & E2).
    exists [a; b], t0. repeat split; auto.
  - intros (m & t & -> & Hl & Hd & H).
    destruct m as [|a [|b [|]]]; simpl in Hl; try lia.
    + inversion Hd as [|? ? Ha _]; subst. cbn [app]. rewrite Ha, Hc.
      apply expect_Some. now exists t.
    + inversion Hd as [|? ? Ha Hd1]; subst. inversion Hd1 as [|? ? Hb _]; subst.
      cbn [app]. rewrite Ha, Hb.
      assert (E : expect c (k [a; b]) (c :: t) = Some r)
        by (apply expect_Some; now exists t).
      now rewrite E.
Qed.

Lemma at_date_spec (s : jsstring) (ymd : jsstring * jsstring * jsstring) :
  at_date s = Some ymd <-> explicit_date s ymd.
Proof.
  unfold at_date, explicit_date. destruct ymd as [[y m] d].
  rewrite digits_4_Some. split.
  - intros (y' & t & -> & Hl & Hy & H).
    apply expect_Some in H as (t1 & -> & H).
    apply digits_1_2_Some in H as (m' & t2 & -> & Hm1 & Hm2 & H); [|reflexivity].
    apply digits_1_2_Some in H as (d' & t3 & -> & Hd1 & Hd2 & H); [|reflexivity].
    inversion H; subst. exists t3. repeat split; auto.
  - intros (rest & -> & Hl & Hy & Hm1 & Hm2 & Hd1 & Hd2).
    exists y, (NEN :: m ++ GATSU :: d ++ NICHI :: rest). repeat split; auto.
    apply expect_Some. eexists; split; [reflexivity|].
    apply digits_1_2_Some; [reflexivity|].
    exists m, (d ++ NICHI :: rest). repeat split; auto.
    apply digits_1_2_Some; [reflexivity|].
    exists d, rest. repeat split; auto.
Qed.

Lemma at_issue_spec (s : jsstring) (ym : jsstring * jsstring) :
  at_issue s = Some ym <-> issue_label s ym.
Proof.
  unfold at_issue, issue_label. destruct ym as [y m].
  rewrite digits_4_Some. split.
  - intros (y' & t & -> & Hl & Hy & H).
    apply expect_Some in H as (t1 & -> & H).
    apply digits_1_2_Some in H as (m' & t2 & -> & Hm1 & Hm2 & H); [|reflexivity].
    apply expect_Some in H as (t3 & -> & H).
    inversion H; subst. exists t3. repeat split; auto.
  - intros (rest & -> & Hl & Hy & Hm1 & Hm2).
    exists y, (NEN :: m ++ GATSU :: GOU :: rest). repeat split; auto.
    apply expect_Some. eexists; split; [reflexivity|].
    apply digits_1_2_Some; [reflexivity|].
    exists m, (GOU :: rest). repeat split; auto.
Qed.

Lemma format_date_nonempty (s : jsstring) (ymd : jsstring * jsstring * jsstring) :
  explicit_date s ymd -> format_date ymd <> [].
Proof.
  destruct ymd as [[y m] d]. intros (rest & _ & Hl & _).
  destruct y; [discriminate|]. discriminate.
Qed.


End ScrapeFacts.



(** ** The aggregation of the analyses *)

Section PageFacts.
Import Json Page.

Lemma list_eqb_eq (a b : jsstring) : Extract.list_eqb a b = true <-> a = b.
Proof.
  revert b; induction a as [|x a IH]; destruct b as [|y b]; simpl;
    try (split; [discriminate|discriminate]); [tauto|].
  rewrite andb_true_iff, N.eqb_eq, IH. split.
  - intros [-> ->]. reflexivity.
  - intros H. inversion H. auto.
Qed.

Lemma list_eqb_neq (a b : jsstring) : Extract.list_eqb a b = false <-> a <> b.
Proof.
  rewrite <- list_eqb_eq. destruct (Extract.list_eqb a b); split; congruence.
Qed.

(** *** [trim] *)

Lemma trimStart_head (s : jsstring) (c : char16) (t : jsstring) :
  trimStart s = c :: t -> is_space c = false.
Proof.
  induction s as [|x s IH]; simpl; [discriminate|].
  destruct (is_space x) eqn:E; [exact IH|].
  intros H; inversion H; subst. exact E.
Qed.

Lemma trimStart_suffix (s : jsstring) : exists p, s = p ++ trimStart s.
Proof.
  induction s as [|x s [p IH]]; simpl; [now exists []|].
  destruct (is_space x).
  - exists (x :: p). simpl. now rewrite <- IH.
  - now exists [].
Qed.

Lemma last_rev_cons (A : Type) (l : list A) (x d : A) : last (rev (x :: l)) d = x.
Proof. simpl. apply last_last. Qed.

Lemma trim_trimmed (s : jsstring) : trim s <> [] -> trimmed (trim s).
Proof.
  unfold trim, trimEnd. set (u := trimStart s).
  destruct (trimStart (rev u)) as [|c v] eqn:Ev; [simpl; congruence|].
  intros _. pose proof (trimStart_head _ _ _ Ev) as Hc.
  destruct (trimStart_suffix (rev u)) as [p Hp]. rewrite Ev in Hp.
  assert (Hu : u = rev (c :: v) ++ rev p).
  { rewrite <- (rev_involutive u), Hp, rev_app_distr. reflexivity. }
  unfold trimmed. destruct (rev (c :: v)) as [|h r] eqn:Er.
  - apply (f_equal (@length _)) in Er. rewrite length_rev in Er. discriminate.
  - split.
    + subst u. simpl in Hu. now apply (trimStart_head s _ _ Hu).
    + rewrite <- Er. now rewrite last_rev_cons.
Qed.

(** *** The map *)


Lemma map_get_None (k : jsstring) (m : Map) :
  map_get k m = None <-> ~ In k (map fst m).
Proof.
  induction m as [|[k' v] m IH]; simpl; [tauto|].
  destruct (Extract.list_eqb k' k) eqn:E.
  - apply list_eqb_eq in E. split; [discriminate|]. tauto.
  - apply list_eqb_neq in E. rewrite IH. tauto.
Qed.

Lemma map_set_keys (k : jsstring) (v : N) (m : Map) :
  map fst (map_set k v m) =
  if in_dec (list_eq_dec N.eq_dec) k (map fst m) then map fst m
  else map fst m ++ [k].
Proof.
  induction m as [|[k' v'] m IH]; simpl; [reflexivity|].
  destruct (Extract.list_eqb k' k) eqn:E.
  - apply list_eqb_eq in E. subst k'.
    destruct (list_eq_dec N.eq_dec k k); [|congruence].
    reflexivity.
  - apply list_eqb_neq in E. simpl. rewrite IH.
    destruct (list_eq_dec N.eq_dec k' k); [congruence|].
    now destruct (in_dec (list_eq_dec N.eq_dec) k (map fst m)).
Qed.

Lemma map_set_In (k : jsstring) (v : N) (m : Map) (k' : jsstring) (c : N) :
  In (k', c) (map_set k v m) -> (k' = k /\ c = v) \/ In (k', c) m.
Proof.
  induction m as [|[k0 v0] m IH]; simpl.
  - intros [H|[]]. inversion H. auto.
  - destruct (Extract.list_eqb k0 k) eqn:E.
    + apply list_eqb_eq in E. subst k0. intros [H|H]; [inversion H|]; auto.
    + intros [H|H]; [auto|]. destruct (IH H); auto.
Qed.


Lemma increment_good (key : jsstring) (m : Map) :
  trimmed key -> good_map m -> good_map (increment key m).
Proof.
  intros Hk [Hnd Hall]. unfold increment. split.
  - rewrite map_set_keys.
    destruct (in_dec (list_eq_dec N.eq_dec) key (map fst m)) as [Hi|Hi]; [exact Hnd|].
    apply NoDup_app; [exact Hnd|repeat constructor; auto|].
    intros x Hx [<-|[]]. contradiction.
  - intros k c H. apply map_set_In in H as [[-> ->]|H]; [|now apply Hall].
    split; [exact Hk|]. lia.
Qed.

Lemma count_items_good (items : list json) (m : Map) :
  good_map m -> good_map (fst (count_items items m)).
Proof.
  revert m; induction items as [|item items IH]; intros m Hm; simpl; [exact Hm|].
  destruct item; try exact Hm.
  destruct (trim s) as [|c t] eqn:Et; [now apply IH|].
  apply IH. apply increment_good; [|exact Hm].
  rewrite <- Et. apply trim_trimmed. congruence.
Qed.

Lemma count_field_good (d : json) (k : jsstring) (m : Map) :
  good_map m -> good_map (fst (count_field d k m)).
Proof.
  intros Hm. unfold count_field. destruct (get d k) as [v|e]; [|exact Hm].
  destruct (iterate (or_empty v)); [|exact Hm]. now apply count_items_good.
Qed.


Lemma count_data_good (d : json) (ms : Maps) :
  good_maps ms -> good_maps (fst (count_data d ms)).
Proof.
  intros (H1 & H2 & H3 & H4). unfold count_data, good_maps.
  pose proof (count_field_good d (js "ingredients") _ H1) as G1.
  destruct (count_field d (js "ingredients") (ingredientsMap ms)) as [m1 [e1|]];
    cbn [fst] in G1; [cbn; refine (conj _ (conj _ (conj _ _))); assumption|].
  pose proof (count_field_good d (js "dishes") _ H2) as G2.
  destruct (count_field d (js "dishes") (dishesMap ms)) as [m2 [e2|]];
    cbn [fst] in G2; [cbn; refine (conj _ (conj _ (conj _ _))); assumption|].
  pose proof (count_field_good d (js "cookingMethods") _ H3) as G3.
  destruct (count_field d (js "cookingMethods") (cookingMethodsMap ms)) as [m3 [e3|]];
    cbn [fst] in G3; [cbn; refine (conj _ (conj _ (conj _ _))); assumption|].
  pose proof (count_field_good d (js "seasons") _ H4) as G4.
  destruct (count_field d (js "seasons") (seasonsMap ms)) as [m4 e4];
    cbn [fst] in G4. cbn. refine (conj _ (conj _ (conj _ _))); assumption.
Qed.

(** *** The sort *)


Lemma insert_desc_perm (x : jsstring * N) (l : list (jsstring * N)) :
  Permutation (insert_desc x l) (x :: l).
Proof.
  induction l as [|y l IH]; simpl; [reflexivity|].
  destruct (snd x <? snd y)%N; [|reflexivity].
  rewrite IH. apply perm_swap.
Qed.


Lemma sort_desc_perm (l : list (jsstring * N)) : Permutation (sort_desc l) l.
Proof.
  induction l as [|x l IH]; simpl; [reflexivity|].
  rewrite insert_desc_perm. now constructor.
Qed.


Lemma StronglySorted_map (A B : Type) (f : A -> B) (R : B -> B -> Prop) (l : list A) :
  StronglySorted (fun x y => R (f x) (f y)) l -> StronglySorted R (map f l).
Proof.
  induction 1 as [|x l Hs IH Hx]; simpl; constructor; [exact IH|].
  apply Forall_map. exact Hx.
Qed.



(** *** Counting occurrences *)



Lemma count_items_strings (terms : list jsstring) (m : Map) :
  count_items (map JString terms) m =
  (fold_left (fun m k => increment k m) (keys terms) m, None).
Proof.
  revert m; induction terms as [|s terms IH]; intros m; [reflexivity|].
  unfold keys in *. cbn [map count_items filter].
  destruct (trim s) as [|c t]; cbn [fold_left]; apply IH.
Qed.




(** *** One turn of the loop *)


Lemma frame_refl (s : State) : frame s s.
Proof. repeat split. Qed.

Lemma frame_trans (s1 s2 s3 : State) : frame s1 s2 -> frame s2 s3 -> frame s1 s3.
Proof. unfold frame. intuition congruence. Qed.

Lemma frame_addLog (m : jsstring) (s : State) : frame s (addLog m s).
Proof. repeat split. Qed.

Lemma frame_setProgress (c t : N) (s : State) : frame s (setProgress c t s).
Proof. repeat split. Qed.


Lemma inner_catch_inv (pdf : PdfData) (ms : Maps) (a : Acc) (e : exn) :
  maps (fst (inner_catch pdf ms a e)) = ms /\
  is_cancel_exn (snd (inner_catch pdf ms a e)) /\
  frame (ui a) (ui (fst (inner_catch pdf ms a e))).
Proof.
  unfold is_cancel_exn. destruct e; cbn; repeat split; auto.
Qed.

Lemma on_outcome_inv (pdf : PdfData) (i n : N) (o : FetchOutcome) (a : Acc) :
  good_maps (maps a) ->
  good_maps (maps (fst (on_outcome pdf i n o a))) /\
  is_cancel_exn (snd (on_outcome pdf i n o a)) /\
  frame (ui a) (ui (fst (on_outcome pdf i n o a))).
Proof.
  intros Hg.
  assert (Hcatch : forall ms e, good_maps ms ->
            good_maps (maps (fst (inner_catch pdf ms a e))) /\
            is_cancel_exn (snd (inner_catch pdf ms a e)) /\
            frame (ui a) (ui (fst (inner_catch pdf ms a e)))).
  { intros ms e Hms. destruct (inner_catch_inv pdf ms a e) as (-> & H2 & H3). auto. }
  assert (Hskip : good_maps (maps (note_skip pdf a)) /\
                  is_cancel_exn None /\ frame (ui a) (ui (note_skip pdf a))).
  { split; [exact Hg|]. split; [now left|]. repeat split. }
  destruct o as [e|data]; cbn [on_outcome]; [now apply Hcatch|].
  unfold on_reply.
  destruct (get data _) as [ok|e]; [|now apply Hcatch].
  destruct (truthy ok); [|exact Hskip].
  destruct (get data _) as [[d|]|e]; [| exact Hskip | now apply Hcatch].
  destruct (truthy (Some d)); [|exact Hskip].
  pose proof (count_data_good d _ Hg) as Hd.
  destruct (count_data d (maps a)) as [ms [e|]]; cbn [fst] in Hd.
  - now apply Hcatch.
  - split; [exact Hd|]. split; [now left|]. repeat split.
Qed.

Lemma loop_inv (env : nat -> Turn) (n : N) (pdfs : list PdfData) :
  forall (i : nat) (a : Acc),
  good_maps (maps a) ->
  good_maps (maps (fst (loop env n i pdfs a))) /\
  is_cancel_exn (snd (loop env n i pdfs a)) /\
  frame (ui a) (ui (fst (loop env n i pdfs a))).
Proof.
  induction pdfs as [|pdf rest IH]; intros i a Hg; cbn [loop].
  - split; [exact Hg|]. split; [now left|]. apply frame_refl.
  - destruct (aborted_at_check (env i)).
    + split; [exact Hg|]. split; [right; now left|]. apply frame_refl.
    + set (a1 := with_progress (N.of_nat i + 1) n a).
      assert (Hg1 : good_maps (maps a1)) by exact Hg.
      assert (Hf1 : frame (ui a) (ui a1)) by (repeat split).
      destruct (on_outcome_inv pdf (N.of_nat i) n (outcome (env i)) a1 Hg1)
        as (Hg2 & He & Hf2).
      destruct (on_outcome pdf (N.of_nat i) n (outcome (env i)) a1) as [a2 [e|]];
        cbn [fst snd] in *.
      * split; [exact Hg2|]. split; [exact He|].
        exact (frame_trans _ _ _ Hf1 Hf2).
      * destruct (aborted_in_wait (env i)).
        -- cbn [fst snd]. split; [exact Hg2|]. split; [right; now left|].
           exact (frame_trans _ _ _ Hf1 Hf2).
        -- destruct (IH (S i) a2 Hg2) as (H1 & H2 & H3).
           split; [exact H1|]. split; [exact H2|].
           exact (frame_trans _ _ _ (frame_trans _ _ _ Hf1 Hf2) H3).
Qed.

Lemma good_maps_empty : good_maps empty_maps.
Proof.
  assert (H : good_map []) by (split; [apply NoDup_nil|intros k c []]).
  exact (conj H (conj H (conj H H))).
Qed.

(** *** Replies whose terms are strings *)

Lemma all_strings_map (items : list json) (l : list jsstring) :
  all_strings items = Some l -> items = map JString l.
Proof.
  revert l; induction items as [|x items IH]; intros l; simpl.
  - intros H; inversion H. reflexivity.
  - destruct x; try discriminate.
    destruct (all_strings items) as [l'|]; [|discriminate].
    intros H; inversion H; subst. simpl. now rewrite (IH l').
Qed.

Lemma count_field_strings (d : json) (k : jsstring) (m : Map) (l : list jsstring) :
  truthy (Some d) = true ->
  strings_of (prop d k) = Some l ->
  count_field d k m = (fold_left (fun m k => increment k m) (keys l) m, None).
Proof.
  intros Hd. unfold strings_of, prop, count_field.
  destruct (get d k) as [v|e] eqn:Eg.
  - destruct (or_empty v) as [| | | s0 | items |] eqn:Ev; try discriminate.
    + intros H; inversion H; subst. cbn [iterate]. apply count_items_strings.
    + intros H. apply all_strings_map in H. subst items. cbn [iterate].
      apply count_items_strings.
  - destruct d; try discriminate.
Qed.

Lemma keys_app (a b : list jsstring) : keys (a ++ b) = keys a ++ keys b.
Proof. unfold keys. now rewrite map_app, filter_app. Qed.

Lemma counted_nil (ms : Maps) : counted [] ms = ms.
Proof. now destruct ms. Qed.

Lemma counted_app (d1 d2 : list Analysis) (ms : Maps) :
  counted (d1 ++ d2) ms = counted d2 (counted d1 ms).
Proof.
  unfold counted. cbn [ingredientsMap dishesMap cookingMethodsMap seasonsMap].
  now rewrite !flat_map_app, !keys_app, !fold_left_app.
Qed.

Lemma count_data_analysed (d : json) (ms : Maps) (i di c se : list jsstring) :
  truthy (Some d) = true ->
  strings_of (prop d (js "ingredients")) = Some i ->
  strings_of (prop d (js "dishes")) = Some di ->
  strings_of (prop d (js "cookingMethods")) = Some c ->
  strings_of (prop d (js "seasons")) = Some se ->
  count_data d ms =
  (counted [{| a_ingredients := i; a_dishes := di;
               a_cookingMethods := c; a_seasons := se |}] ms, None).
Proof.
  intros Hd H1 H2 H3 H4. unfold count_data.
  rewrite (count_field_strings _ _ _ _ Hd H1), (count_field_strings _ _ _ _ Hd H2),
          (count_field_strings _ _ _ _ Hd H3), (count_field_strings _ _ _ _ Hd H4).
  unfold counted. cbn [flat_map a_ingredients a_dishes a_cookingMethods a_seasons].
  now rewrite !app_nil_r.
Qed.

Lemma on_reply_readable (pdf : PdfData) (i n : N) (data : json) (a : Acc) :
  read_reply data <> Malformed ->
  exists a', on_reply pdf i n data a = (a', None) /\
    maps a' = counted (docs_of_reply data) (maps a) /\
    successCount a' = (successCount a + N.of_nat (length (docs_of_reply data)))%N /\
    (successCount a' + errorCount a' = successCount a + errorCount a + 1)%N /\
    frame (ui a) (ui a').
Proof.
  unfold docs_of_reply, read_reply, on_reply, prop.
  assert (Hskip : exists a', (note_skip pdf a, @None exn) = (a', None) /\
            maps a' = counted [] (maps a) /\
            successCount a' = (successCount a + N.of_nat (@length Analysis []))%N /\
            (successCount a' + errorCount a' = successCount a + errorCount a + 1)%N /\
            frame (ui a) (ui a')).
  { eexists; split; [reflexivity|]. rewrite counted_nil. cbn.
    split; [reflexivity|]. split; [lia|]. split; [lia|]. repeat split. }
  assert (Herr : forall e, exists a', inner_catch pdf (maps a) a (OtherError e) = (a', None) /\
            maps a' = counted [] (maps a) /\
            successCount a' = (successCount a + N.of_nat (@length Analysis []))%N /\
            (successCount a' + errorCount a' = successCount a + errorCount a + 1)%N /\
            frame (ui a) (ui a')).
  { intros e. eexists; split; [reflexivity|]. rewrite counted_nil. cbn.
    split; [reflexivity|]. split; [lia|]. split; [lia|]. repeat split. }
  destruct (get data (js "success")) as [ok|e]; [|intros _; apply Herr].
  destruct (truthy ok); [|intros _; exact Hskip].
  destruct (get data (js "data")) as [[d|]|e];
    [| cbn [andb truthy]; intros _; exact Hskip
     | cbn [andb truthy]; intros _; apply Herr].
  destruct (truthy (Some d)) eqn:Hd; cbn [andb]; [|intros _; exact Hskip].
  fold (prop d (js "ingredients")) (prop d (js "dishes"))
       (prop d (js "cookingMethods")) (prop d (js "seasons")).
  destruct (strings_of (prop d (js "ingredients"))) as [l1|] eqn:E1; [|congruence].
  destruct (strings_of (prop d (js "dishes"))) as [l2|] eqn:E2; [|congruence].
  destruct (strings_of (prop d (js "cookingMethods"))) as [l3|] eqn:E3; [|congruence].
  destruct (strings_of (prop d (js "seasons"))) as [l4|] eqn:E4; [|congruence].
  intros _. rewrite (count_data_analysed _ (maps a) _ _ _ _ Hd E1 E2 E3 E4).
  eexists; split; [reflexivity|]. cbn.
  split; [reflexivity|]. split; [lia|]. split; [lia|]. repeat split.
Qed.

(** A turn that meets no cancellation and whose reply can be read adds the
    document of the turn, if it was analysed, counts the turn as a success
    or as an error, and goes on. *)
Lemma turn_readable (pdf : PdfData) (i n : N) (t : Turn) (a : Acc) :
  is_cancel (outcome t) = false -> readable t ->
  exists a', on_outcome pdf i n (outcome t) a = (a', None) /\
    maps a' = counted (analysis_of t) (maps a) /\
    successCount a' = (successCount a + N.of_nat (length (analysis_of t)))%N /\
    (successCount a' + errorCount a' = successCount a + errorCount a + 1)%N /\
    frame (ui a) (ui a').
Proof.
  unfold readable, analysis_of. destruct (outcome t) as [e|data]; cbn [on_outcome].
  - destruct e; try discriminate. intros _ _.
    eexists; split; [reflexivity|]. rewrite counted_nil. cbn.
    split; [reflexivity|]. split; [lia|]. split; [lia|]. repeat split.
  - intros _. apply on_reply_readable.
Qed.

(** A turn in which the fetch is rejected by the cancellation leaves the
    loop with the maps as they were. *)
Lemma turn_aborted (pdf : PdfData) (i n : N) (t : Turn) (a : Acc) :
  is_cancel (outcome t) = true ->
  exists e, on_outcome pdf i n (outcome t) a = (a, Some e) /\
            (e = Canceled \/ e = AbortError).
Proof.
  destruct (outcome t) as [e|data]; [|discriminate].
  destruct a. destruct e; try discriminate; intros _; eexists; split;
    try reflexivity; auto.
Qed.

(** *** The loop up to a cancellation, and to its end *)

Lemma loop_cancelled (env : nat -> Turn) (n : N) (b : nat) :
  forall (j i : nat) (pdfs : list PdfData) (a : Acc),
  j < length pdfs ->
  (forall t, t < j -> calm (env (i + t))) ->
  (forall t, t < j + b -> readable (env (i + t))) ->
  observed (env (i + j)) b ->
  let docs := flat_map (fun t => analysis_of (env t)) (seq i (j + b)) in
  exists a' e, loop env n i pdfs a = (a', Some e) /\
    (e = Canceled \/ e = AbortError) /\
    maps a' = counted docs (maps a) /\
    successCount a' = (successCount a + N.of_nat (length docs))%N /\
    frame (ui a) (ui a').
Proof.
  induction j as [|j IH]; intros i pdfs a Hlen Hcalm Hread Hobs docs;
    destruct pdfs as [|pdf rest]; try (simpl in Hlen; lia); cbn [loop].
  - rewrite Nat.add_0_r in Hobs. subst docs. cbn [Nat.add].
    set (a1 := with_progress (N.of_nat i + 1) n a).
    revert Hread. destruct Hobs as [Hc|Hc Ho|Hc Ho Hw]; intros Hread; rewrite Hc.
    + exists a, Canceled. cbn [seq flat_map length]. rewrite counted_nil.
      split; [reflexivity|]. split; [now left|]. split; [reflexivity|].
      split; [cbn; lia|]. apply frame_refl.
    + destruct (turn_aborted pdf (N.of_nat i) n (env i) a1 Ho) as (e & -> & He).
      exists a1, e. cbn [seq flat_map length]. rewrite counted_nil.
      split; [reflexivity|]. split; [exact He|]. split; [reflexivity|].
      split; [cbn; lia|]. repeat split.
    + specialize (Hread 0 (Nat.lt_0_succ 0)). rewrite Nat.add_0_r in Hread.
      destruct (turn_readable pdf (N.of_nat i) n (env i) a1 Ho Hread)
        as (a2 & -> & Hm & Hs & _ & Hf).
      rewrite Hw. exists a2, Canceled. cbn [seq flat_map]. rewrite app_nil_r.
      split; [reflexivity|]. split; [now left|]. split; [exact Hm|].
      split; [exact Hs|]. eapply frame_trans; [|exact Hf]. repeat split.
  - assert (H0 : calm (env i)).
    { specialize (Hcalm 0 (Nat.lt_0_succ j)). now rewrite Nat.add_0_r in Hcalm. }
    assert (R0 : readable (env i)).
    { specialize (Hread 0 (Nat.lt_0_succ _)). now rewrite Nat.add_0_r in Hread. }
    destruct H0 as (Hc & Ho & Hw). rewrite Hc.
    set (a1 := with_progress (N.of_nat i + 1) n a).
    destruct (turn_readable pdf (N.of_nat i) n (env i) a1 Ho R0)
      as (a2 & -> & Hm & Hs & _ & Hf).
    rewrite Hw.
    destruct (IH (S i) rest a2) as (a' & e & -> & He & Hm' & Hs' & Hf').
    + simpl in Hlen. lia.
    + intros t Ht. replace (S i + t) with (i + S t) by lia. apply Hcalm. lia.
    + intros t Ht. replace (S i + t) with (i + S t) by lia. apply Hread.
      simpl. lia.
    + replace (S i + j) with (i + S j) by lia. exact Hobs.
    + exists a', e. subst docs. cbn [Nat.add seq flat_map].
      split; [reflexivity|]. split; [exact He|].
      rewrite counted_app, length_app, Nat2N.inj_add, Hm', Hs', Hm, Hs.
      split; [reflexivity|]. split; [subst a1; cbn [successCount with_progress]; lia|].
      eapply frame_trans; [|exact Hf']. eapply frame_trans; [|exact Hf].
      repeat split.
Qed.

Lemma loop_completed (env : nat -> Turn) (n : N) :
  forall (pdfs : list PdfData) (i : nat) (a : Acc),
  (forall t, t < length pdfs -> calm (env (i + t))) ->
  (forall t, t < length pdfs -> readable (env (i + t))) ->
  let docs := flat_map (fun t => analysis_of (env t)) (seq i (length pdfs)) in
  exists a', loop env n i pdfs a = (a', None) /\
    maps a' = counted docs (maps a) /\
    successCount a' = (successCount a + N.of_nat (length docs))%N /\
    (successCount a' + errorCount a' =
     successCount a + errorCount a + N.of_nat (length pdfs))%N /\
    frame (ui a) (ui a').
Proof.
  induction pdfs as [|pdf rest IH]; intros i a Hcalm Hread docs; cbn [loop].
  - exists a. subst docs. cbn [length seq flat_map]. rewrite counted_nil.
    split; [reflexivity|]. split; [reflexivity|]. split; [cbn; lia|].
    split; [cbn; lia|]. apply frame_refl.
  - assert (H0 : calm (env i)).
    { specialize (Hcalm 0 (Nat.lt_0_succ _)). now rewrite Nat.add_0_r in Hcalm. }
    assert (R0 : readable (env i)).
    { specialize (Hread 0 (Nat.lt_0_succ _)). now rewrite Nat.add_0_r in Hread. }
    destruct H0 as (Hc & Ho & Hw). rewrite Hc.
    set (a1 := with_progress (N.of_nat i + 1) n a).
    destruct (turn_readable pdf (N.of_nat i) n (env i) a1 Ho R0)
      as (a2 & -> & Hm & Hs & Hse & Hf).
    rewrite Hw.
    destruct (IH (S i) a2) as (a' & -> & Hm' & Hs' & Hse' & Hf').
    + intros t Ht. replace (S i + t) with (i + S t) by lia. apply Hcalm. simpl. lia.
    + intros t Ht. replace (S i + t) with (i + S t) by lia. apply Hread. simpl. lia.
    + exists a'. subst docs. cbn [length seq flat_map].
      split; [reflexivity|].
      split; [rewrite counted_app, Hm', Hm; reflexivity|].
      split; [rewrite length_app, Nat2N.inj_add, Hs', Hs; subst a1;
              cbn [successCount with_progress]; lia|].
      split.
      * rewrite Hse', Hse. subst a1.
        cbn [successCount errorCount with_progress length].
        rewrite Nat2N.inj_succ. lia.
      * eapply frame_trans; [|exact Hf']. eapply frame_trans; [|exact Hf].
        repeat split.
Qed.

(** *** The rankings and the terms *)




Lemma report_counted (docs : list Analysis) :
  report (counted docs empty_maps) = expected_report docs.
Proof. reflexivity. Qed.

End PageFacts.

(** C3: when the cancellation is first observed in turn [k] of the loop (at
    the check that opens the turn, as the rejection of the fetch, or during
    the wait that closes it) and every reply handled up to that point
    carries lists of strings, the run ends in the [complete] step with a
    report, the error cell is left as it was, and the four rankings are the
    aggregation of the documents analysed before that point: those of the
    turns before [k], and the one of turn [k] when the signal came during
    its wait.  The condition bears on the replies whose terms were counted
    only: the reply of turn [k] is under it when the signal came during the
    wait, and not otherwise.  Without the condition the rankings can hold
    more than that: the terms that a failing document listed before the
    value that is not a string. *)
Theorem handleAnalyze_cancelled (env : nat -> Page.Turn) (s : Page.State) (k b : nat) :
  Page.apiKey s <> [] ->
  k < length (Page.pdfDataList s) ->
  (forall i, i < k -> Page.calm (env i)) ->
  Page.observed (env k) b ->
  (forall i, i < k + b -> Page.readable (env i)) ->
  let s' := Page.handleAnalyze env s in
  let docs := Page.analyses env (k + b) in
  Page.step s' = Page.complete /\
  Page.error s' = Page.error s /\
  Page.results s' = Some (Page.expected_report docs) /\
  last (Page.logs s') [] = Page.cancel_line (length docs).
Proof.
  intros Hk Hlen Hcalm Hobs Hread s' docs. subst s'. unfold Page.handleAnalyze.
  destruct (Page.apiKey s) as [|c key] eqn:Ek; [contradiction|].
  destruct (Page.pdfDataList s) as [|p ps] eqn:Ep; [simpl in Hlen; lia|].
  cbv zeta.
  cbn [Page.pdfDataList Page.addLog Page.setProgress Page.setStep Page.setController].
  rewrite Ep.
  match goal with
  | |- context [Page.loop env ?n 0 (p :: ps) ?start] =>
    destruct (loop_cancelled env n b k 0 (p :: ps) start Hlen Hcalm Hread Hobs)
      as (a' & e & -> & He & Hm & Hs & Hf)
  end.
  fold (Page.analyses env (k + b)) in Hm, Hs. fold docs in Hm, Hs.
  cbn [Page.maps Page.successCount Page.ui] in Hm, Hs, Hf.
  destruct Hf as (_ & _ & Herr & _).
  cbn [Page.error Page.addLog Page.setProgress Page.setStep Page.setController] in Herr.
  assert (Hrep : Page.report (Page.maps a') = Page.expected_report docs)
    by (rewrite Hm; apply report_counted).
  cbn [N.add] in Hs.
  assert (Hgoal : forall st line,
            st = Page.setController false
                   (Page.setStep Page.complete
                      (Page.setResults (Some (Page.report (Page.maps a')))
                         (Page.addLog line (Page.ui a')))) ->
            line = Page.cancel_line (length docs) ->
            Page.step st = Page.complete /\
            Page.error st = Page.error s /\
            Page.results st = Some (Page.expected_report docs) /\
            last (Page.logs st) [] = Page.cancel_line (length docs)).
  { intros st line -> ->.
    cbn [Page.step Page.error Page.results Page.logs Page.setController
         Page.setStep Page.setResults Page.addLog].
    rewrite Hrep, Herr, last_last. repeat split. }
  destruct He as [-> | ->]; (eapply Hgoal; [reflexivity|]);
    unfold Page.cancel_line; now rewrite Hs.
Qed.

Lemma handleAnalyze_cancelled_witness :
  let s' := Page.handleAnalyze (Page.sample_env true) Page.sample_state in
  let docs := Page.analyses (Page.sample_env true) (1 + 1) in
  Page.step s' = Page.complete /\
  Page.error s' = Page.error Page.sample_state /\
  Page.results s' = Some (Page.expected_report docs) /\
  last (Page.logs s') [] = Page.cancel_line (length docs).
Proof.
  apply (handleAnalyze_cancelled (Page.sample_env true) Page.sample_state 1 1).
  - vm_compute. discriminate.
  - vm_compute. lia.
  - intros i Hi. assert (i = 0) as -> by lia. vm_compute. repeat split.
  - apply Page.in_wait; reflexivity.
  - intros i Hi.
    assert (i = 0 \/ i = 1) as [-> | ->] by lia; vm_compute; discriminate.
Defined.

(** C3, the case that the condition on the replies leaves out: the only
    reply lists a number after a term and the signal is aborted during the
    wait that follows.  The cancellation is observed in the first turn, no
    document was analysed, and the report still ranks the term that was
    read before the number. *)
Lemma handleAnalyze_cancelled_counterexample :
  let env := Page.sample_mixed_env in
  let s := Page.sample_state in
  let s' := Page.handleAnalyze env s in
  (Page.apiKey s <> [] /\ 0 < length (Page.pdfDataList s) /\
   (forall i, i < 0 -> Page.calm (env i)) /\ Page.observed (env 0) 1) /\
  Page.analyses env (0 + 1) = [] /\
  Page.step s' = Page.complete /\
  last (Page.logs s') [] = Page.cancel_line 0 /\
  Page.results s' =
    Some (Page.rankings [{| Page.name := lit "大根"; Page.count := 1 |}] [] [] []) /\
  Page.results s' <> Some (Page.expected_report (Page.analyses env (0 + 1))).
Proof.
  cbv zeta. split; [|split; [|split; [|split; [|split]]]].
  - split; [vm_compute; discriminate|]. split; [vm_compute; lia|].
    split; [intros i Hi; lia|]. apply Page.in_wait; reflexivity.
  - vm_compute. reflexivity.
  - vm_compute. reflexivity.
  - vm_compute. reflexivity.
  - vm_compute. reflexivity.
  - vm_compute. discriminate.
Qed.



(** The rankings of the sample run: the terms of its two analysed documents
    are counted over both, the most frequent first. *)
Example handleAnalyze_sample_rankings :
  Page.results (Page.handleAnalyze (Page.sample_env false) Page.sample_state) =
  Some (Page.rankings
          [{| Page.name := lit "大根"; Page.count := 3 |};
           {| Page.name := lit "人参"; Page.count := 2 |};
           {| Page.name := lit "白菜"; Page.count := 1 |}]
          [{| Page.name := lit "おでん"; Page.count := 2 |};
           {| Page.name := lit "鍋"; Page.count := 1 |}]
          [{| Page.name := lit "煮る"; Page.count := 2 |};
           {| Page.name := lit "蒸す"; Page.count := 1 |}]
          [{| Page.name := lit "冬"; Page.count := 1 |}]).
Proof. vm_compute. reflexivity. Qed.

(** ** JSON text: what is written is read back *)

Section JsonTextFacts.
Import Json JsonText.

(** Induction on values, with the hypothesis for every element of an array
    and every property of an object. *)
Lemma json_induction (P : json -> Prop) :
  P JNull ->
  (forall b, P (JBool b)) ->
  (forall n, P (JNumber n)) ->
  (forall s, P (JString s)) ->
  (forall items, Forall P items -> P (JArray items)) ->
  (forall fields, Forall (fun kv => P (snd kv)) fields -> P (JObject fields)) ->
  forall v, P v.
Proof.
  intros Hnull Hbool Hnum Hstr Harr Hobj.
  fix IH 1. intros [| b | n | s | items | fields].
  - exact Hnull.
  - apply Hbool.
  - apply Hnum.
  - apply Hstr.
  - apply Harr. induction items as [|x items IHl]; constructor; [apply IH|exact IHl].
  - apply Hobj. induction fields as [|[k x] fields IHl]; constructor;
      [apply IH|exact IHl].
Qed.

(** *** White space *)

Lemma skip_ws_spaces (n : nat) (s : jsstring) : skip_ws (spaces n ++ s) = skip_ws s.
Proof. induction n as [|n IH]; simpl; [reflexivity|exact IH]. Qed.

Lemma skip_ws_newline (s : jsstring) : skip_ws (NEWLINE :: s) = skip_ws s.
Proof. reflexivity. Qed.

Lemma skip_ws_stop (c : char16) (s : jsstring) :
  is_ws c = false -> skip_ws (c :: s) = c :: s.
Proof. intros H. simpl. now rewrite H. Qed.

Lemma read_value_skip (fuel : nat) (s : jsstring) :
  read_value fuel s = read_value fuel (skip_ws s).
Proof.
  assert (H : skip_ws (skip_ws s) = skip_ws s).
  { induction s as [|c s IH]; simpl; [reflexivity|].
    destruct (is_ws c) eqn:E; [exact IH|]. simpl. now rewrite E. }
  destruct fuel; simpl; [reflexivity|]. now rewrite H.
Qed.

(** *** Strings *)

Lemma hex_value_digit (d : N) :
  (d < 16)%N -> hex_value (hex_digit d) = Some d.
Proof.
  intros Hd.
  assert (H : forallb (fun x => match hex_value (hex_digit x) with
                                | Some y => (y =? x)%N
                                | None => false
                                end)
                      (map N.of_nat (seq 0 16)) = true) by (vm_compute; reflexivity).
  rewrite forallb_forall in H. specialize (H d).
  destruct (hex_value (hex_digit d)) as [y|].
  - f_equal. apply N.eqb_eq. apply H. apply in_map_iff.
    exists (N.to_nat d). split; [apply N2Nat.id|]. apply in_seq. lia.
  - assert (false = true); [|discriminate]. apply H. apply in_map_iff.
    exists (N.to_nat d). split; [apply N2Nat.id|]. apply in_seq. lia.
Qed.

Lemma nibble_lt (c : N) : (N.land c 15 < 16)%N.
Proof.
  change 15%N with (N.ones 4). rewrite N.land_ones. apply N.mod_lt. discriminate.
Qed.

Lemma nibbles (c : N) :
  (c < 65536)%N ->
  (4096 * N.land (N.shiftr c 12) 15 + 256 * N.land (N.shiftr c 8) 15 +
   16 * N.land (N.shiftr c 4) 15 + N.land c 15 = c)%N.
Proof.
  intros Hc.
  change 15%N with (N.ones 4). rewrite !N.land_ones, !N.shiftr_div_pow2.
  change (2 ^ 4)%N with 16%N. change (2 ^ 8)%N with 256%N.
  change (2 ^ 12)%N with 4096%N.
  pose proof (N.div_mod c 16 ltac:(lia)).
  pose proof (N.mod_lt c 16 ltac:(lia)).
  pose proof (N.div_mod (c / 16) 16 ltac:(lia)).
  pose proof (N.mod_lt (c / 16) 16 ltac:(lia)).
  pose proof (N.div_mod (c / 256) 16 ltac:(lia)).
  pose proof (N.mod_lt (c / 256) 16 ltac:(lia)).
  assert (c / 16 / 16 = c / 256)%N by (rewrite N.Div0.div_div; reflexivity).
  assert (c / 256 / 16 = c / 4096)%N by (rewrite N.Div0.div_div; reflexivity).
  assert (c / 4096 < 16)%N by (apply N.Div0.div_lt_upper_bound; lia).
  rewrite (N.mod_small (c / 4096) 16) by assumption.
  lia.
Qed.

Lemma hex4_round_trip (c : N) :
  (c < 65536)%N ->
  hex4_value (hex_digit (N.land (N.shiftr c 12) 15))
             (hex_digit (N.land (N.shiftr c 8) 15))
             (hex_digit (N.land (N.shiftr c 4) 15))
             (hex_digit (N.land c 15)) = Some c.
Proof.
  intros Hc. unfold hex4_value.
  rewrite !hex_value_digit by apply nibble_lt.
  now rewrite (nibbles c Hc).
Qed.

Lemma read_raw (c : char16) (t : jsstring) :
  c <> DQUOTE -> c <> BACKSLASH -> (32 <= c)%N ->
  read_chars (c :: t) = read_more c (read_chars t).
Proof.
  intros H1 H2 H3. cbn [read_chars].
  rewrite (proj2 (N.eqb_neq _ _) H1), (proj2 (N.eqb_neq _ _) H2),
          (proj2 (N.ltb_ge _ _) H3).
  reflexivity.
Qed.

Lemma read_unicode (c : char16) (t : jsstring) :
  (c < 65536)%N ->
  read_chars (unicode_escape c ++ t) = read_more c (read_chars t).
Proof.
  intros Hc. unfold unicode_escape, hex4. cbn [app read_chars].
  change (BACKSLASH =? DQUOTE)%N with false.
  change (BACKSLASH =? BACKSLASH)%N with true.
  cbv iota. change (117 =? DQUOTE)%N with false.
  change (117 =? BACKSLASH)%N with false. change (117 =? 47)%N with false.
  change (117 =? 98)%N with false. change (117 =? 102)%N with false.
  change (117 =? 110)%N with false. change (117 =? 114)%N with false.
  change (117 =? 116)%N with false. change (117 =? 117)%N with true.
  cbv iota. rewrite (hex4_round_trip c Hc). reflexivity.
Qed.

Lemma read_short (e x : char16) (t : jsstring) :
  In (e, x) [(DQUOTE, DQUOTE); (BACKSLASH, BACKSLASH); (98, 8); (102, 12);
             (110, 10); (114, 13); (116, 9)]%N ->
  read_chars (BACKSLASH :: e :: t) = read_more x (read_chars t).
Proof.
  intros H. cbn [In] in H.
  repeat (destruct H as [H|H]; [inversion H; subst; reflexivity|]).
  contradiction.
Qed.

(** A string that was quoted is read back, whatever it holds. *)
Lemma read_quoted (s : jsstring) :
  forall (paired : bool) (rest : jsstring),
  read_chars (quote_chars paired s ++ DQUOTE :: rest) = Some (s, rest).
Proof.
  induction s as [|c t IH]; intros paired rest; [reflexivity|].
  cbn [quote_chars].
  assert (Hraw : forall p, c <> DQUOTE -> c <> BACKSLASH -> (32 <= c)%N ->
            read_chars ((c :: quote_chars p t) ++ DQUOTE :: rest) = Some (c :: t, rest)).
  { intros p H1 H2 H3. cbn [app]. rewrite read_raw by assumption.
    now rewrite IH. }
  assert (Hesc : (c < 65536)%N ->
            read_chars ((unicode_escape c ++ quote_chars false t) ++ DQUOTE :: rest)
            = Some (c :: t, rest)).
  { intros Hc. rewrite <- app_assoc, read_unicode by assumption. now rewrite IH. }
  assert (Hshort : forall e, In (e, c) [(DQUOTE, DQUOTE); (BACKSLASH, BACKSLASH);
                     (98, 8); (102, 12); (110, 10); (114, 13); (116, 9)]%N ->
            read_chars ((BACKSLASH :: e :: quote_chars false t) ++ DQUOTE :: rest)
            = Some (c :: t, rest)).
  { intros e He. cbn [app]. rewrite (read_short e c _ He). now rewrite IH. }
  destruct (N.eqb_spec c 8) as [->|H8]; [apply Hshort; cbn; tauto|].
  destruct (N.eqb_spec c 9) as [->|H9]; [apply Hshort; cbn; tauto|].
  destruct (N.eqb_spec c 10) as [->|H10]; [apply Hshort; cbn; tauto|].
  destruct (N.eqb_spec c 12) as [->|H12]; [apply Hshort; cbn; tauto|].
  destruct (N.eqb_spec c 13) as [->|H13]; [apply Hshort; cbn; tauto|].
  destruct (N.eqb_spec c DQUOTE) as [->|Hq]; [apply Hshort; cbn; tauto|].
  destruct (N.eqb_spec c BACKSLASH) as [->|Hb]; [apply Hshort; cbn; tauto|].
  destruct (N.ltb_spec c 32) as [Hlt|Hge]; [apply Hesc; lia|].
  unfold is_high, is_low.
  destruct ((55296 <=? c) && (c <=? 56319))%N eqn:Hh.
  - apply andb_true_iff in Hh as [_ Hh]. apply N.leb_le in Hh.
    destruct t as [|l t']; [apply Hesc; lia|].
    destruct ((56320 <=? l) && (l <=? 57343))%N; [now apply Hraw|apply Hesc; lia].
  - destruct ((56320 <=? c) && (c <=? 57343))%N eqn:Hl; [|now apply Hraw].
    apply andb_true_iff in Hl as [_ Hl]. apply N.leb_le in Hl.
    destruct paired; [now apply Hraw|apply Hesc; lia].
Qed.

Lemma read_quote (s rest : jsstring) :
  exists t, quote s ++ rest = DQUOTE :: t /\ read_chars t = Some (s, rest).
Proof.
  unfold quote. exists (quote_chars false s ++ DQUOTE :: rest). split.
  - cbn [app]. now rewrite <- app_assoc.
  - apply read_quoted.
Qed.

(** *** Numbers *)

Lemma chars_uint_uint_chars (u : Decimal.uint) : chars_uint (uint_chars u) = Some u.
Proof. induction u; cbn [uint_chars chars_uint]; rewrite ?IHu; reflexivity. Qed.

Lemma uint_chars_digits (u : Decimal.uint) : forallb is_digit (uint_chars u) = true.
Proof. induction u; cbn [uint_chars forallb]; rewrite ?IHu; reflexivity. Qed.

Lemma to_uint_normal (n : N) : Decimal.unorm (N.to_uint n) = N.to_uint n.
Proof. now rewrite <- DecimalN.Unsigned.to_of, DecimalN.Unsigned.of_to. Qed.

Lemma to_uint_zero_head (n : N) (u : Decimal.uint) :
  N.to_uint n = Decimal.D0 u -> u = Decimal.Nil.
Proof.
  intros H. pose proof (to_uint_normal n) as Hn. rewrite H in Hn.
  unfold Decimal.unorm in Hn. cbn [Decimal.nzhead] in Hn.
  destruct (Decimal.nzhead u) eqn:E; try (inversion Hn; subst; reflexivity);
    exfalso; revert E; rewrite Hn; apply DecimalFacts.nzhead_nonzero.
Qed.

Lemma to_uint_nonnil (n : N) : N.to_uint n <> Decimal.Nil.
Proof.
  rewrite <- to_uint_normal. apply DecimalFacts.unorm_nonnil.
Qed.

Lemma delimited_stop (rest : jsstring) :
  delimited rest -> match rest with [] => True | c :: _ => is_digit c = false end.
Proof. destruct rest; [trivial|]. now intros [H _]. Qed.

Lemma read_int_digits (n : N) (rest : jsstring) :
  delimited rest ->
  read_int (digits_of n ++ rest) = Some (digits_of n, rest).
Proof.
  intros Hd. unfold digits_of.
  pose proof (to_uint_nonnil n) as Hnil.
  pose proof (to_uint_zero_head n) as Hzero.
  assert (Hspan : forall u, span is_digit (uint_chars u ++ rest) = (uint_chars u, rest)).
  { intros u. apply span_unique; [apply uint_chars_digits|now apply delimited_stop]. }
  destruct (N.to_uint n) as [|u|u|u|u|u|u|u|u|u|u]; [congruence| |..];
    cbn [uint_chars app read_int].
  - rewrite (Hzero u eq_refl). reflexivity.
  - rewrite Hspan. reflexivity.
  - rewrite Hspan. reflexivity.
  - rewrite Hspan. reflexivity.
  - rewrite Hspan. reflexivity.
  - rewrite Hspan. reflexivity.
  - rewrite Hspan. reflexivity.
  - rewrite Hspan. reflexivity.
  - rewrite Hspan. reflexivity.
  - rewrite Hspan. reflexivity.
Qed.

Lemma read_frac_none (rest : jsstring) :
  delimited rest -> read_frac rest = Some ([], rest).
Proof.
  destruct rest as [|c rest]; [reflexivity|]. intros (_ & H & _).
  cbn [read_frac]. now rewrite (proj2 (N.eqb_neq _ _) H).
Qed.

Lemma read_exp_none (rest : jsstring) :
  delimited rest -> read_exp rest = Some ([], rest).
Proof.
  destruct rest as [|c rest]; [reflexivity|]. intros (_ & _ & H1 & H2).
  cbn [read_exp].
  now rewrite (proj2 (N.eqb_neq _ _) H1), (proj2 (N.eqb_neq _ _) H2).
Qed.

Lemma digits_of_head (n : N) :
  exists c t, digits_of n = c :: t /\ is_digit c = true.
Proof.
  unfold digits_of. pose proof (to_uint_nonnil n) as Hnil.
  destruct (N.to_uint n); [congruence|..]; cbn [uint_chars];
    eexists _, _; split; reflexivity.
Qed.

Lemma read_magnitude_digits (negative : bool) (n : N) (rest : jsstring) :
  delimited rest ->
  read_magnitude negative (digits_of n ++ rest) =
  Some (JNumber (Int (if negative then - Z.of_N n else Z.of_N n)%Z), rest).
Proof.
  intros Hd. unfold read_magnitude.
  rewrite (read_int_digits n rest Hd), (read_frac_none rest Hd),
          (read_exp_none rest Hd).
  unfold digits_of. rewrite chars_uint_uint_chars, DecimalN.Unsigned.of_to.
  reflexivity.
Qed.

Lemma read_number_unsigned (s : jsstring) (c : char16) (t : jsstring) :
  s = c :: t -> (c =? MINUS)%N = false ->
  read_number s = read_magnitude false s.
Proof. intros -> H. cbn [read_number]. now rewrite H. Qed.

Lemma read_number_text (z : Z) (rest : jsstring) :
  delimited rest ->
  read_number (number_text (Int z) ++ rest) = Some (JNumber (Int z), rest).
Proof.
  intros Hd. unfold number_text. destruct (Z.ltb_spec z 0) as [Hneg|Hpos].
  - cbn [app read_number]. change (MINUS =? MINUS)%N with true. cbv iota.
    rewrite (read_magnitude_digits true _ rest Hd). do 4 f_equal.
    rewrite Z2N.id by lia. lia.
  - destruct (digits_of_head (Z.to_N z)) as (c & t & E & Hc).
    assert (Hm : (c =? MINUS)%N = false).
    { apply N.eqb_neq. intros ->. discriminate. }
    rewrite (read_number_unsigned (digits_of (Z.to_N z) ++ rest) c (t ++ rest))
      by (rewrite ?E; auto).
    rewrite (read_magnitude_digits false _ rest Hd). do 4 f_equal.
    now rewrite Z2N.id by lia.
Qed.

(** *** Values *)

Lemma number_head (z : Z) :
  exists c t, number_text (Int z) = c :: t /\ (c = MINUS \/ is_digit c = true).
Proof.
  unfold number_text. destruct (z <? 0)%Z.
  - eexists _, _. split; [reflexivity|now left].
  - destruct (digits_of_head (Z.to_N z)) as (c & t & E & Hc).
    exists c, t. auto.
Qed.

Lemma read_value_number (f : nat) (c : char16) (t : jsstring) :
  c = MINUS \/ is_digit c = true ->
  read_value (S f) (c :: t) = read_number (c :: t).
Proof.
  intros [->|Hc]; [reflexivity|].
  unfold is_digit in Hc. apply andb_true_iff in Hc as [H1 H2].
  apply N.leb_le in H1, H2.
  assert (Hne : forall k, (k < 48 \/ 57 < k)%N -> (c =? k)%N = false).
  { intros k Hk. apply N.eqb_neq. lia. }
  cbn [read_value skip_ws]. unfold is_ws.
  rewrite !Hne by lia. cbn [orb].
  unfold DQUOTE, LBRACKET, LBRACE. rewrite !Hne by lia. reflexivity.
Qed.

Lemma value_start (ind : nat) (v : json) :
  printable v ->
  exists c t, stringify ind v = c :: t /\
              is_ws c = false /\ c <> RBRACKET /\ c <> RBRACE.
Proof.
  destruct v as [| [|] | [z|l] | s | [|x items] | [|kv fields]]; intros Hp;
    try contradiction;
    try (eexists _, _; split; [reflexivity|];
         split; [reflexivity|]; split; discriminate).
  destruct (number_head z) as (c & t & E & Hc). cbn [stringify].
  exists c, t. split; [exact E|].
  destruct Hc as [->|Hc]; [split; [reflexivity|]; split; discriminate|].
  unfold is_digit in Hc. apply andb_true_iff in Hc as [H1 H2].
  apply N.leb_le in H1, H2.
  split; [|split; intros ->; unfold RBRACKET, RBRACE in *; lia].
  unfold is_ws. rewrite !orb_false_iff. repeat split; apply N.eqb_neq; lia.
Qed.

Lemma stringify_array (ind : nat) (x : json) (items : list json) (rest : jsstring) :
  stringify ind (JArray (x :: items)) ++ rest =
  LBRACKET :: NEWLINE ::
    lines (ind + 2) (map (stringify (ind + 2)) (x :: items))
    ++ NEWLINE :: spaces ind ++ RBRACKET :: rest.
Proof.
  cbn [stringify app]. rewrite <- !app_assoc. cbn [app].
  now rewrite <- !app_assoc.
Qed.

Lemma stringify_object (ind : nat) (kv : jsstring * json)
    (fields : list (jsstring * json)) (rest : jsstring) :
  stringify ind (JObject (kv :: fields)) ++ rest =
  LBRACE :: NEWLINE ::
    lines (ind + 2) (map (member_text (ind + 2)) (kv :: fields))
    ++ NEWLINE :: spaces ind ++ RBRACE :: rest.
Proof.
  cbn [stringify app]. rewrite <- !app_assoc. cbn [app].
  now rewrite <- !app_assoc.
Qed.

Lemma lines_one (ind : nat) (x k : jsstring) :
  lines ind [x] ++ k = spaces ind ++ x ++ k.
Proof. cbn [lines]. now rewrite <- app_assoc. Qed.

Lemma lines_more (ind : nat) (x y : jsstring) (l : list jsstring) (k : jsstring) :
  lines ind (x :: y :: l) ++ k =
  spaces ind ++ x ++ COMMA :: NEWLINE :: lines ind (y :: l) ++ k.
Proof. cbn [lines]. now rewrite <- !app_assoc. Qed.

Lemma skip_ws_value (ind : nat) (v : json) (k : jsstring) :
  printable v -> skip_ws (stringify ind v ++ k) = stringify ind v ++ k.
Proof.
  intros Hp. destruct (value_start ind v Hp) as (c & t & E & Hc & _).
  rewrite E. cbn [app]. now apply skip_ws_stop.
Qed.

(** The elements of an array, from the line break that follows the opening
    bracket or a comma, up to the closing bracket. *)
Lemma read_elements_lines (items : list json) :
  Forall reads_back items ->
  Forall printable items ->
  items <> [] ->
  forall (fuel ind m : nat) (rest : jsstring),
  sizes items <= fuel ->
  read_elements fuel
    (NEWLINE :: lines ind (map (stringify ind) items)
       ++ NEWLINE :: spaces m ++ RBRACKET :: rest) = Some (items, rest).
Proof.
  induction items as [|x items IH]; intros Hrb Hpr Hne fuel ind m rest Hfuel;
    [congruence|].
  inversion Hrb as [|? ? Hx Hrb']; subst. inversion Hpr as [|? ? Px Hpr']; subst.
  unfold sizes in Hfuel. cbn [fold_right] in Hfuel. fold (sizes items) in Hfuel.
  destruct fuel as [|f]; [lia|]. cbn [read_elements].
  rewrite read_value_skip, skip_ws_newline. cbn [map].
  destruct items as [|y items].
  - rewrite lines_one, skip_ws_spaces, (skip_ws_value _ _ _ Px).
    rewrite (Hx Px f ind _); [|lia|repeat split; discriminate].
    rewrite skip_ws_newline, skip_ws_spaces.
    rewrite skip_ws_stop by reflexivity. reflexivity.
  - cbn [map]. rewrite lines_more, skip_ws_spaces, (skip_ws_value _ _ _ Px).
    rewrite (Hx Px f ind _); [|lia|repeat split; discriminate].
    rewrite skip_ws_stop by reflexivity.
    change ((COMMA =? COMMA)%N) with true. cbv iota.
    change (stringify ind y :: map (stringify ind) items)
      with (map (stringify ind) (y :: items)).
    rewrite (IH Hrb' Hpr'); [reflexivity|discriminate|lia].
Qed.

(** The properties of an object, from the line break that follows the
    opening brace or a comma, up to the closing brace. *)
Lemma read_members_lines (fields : list (jsstring * json)) :
  Forall (fun kv => reads_back (snd kv)) fields ->
  Forall (fun kv => printable (snd kv)) fields ->
  fields <> [] ->
  forall (fuel ind m : nat) (acc : list (jsstring * json)) (rest : jsstring),
  sizes_of_fields fields <= fuel ->
  read_members fuel acc
    (NEWLINE :: lines ind (map (member_text ind) fields)
       ++ NEWLINE :: spaces m ++ RBRACE :: rest) =
  Some (set_all fields acc, rest).
Proof.
  induction fields as [|[k x] fields IH];
    intros Hrb Hpr Hne fuel ind m acc rest Hfuel; [congruence|].
  inversion Hrb as [|? ? Hx Hrb']; subst. inversion Hpr as [|? ? Px Hpr']; subst.
  cbn [snd] in Hx, Px.
  unfold sizes_of_fields in Hfuel. cbn [fold_right snd] in Hfuel.
  fold (sizes_of_fields fields) in Hfuel.
  destruct fuel as [|f]; [lia|]. cbn [read_members].
  rewrite skip_ws_newline. cbn [map]. unfold member_text at 1. cbn [fst snd].
  assert (Hkey : forall tail,
            skip_ws (spaces ind ++ (quote k ++ COLON :: SPACE :: stringify ind x) ++ tail) =
            DQUOTE :: quote_chars false k ++ DQUOTE :: COLON :: SPACE :: stringify ind x ++ tail).
  { intros tail. rewrite skip_ws_spaces. unfold quote. cbn [app].
    rewrite <- !app_assoc. cbn [app]. now rewrite skip_ws_stop by reflexivity. }
  destruct fields as [|[k' y] fields].
  - rewrite lines_one, Hkey. change (DQUOTE =? DQUOTE)%N with true. cbv iota.
    rewrite read_quoted. rewrite skip_ws_stop by reflexivity.
    change (COLON =? COLON)%N with true. cbv iota.
    rewrite read_value_skip. cbn [skip_ws is_ws N.eqb orb].
    change (is_ws SPACE) with true. cbv iota.
    rewrite (skip_ws_value _ _ _ Px).
    rewrite (Hx Px f ind _); [|lia|repeat split; discriminate].
    rewrite skip_ws_newline, skip_ws_spaces.
    rewrite skip_ws_stop by reflexivity. reflexivity.
  - cbn [map]. rewrite lines_more, Hkey. change (DQUOTE =? DQUOTE)%N with true.
    cbv iota. rewrite read_quoted. rewrite skip_ws_stop by reflexivity.
    change (COLON =? COLON)%N with true. cbv iota.
    rewrite read_value_skip. cbn [skip_ws is_ws N.eqb orb].
    change (is_ws SPACE) with true. cbv iota.
    rewrite (skip_ws_value _ _ _ Px).
    rewrite (Hx Px f ind _); [|lia|repeat split; discriminate].
    rewrite skip_ws_stop by reflexivity.
    change ((COMMA =? COMMA)%N) with true. cbv iota.
    change (member_text ind (k', y) :: map (member_text ind) fields)
      with (map (member_text ind) ((k', y) :: fields)).
    rewrite (IH Hrb' Hpr'); [reflexivity|discriminate|lia].
Qed.

Lemma obj_set_new (k : jsstring) (v : json) (acc : list (jsstring * json)) :
  ~ In k (map fst acc) -> obj_set k v acc = acc ++ [(k, v)].
Proof.
  induction acc as [|[k' v'] acc IH]; intros H; cbn [obj_set app]; [reflexivity|].
  cbn [map fst In] in H.
  rewrite (proj2 (list_eqb_neq k' k)) by tauto.
  rewrite IH by tauto. reflexivity.
Qed.

Lemma set_all_distinct (fields acc : list (jsstring * json)) :
  NoDup (map fst (acc ++ fields)) -> set_all fields acc = acc ++ fields.
Proof.
  revert acc; induction fields as [|[k v] fields IH]; intros acc Hnd.
  - cbn. now rewrite app_nil_r.
  - unfold set_all. cbn [fold_left fst snd]. fold (set_all fields (obj_set k v acc)).
    assert (Hk : ~ In k (map fst acc)).
    { rewrite map_app in Hnd. cbn [map fst] in Hnd.
      apply NoDup_remove_2 in Hnd. intros Hin. apply Hnd.
      apply in_or_app. now left. }
    rewrite (obj_set_new _ _ _ Hk), IH; rewrite <- app_assoc; [reflexivity|exact Hnd].
Qed.

Lemma printable_items (items : list json) :
  printable (JArray items) <-> Forall printable items.
Proof.
  cbn [printable]. induction items as [|x items IH]; cbn [fold_right].
  - split; [constructor|trivial].
  - rewrite IH. split.
    + intros [H1 H2]. now constructor.
    + intros H. inversion H. auto.
Qed.

Lemma printable_fields (fields : list (jsstring * json)) :
  printable (JObject fields) <->
  NoDup (map fst fields) /\ Forall (fun kv => printable (snd kv)) fields.
Proof.
  cbn [printable]. apply and_iff_compat_l.
  induction fields as [|x fields IH]; cbn [fold_right].
  - split; [constructor|trivial].
  - rewrite IH. split.
    + intros [H1 H2]. now constructor.
    + intros H. inversion H. auto.
Qed.

(** Every printable value that was written is read back. *)
Lemma stringify_reads_back (v : json) : reads_back v.
Proof.
  induction v as [| b | n | s | items IH | fields IH] using json_induction;
    intros Hp fuel ind rest Hfuel Hd;
    (destruct fuel as [|f]; [cbn [size] in Hfuel; lia|]).
  - reflexivity.
  - destruct b; reflexivity.
  - destruct n as [z|l]; [|contradiction]. cbn [stringify].
    destruct (number_head z) as (c & t & E & Hc).
    pose proof (read_number_text z rest Hd) as Hn.
    rewrite E in *. cbn [app] in *. now rewrite read_value_number.
  - cbn [stringify]. unfold quote. cbn [app read_value skip_ws].
    change (is_ws DQUOTE) with false. cbv iota.
    change (DQUOTE =? DQUOTE)%N with true. cbv iota.
    rewrite <- app_assoc. cbn [app]. now rewrite read_quoted.
  - apply printable_items in Hp. destruct items as [|x items]; [reflexivity|].
    rewrite stringify_array.
    cbn [read_value]. rewrite skip_ws_stop by reflexivity.
    change (LBRACKET =? DQUOTE)%N with false.
    change (LBRACKET =? LBRACKET)%N with true. cbv iota.
    inversion Hp as [|? ? Px Hp']; subst.
    assert (Hhead : exists c r,
              skip_ws (NEWLINE :: lines (ind + 2) (map (stringify (ind + 2)) (x :: items))
                         ++ NEWLINE :: spaces ind ++ RBRACKET :: rest) = c :: r /\
              (c =? RBRACKET)%N = false).
    { destruct (value_start (ind + 2) x Px) as (c & t & E & Hws & Hb & _).
      rewrite skip_ws_newline. cbn [map].
      destruct items as [|y items].
      - rewrite lines_one, skip_ws_spaces, E. cbn [app].
        rewrite skip_ws_stop by assumption. eexists _, _. split; [reflexivity|].
        now apply N.eqb_neq.
      - cbn [map]. rewrite lines_more, skip_ws_spaces, E. cbn [app].
        rewrite skip_ws_stop by assumption. eexists _, _. split; [reflexivity|].
        now apply N.eqb_neq. }
    destruct Hhead as (c & r & -> & ->).
    rewrite (read_elements_lines (x :: items) IH Hp); [reflexivity|discriminate|].
    cbn [size] in Hfuel. fold (sizes (x :: items)) in Hfuel. lia.
  - apply printable_fields in Hp as [Hnd Hp].
    destruct fields as [|[k x] fields]; [reflexivity|].
    rewrite stringify_object.
    cbn [read_value]. rewrite skip_ws_stop by reflexivity.
    change (LBRACE =? DQUOTE)%N with false.
    change (LBRACE =? LBRACKET)%N with false.
    change (LBRACE =? LBRACE)%N with true. cbv iota.
    assert (Hhead : exists r,
              skip_ws (NEWLINE :: lines (ind + 2) (map (member_text (ind + 2)) ((k, x) :: fields))
                         ++ NEWLINE :: spaces ind ++ RBRACE :: rest) = DQUOTE :: r).
    { rewrite skip_ws_newline. cbn [map]. unfold member_text at 1, quote. cbn [fst].
      destruct fields as [|kv fields].
      - rewrite lines_one, skip_ws_spaces. cbn [app].
        rewrite skip_ws_stop by reflexivity. eexists. reflexivity.
      - cbn [map]. rewrite lines_more, skip_ws_spaces. cbn [app].
        rewrite skip_ws_stop by reflexivity. eexists. reflexivity. }
    destruct Hhead as (r & ->).
    change (DQUOTE =? RBRACE)%N with false. cbv iota.
    rewrite (read_members_lines ((k, x) :: fields) IH Hp); [|discriminate|].
    + now rewrite (set_all_distinct _ [] Hnd).
    + cbn [size] in Hfuel. fold (sizes_of_fields ((k, x) :: fields)) in Hfuel. lia.
Qed.

(** *** The length of the text bounds the fuel *)

Lemma length_spaces (n : nat) : length (spaces n) = n.
Proof. apply repeat_length. Qed.

Lemma lines_length (ind : nat) (items : list json) :
  1 <= ind ->
  Forall (fun x => size x <= length (stringify ind x)) items ->
  sizes items <= length (lines ind (map (stringify ind) items)).
Proof.
  intros Hind H. induction H as [|x items Hx _ IH]; [cbn; lia|].
  unfold sizes in *. cbn [fold_right map].
  destruct items as [|y items].
  - cbn [map lines fold_right]. rewrite length_app, length_spaces. lia.
  - cbn [map] in *. cbn [lines]. rewrite !length_app, length_spaces.
    cbn [length]. cbn [lines] in IH. lia.
Qed.

Lemma members_length (ind : nat) (fields : list (jsstring * json)) :
  1 <= ind ->
  Forall (fun kv => size (snd kv) <= length (stringify ind (snd kv))) fields ->
  sizes_of_fields fields <= length (lines ind (map (member_text ind) fields)).
Proof.
  intros Hind H. induction H as [|x fields Hx _ IH]; [cbn; lia|].
  unfold sizes_of_fields in *. cbn [fold_right map].
  assert (Hm : size (snd x) <= length (member_text ind x)).
  { unfold member_text. rewrite length_app. cbn [length]. lia. }
  destruct fields as [|y fields].
  - cbn [map lines fold_right]. rewrite length_app, length_spaces. lia.
  - cbn [map] in *. cbn [lines]. rewrite !length_app, length_spaces.
    cbn [length]. cbn [lines] in IH. lia.
Qed.

Lemma stringify_length (v : json) :
  printable v -> forall ind, size v <= length (stringify ind v).
Proof.
  induction v as [| b | n | s | items IH | fields IH] using json_induction;
    intros Hp ind.
  - cbn. lia.
  - destruct b; cbn; lia.
  - destruct n as [z|l]; [|contradiction]. cbn [stringify size].
    destruct (number_head z) as (c & t & -> & _). cbn. lia.
  - cbn [stringify size]. unfold quote. cbn [length]. lia.
  - apply printable_items in Hp. destruct items as [|x items]; [cbn; lia|].
    pose proof (stringify_array ind x items []) as E. rewrite app_nil_r in E.
    rewrite E. cbn [size length]. fold (sizes (x :: items)).
    rewrite length_app.
    assert (H : sizes (x :: items) <=
                length (lines (ind + 2) (map (stringify (ind + 2)) (x :: items)))).
    { apply lines_length; [lia|].
      rewrite Forall_forall in *. intros y Hy. apply IH; auto. }
    lia.
  - apply printable_fields in Hp as [_ Hp].
    destruct fields as [|kv fields]; [cbn; lia|].
    pose proof (stringify_object ind kv fields []) as E. rewrite app_nil_r in E.
    rewrite E. cbn [size length]. fold (sizes_of_fields (kv :: fields)).
    rewrite length_app.
    assert (H : sizes_of_fields (kv :: fields) <=
                length (lines (ind + 2) (map (member_text (ind + 2)) (kv :: fields)))).
    { apply members_length; [lia|].
      rewrite Forall_forall in *. intros y Hy. apply IH; auto. }
    lia.
Qed.

(** [JSON.parse(JSON.stringify(v, null, 2))] gives [v] back. *)
Lemma JSON_round_trip (v : json) :
  printable v -> JSON_parse (JSON_stringify v) = Extract.Ok v.
Proof.
  intros Hp. unfold JSON_parse, JSON_stringify.
  pose proof (stringify_reads_back v Hp (S (length (stringify 0 v))) 0 []) as H.
  rewrite app_nil_r in H. rewrite H; [reflexivity| |exact I].
  pose proof (stringify_length v Hp 0). lia.
Qed.

End JsonTextFacts.

(** ** The report as a file *)

Section ReportFacts.
Import Json JsonText Page.

Lemma item_json_printable (it : RankingItem) : printable (item_json it).
Proof.
  unfold item_json. apply printable_fields. split.
  - cbn [map fst]. repeat constructor; cbn [In]; intuition discriminate.
  - repeat constructor.
Qed.

Lemma ranking_json_printable (l : list RankingItem) : printable (ranking_json l).
Proof.
  unfold ranking_json. apply printable_items. apply Forall_map.
  apply Forall_forall. intros it _. apply item_json_printable.
Qed.

Lemma report_data_printable (now : jsstring) (i d c z : list RankingItem) :
  printable (report_data now (rankings i d c z)).
Proof.
  unfold report_data, rankings. apply printable_fields. split.
  - cbn [map fst]. repeat constructor; cbn [In]; intuition discriminate.
  - cbn [ingredients dishes cookingMethods seasons].
    repeat constructor; cbn [snd]; apply ranking_json_printable.
Qed.

End ReportFacts.

(** C8: the file written by [downloadReportAsJson] for results that hold
    four rankings, given back to [loadReportFromJson], restores the same
    results and shows the report; this holds whatever the state in which the
    file is loaded. *)
Theorem report_round_trip
    (toLocaleString : Json.json -> jsstring) (now now' fileName : jsstring)
    (s s0 : Page.State) (i d c z : list Page.RankingItem) :
  Page.results s = Some (Page.rankings i d c z) ->
  exists file,
    Page.downloadReportAsJson now now' s = Some file /\
    let s1 := Page.loadReportFromJson toLocaleString
                (Some (fileName, Page.content file)) s0 in
    Page.results s1 = Some (Page.rankings i d c z) /\
    Page.step s1 = Page.complete /\
    Page.error s1 = Page.error s0.
Proof.
  intros Hr. unfold Page.downloadReportAsJson. rewrite Hr.
  eexists. split; [reflexivity|]. cbn [Page.content].
  unfold Page.loadReportFromJson, Page.onload.
  rewrite (JSON_round_trip _ (report_data_printable now i d c z)).
  unfold Page.report_data, Page.rankings, Page.ranking_json.
  cbn. destruct now; repeat split.
Qed.

Lemma report_round_trip_witness :
  exists file,
    Page.downloadReportAsJson (lit "2026-11-03T00:00:00.000Z")
      (lit "2026-11-03T00:00:00.001Z") Page.sample_done = Some file /\
    let s1 := Page.loadReportFromJson Page.sample_clock
                (Some (lit "kamaya-report-2026-11-03.json", Page.content file))
                Page.sample_state in
    Page.results s1 =
      Some (Page.rankings (Page.sample_ranking Page.a_ingredients)
                          (Page.sample_ranking Page.a_dishes)
                          (Page.sample_ranking Page.a_cookingMethods)
                          (Page.sample_ranking Page.a_seasons)) /\
    Page.step s1 = Page.complete /\
    Page.error s1 = Page.error Page.sample_state.
Proof.
  apply (report_round_trip Page.sample_clock (lit "2026-11-03T00:00:00.000Z")
           (lit "2026-11-03T00:00:00.001Z") (lit "kamaya-report-2026-11-03.json")
           Page.sample_done Page.sample_state).
  vm_compute. reflexivity.
Defined.

(** * Further properties of the code *)

(** ** The extract endpoint *)

Section ExtractMore.
Import Extract ExtractSpec.

Variable net : list jsstring -> jsstring -> result Response.
Variable mkdir_fault : option jsstring.
Variable write_fault : jsstring -> option (jsstring * option nat).
Variable base64 : list Byte.byte -> jsstring.
Variable DOWNLOAD_DIR : jsstring.

Lemma at_confirm_spec (s value : jsstring) :
  at_confirm s = Some value <-> confirm_link s value.
Proof.
  unfold at_confirm, confirm_link. split.
  - destruct (strip_prefix HREF_QUOTE s) as [t|] eqn:E; [|discriminate].
    apply strip_prefix_Some in E.
    pose proof (span_app (not_char QUOTE) t) as Happ.
    pose proof (span_fst_all (not_char QUOTE) t) as Hall.
    pose proof (span_snd_stop (not_char QUOTE) t) as Hstop.
    destruct (span (not_char QUOTE) t) as [v [|q post]]; [discriminate|].
    cbn [fst snd] in *.
    destruct (includes v _) eqn:Ei; [|discriminate].
    intros H; inversion H; subst v. exists post.
    unfold not_char in Hstop. apply negb_false_iff, N.eqb_eq in Hstop. subst q.
    split; [now rewrite E, Happ|]. split; [now apply not_char_all|exact Ei].
  - intros (post & -> & Hq & Hi). rewrite strip_prefix_app.
    rewrite span_unique.
    + now rewrite Hi.
    + now apply not_char_all.
    + unfold not_char. now rewrite N.eqb_refl.
Qed.

(** What [savePdfAndRespond] does: the file is written and the answer is a
    success, or a fault of [mkdir] or [writeFile] is turned into a skip; the
    directory is then as the failed write left it. *)
Lemma savePdfAndRespond_cases (buffer : list Byte.byte) (t name : jsstring) (w : World) :
  let out := savePdfAndRespond mkdir_fault write_fault base64 DOWNLOAD_DIR
               buffer t name w in
  fetched (snd out) = fetched w /\
  ((mkdir_fault = None /\ write_fault name = None /\
    fst out = Ok (Success t (base64 buffer) (length buffer)
                    (filepath DOWNLOAD_DIR name) name false) /\
    disk (snd out) = written name buffer w) \/
   (exists e opened,
      ((mkdir_fault = Some e /\ opened = None) \/
       (mkdir_fault = None /\ write_fault name = Some (e, opened))) /\
      fst out = Ok (skip (js "Failed to save PDF: " ++ e)) /\
      disk (snd out) = left_over name buffer opened w)).
Proof.
  unfold savePdfAndRespond, try_catch, bind, mkdir, writeFile, ret.
  destruct mkdir_fault as [e|].
  - split; [reflexivity|]. right. exists e, None. split; [now left|]. now split.
  - destruct (write_fault name) as [[e [n|]]|].
    + split; [reflexivity|]. right. exists e, (Some n).
      split; [right; now split|]. now split.
    + split; [reflexivity|]. right. exists e, None.
      split; [right; now split|]. now split.
    + split; [reflexivity|]. left. repeat split.
Qed.

(** What following a confirm link does: at most one more fetch; no answer,
    an exception or a skip with the directory as it was, a skip after a
    write that failed and left a part of the file, or the answer of a saved
    file. *)
Lemma follow_confirm_cases (html t name : jsstring) (w : World) :
  let out := follow_confirm net mkdir_fault write_fault base64 DOWNLOAD_DIR
               html t name w in
  (exists extra, fetched (snd out) = fetched w ++ extra /\ length extra <= 1) /\
  (((fst out = Ok None \/ (exists e, fst out = Throws e) \/
     (exists e, fst out = Ok (Some (skip e)))) /\ disk (snd out) = disk w) \/
   (exists e bytes n,
      fst out = Ok (Some (skip e)) /\
      disk (snd out) = written name (firstn n bytes) w) \/
   (exists bytes,
      fst out = Ok (Some (Success t (base64 bytes) (length bytes)
                                  (filepath DOWNLOAD_DIR name) name false)) /\
      disk (snd out) = written name bytes w)).
Proof.
  intros out. assert (Hout : out = follow_confirm net mkdir_fault write_fault
                                     base64 DOWNLOAD_DIR html t name w) by reflexivity.
  clearbody out. unfold follow_confirm in Hout.
  destruct (search at_confirm html) as [href|].
  2:{ subst out. cbn. split; [exists []; rewrite app_nil_r; auto|]. left. auto. }
  fold (confirm_url href) in Hout. unfold bind at 1 in Hout. unfold fetch at 1 in Hout.
  set (w1 := {| disk := disk w; fetched := fetched w ++ [confirm_url href] |}) in *.
  assert (Hone : forall w', fetched w' = fetched w1 ->
            exists extra, fetched w' = fetched w ++ extra /\ length extra <= 1).
  { intros w' ->. exists [confirm_url href]. auto. }
  destruct (net (fetched w) (confirm_url href)) as [r|e].
  2:{ subst out. cbn [fst snd]. split; [now apply Hone|]. left. split; [|reflexivity].
      right; left. now exists e. }
  destruct (ok r).
  2:{ subst out. cbn [fst snd ret]. split; [now apply Hone|]. left. auto. }
  destruct (includes _ _ || includes _ _).
  2:{ subst out. cbn [fst snd ret]. split; [now apply Hone|]. left. auto. }
  unfold bind at 1, lift in Hout. destruct (arrayBuffer r) as [bytes|e].
  2:{ subst out. cbn [fst snd]. split; [now apply Hone|]. left. split; [|reflexivity].
      right; left. now exists e. }
  unfold bind at 1 in Hout.
  pose proof (savePdfAndRespond_cases bytes t name w1) as Hs. cbv zeta in Hs.
  destruct (savePdfAndRespond _ _ _ _ bytes t name w1) as [[r'|e'] w2].
  2:{ destruct Hs as (_ & [(_ & _ & Hr & _)|(e & o & _ & Hr & _)]); discriminate. }
  cbn [fst snd] in Hs. destruct Hs as (Hfe & Hs). subst out. cbn [fst snd ret].
  split; [apply Hone; exact Hfe|].
  destruct Hs as [(_ & _ & Hr & Hd)|(e & opened & _ & Hr & Hd)]; inversion Hr; subst r'.
  - right; right. exists bytes. split; [reflexivity|exact Hd].
  - destruct opened as [n|].
    + right; left. exists (js "Failed to save PDF: " ++ e), bytes, n.
      split; [reflexivity|exact Hd].
    + left. split; [|exact Hd]. right; right. eexists. reflexivity.
Qed.

(** The answers of the handler, case by case. *)
Lemma POST_cases (request : result Body) (w : World) :
  let out := POST net mkdir_fault write_fault base64 DOWNLOAD_DIR request w in
  (exists extra, fetched (snd out) = fetched w ++ extra /\ length extra <= 2) /\
  ((exists b, request = Ok b /\ (pdfUrl b = None \/ pdfUrl b = Some []) /\
      fst out = Failure 400 (js "PDF URL is required") false /\ snd out = w) \/
   (exists b bytes, request = Ok b /\
      disk w (cache_name b) = Some (File bytes) /\
      fst out = Success (title b) (base64 bytes) (length bytes)
                  (filepath DOWNLOAD_DIR (cache_name b)) (cache_name b) true /\
      snd out = w) \/
   (exists b bytes, request = Ok b /\
      (forall old, disk w (cache_name b) <> Some (File old)) /\
      fst out = Success (title b) (base64 bytes) (length bytes)
                  (filepath DOWNLOAD_DIR (cache_name b)) (cache_name b) false /\
      disk (snd out) = written (cache_name b) bytes w) \/
   (exists e, fst out = skip e /\
      (disk (snd out) = disk w \/
       exists b bytes n, request = Ok b /\
         (forall old, disk w (cache_name b) <> Some (File old)) /\
         disk (snd out) = written (cache_name b) (firstn n bytes) w))).
Proof.
  intros out. assert (Hout : out = POST net mkdir_fault write_fault base64
                                     DOWNLOAD_DIR request w) by reflexivity.
  clearbody out.
  assert (Hnil : exists extra : list jsstring,
             fetched w = fetched w ++ extra /\ length extra <= 2).
  { exists []. rewrite app_nil_r. auto. }
  unfold POST, POST_body in Hout. destruct request as [b|e].
  2:{ subst out. cbn. split; [exact Hnil|]. do 3 right. exists e. auto. }
  unfold bind at 1, lift in Hout.
  destruct (pdfUrl b) as [[|c url]|] eqn:Eu.
  1,3: subst out; cbn; split; [exact Hnil|left; exists b; auto].
  fold (cache_name b) in Hout. unfold bind at 1 in Hout.
  destruct (disk w (cache_name b)) as [[bytes|e]|] eqn:Ed.
  { rewrite (cache_lookup_hit _ _ _ _ _ _ Ed) in Hout. subst out. cbn [ret fst snd].
    split; [exact Hnil|]. right; left. exists b, bytes. auto. }
  all: assert (Hmiss : forall old, disk w (cache_name b) <> Some (File old))
    by (intros old; congruence).
  all: rewrite cache_lookup_miss in Hout by exact Hmiss.
  all: unfold bind at 1 in Hout; unfold fetch at 1 in Hout.
  all: set (dl := download_url b (c :: url)) in *.
  all: set (w1 := {| disk := disk w; fetched := fetched w ++ [dl] |}) in *.
  all: assert (Hone : forall w' extra, fetched w' = fetched w1 ++ extra ->
            length extra <= 1 ->
            exists extra, fetched w' = fetched w ++ extra /\ length extra <= 2)
    by (intros w' extra -> Hl; exists (dl :: extra); cbn [w1 fetched];
        rewrite <- app_assoc; split; [reflexivity|simpl; lia]).
  all: assert (Hw1 : exists extra, fetched w1 = fetched w ++ extra /\ length extra <= 2)
    by (apply (Hone w1 []); [now rewrite app_nil_r|simpl; lia]).
  all: destruct (net (fetched w) dl) as [r|e'];
    [|subst out; cbn [fst snd]; split; [exact Hw1|do 3 right; exists e'; auto]].
  all: destruct (ok r); cbn [negb] in Hout;
    [|subst out; cbn [fst snd ret]; split; [exact Hw1|do 3 right; eexists; auto]].
  all: destruct (includes (header (content_type r)) _).
  all: unfold bind at 1, lift in Hout.
  1,3: destruct (text r) as [html|e'];
    [|subst out; cbn [fst snd]; split; [exact Hw1|do 3 right; exists e'; auto]].
  1,2: destruct (access_denied html);
    [subst out; cbn [fst snd ret]; split; [exact Hw1|do 3 right; eexists; auto]|].
  1,2: unfold bind at 1 in Hout;
    destruct (follow_confirm_cases html (title b) (cache_name b) w1)
      as ((extra & Hf & Hl) & Hc);
    destruct (follow_confirm _ _ _ _ _ html (title b) (cache_name b) w1)
      as [[[r'|]|e'] w2]; subst out; cbn [fst snd ret] in *;
    (split; [exact (Hone _ _ Hf Hl)|]);
    destruct Hc as [([Hc|[(e0 & Hc)|(e0 & Hc)]] & Hd)|
                    [(e0 & bytes & n & Hc & Hd)|(bytes & Hc & Hd)]];
    try discriminate;
    [ inversion Hc; subst r'; do 3 right; exists e0; auto
    | inversion Hc; subst r'; do 3 right; exists e0; split; [reflexivity|];
      right; exists b, bytes, n; auto
    | inversion Hc; subst r'; right; right; left; exists b, bytes; auto
    | do 3 right; eexists; auto
    | do 3 right; exists e'; auto ].
  all: destruct (arrayBuffer r) as [bytes|e'];
    [|subst out; cbn [fst snd]; split; [exact Hw1|do 3 right; exists e'; auto]].
  all: pose proof (savePdfAndRespond_cases bytes (title b) (cache_name b) w1) as Hs;
    cbv zeta in Hs;
    destruct (savePdfAndRespond _ _ _ _ bytes (title b) (cache_name b) w1)
      as [[r'|e'] w2]; subst out; cbn [fst snd] in *;
    destruct Hs as (Hfe & Hs);
    (split; [apply (Hone w2 []); [now rewrite app_nil_r|simpl; lia]|]);
    destruct Hs as [(_ & _ & Hr & Hd)|(e0 & [n|] & _ & Hr & Hd)];
    try discriminate; inversion Hr; subst r';
    [ right; right; left; exists b, bytes; auto
    | do 3 right; eexists; split; [reflexivity|]; right; exists b, bytes, n; auto
    | do 3 right; eexists; auto ].
Qed.



(** X23: a file of the download directory that can be read is never
    changed by the extract handler, whatever the request and the network:
    the handler writes only under the file name of the title of the
    request, and only when no readable file is there. *)
Theorem extract_never_overwrites
    (request : result Body) (w : World) (f : jsstring) (bytes : list Byte.byte) :
  disk w f = Some (File bytes) ->
  disk (snd (POST net mkdir_fault write_fault base64 DOWNLOAD_DIR request w)) f =
  Some (File bytes).
Proof.
  intros Hd. destruct (POST_cases request w) as (_ & Hc). cbv zeta in Hc.
  destruct Hc as [(b & _ & _ & _ & ->)|[(b & old & _ & _ & _ & ->)|
                  [(b & new & _ & Hmiss & _ & ->)|
                   (e & _ & [->|(b & new & n & _ & Hmiss & ->)])]]];
    try exact Hd.
  all: unfold written; destruct (list_eqb f (cache_name b)) eqn:E; [|exact Hd].
  all: apply list_eqb_eq in E; subst f; now apply Hmiss in Hd.
Qed.

(** The handler up to the response of the download, when nothing usable is
    in the directory. *)
Lemma POST_downloads (b : Body) (url : jsstring) (w : World) (r : Response) :
  pdfUrl b = Some url -> url <> [] ->
  (forall old, disk w (cache_name b) <> Some (File old)) ->
  net (fetched w) (download_url b url) = Ok r ->
  ok r = true ->
  let w1 := {| disk := disk w; fetched := fetched w ++ [download_url b url] |} in
  POST_body net mkdir_fault write_fault base64 DOWNLOAD_DIR (Ok b) w =
  if is_html r then
    (html <- lift (text r) ;;
     if access_denied html then
       ret (skip (js "Access denied - no permission to view this PDF"))
     else
       confirmed <- follow_confirm net mkdir_fault write_fault base64 DOWNLOAD_DIR
                      html (title b) (cache_name b) ;;
       match confirmed with
       | Some r => ret r
       | None => ret (skip (js "Received HTML instead of PDF (access restriction)"))
       end) w1
  else
    (buffer <- lift (arrayBuffer r) ;;
     savePdfAndRespond mkdir_fault write_fault base64 DOWNLOAD_DIR
       buffer (title b) (cache_name b)) w1.
Proof.
  intros Hu Hne Hmiss Hnet Hok w1. unfold POST_body, lift.
  unfold bind at 1. rewrite Hu. destruct url as [|c url]; [contradiction|].
  unfold bind at 1. fold (cache_name b).
  rewrite (cache_lookup_miss _ _ _ _ _ Hmiss).
  unfold bind at 1. unfold fetch at 1. rewrite Hnet, Hok. cbn [negb].
  unfold is_html. fold (cache_name b).
  destruct (includes (header (content_type r)) _); reflexivity.
Qed.

(** X2: what a download saved is what the cache serves.  When nothing
    usable is in the directory and the download answers with bytes that are
    saved, the handler answers with these bytes after one fetch; and any later
    request whose title has the same file name is answered from the
    directory with the same bytes, whatever the network and the address of
    that request, without a fetch and without a write. *)
Theorem extract_saved_then_cached
    (b b' : Body) (url url' : jsstring) (w : World) (r : Response)
    (bytes : list Byte.byte)
    (net' : list jsstring -> jsstring -> result Response)
    (mkdir_fault' : option jsstring) (write_fault' : jsstring -> option (jsstring * option nat)) :
  pdfUrl b = Some url -> url <> [] ->
  (forall old, disk w (cache_name b) <> Some (File old)) ->
  net (fetched w) (download_url b url) = Ok r ->
  ok r = true -> is_html r = false -> arrayBuffer r = Ok bytes ->
  mkdir_fault = None -> write_fault (cache_name b) = None ->
  pdfUrl b' = Some url' -> url' <> [] -> cache_name b' = cache_name b ->
  let first := POST net mkdir_fault write_fault base64 DOWNLOAD_DIR (Ok b) w in
  let second := POST net' mkdir_fault' write_fault' base64 DOWNLOAD_DIR (Ok b')
                     (snd first) in
  fst first = Success (title b) (base64 bytes) (length bytes)
                (filepath DOWNLOAD_DIR (cache_name b)) (cache_name b) false /\
  fetched (snd first) = fetched w ++ [download_url b url] /\
  disk (snd first) = written (cache_name b) bytes w /\
  fst second = Success (title b') (base64 bytes) (length bytes)
                 (filepath DOWNLOAD_DIR (cache_name b)) (cache_name b) true /\
  snd second = snd first.
Proof.
  intros Hu Hne Hmiss Hnet Hok Hhtml Hbuf Hmk Hwr Hu' Hne' Hname first second.
  assert (E1 : first =
            (Success (title b) (base64 bytes) (length bytes)
               (filepath DOWNLOAD_DIR (cache_name b)) (cache_name b) false,
             {| disk := written (cache_name b) bytes w;
                fetched := fetched w ++ [download_url b url] |})).
  { unfold first, POST. rewrite (POST_downloads b url w r Hu Hne Hmiss Hnet Hok).
    rewrite Hhtml. unfold bind at 1, lift. rewrite Hbuf.
    unfold savePdfAndRespond, try_catch, bind, mkdir, writeFile, ret.
    rewrite Hmk, Hwr. reflexivity. }
  assert (E2 : second =
            (Success (title b') (base64 bytes) (length bytes)
               (filepath DOWNLOAD_DIR (cache_name b)) (cache_name b) true,
             snd first)).
  { unfold second. rewrite <- Hname. apply (POST_cache_hit _ _ _ _ _ b' url'); auto.
    rewrite E1. cbn [snd disk]. unfold written. rewrite Hname.
    now rewrite list_eqb_refl. }
  rewrite E2, E1. repeat split.
Qed.

(** X3: a PDF that cannot be saved is not delivered.  When the download
    answered with bytes and [mkdir] or [writeFile] fails with [e], the
    handler answers with the skip that carries [e], although it holds the
    bytes, and one address was fetched.  The directory is as it was when
    [mkdir] failed or the file could not be opened.  When the write failed
    after the file was opened, the bytes written so far stay under the file
    name, since nothing removes them; any later request whose title has
    the same file name is then answered from the directory with these
    bytes as a cached success, whatever the network, without a fetch and
    without a write. *)
Theorem extract_save_failure
    (b : Body) (url : jsstring) (w : World) (r : Response)
    (bytes : list Byte.byte) (e : jsstring) (opened : option nat) :
  pdfUrl b = Some url -> url <> [] ->
  (forall old, disk w (cache_name b) <> Some (File old)) ->
  net (fetched w) (download_url b url) = Ok r ->
  ok r = true -> is_html r = false -> arrayBuffer r = Ok bytes ->
  (mkdir_fault = Some e /\ opened = None) \/
  (mkdir_fault = None /\ write_fault (cache_name b) = Some (e, opened)) ->
  let out := POST net mkdir_fault write_fault base64 DOWNLOAD_DIR (Ok b) w in
  fst out = skip (js "Failed to save PDF: " ++ e) /\
  disk (snd out) = left_over (cache_name b) bytes opened w /\
  fetched (snd out) = fetched w ++ [download_url b url] /\
  (opened = None -> disk (snd out) = disk w) /\
  (forall n, opened = Some n ->
     disk (snd out) (cache_name b) = Some (File (firstn n bytes)) /\
     (forall f, f <> cache_name b -> disk (snd out) f = disk w f) /\
     forall (net' : list jsstring -> jsstring -> result Response)
            (mkdir_fault' : option jsstring)
            (write_fault' : jsstring -> option (jsstring * option nat))
            (b' : Body) (url' : jsstring),
       pdfUrl b' = Some url' -> url' <> [] -> cache_name b' = cache_name b ->
       POST net' mkdir_fault' write_fault' base64 DOWNLOAD_DIR (Ok b') (snd out) =
       (Success (title b') (base64 (firstn n bytes)) (length (firstn n bytes))
                (filepath DOWNLOAD_DIR (cache_name b)) (cache_name b) true,
        snd out)).
Proof.
  intros Hu Hne Hmiss Hnet Hok Hhtml Hbuf Hfault out.
  assert (E : out = (skip (js "Failed to save PDF: " ++ e),
                     {| disk := left_over (cache_name b) bytes opened w;
                        fetched := fetched w ++ [download_url b url] |})).
  { unfold out, POST. rewrite (POST_downloads b url w r Hu Hne Hmiss Hnet Hok).
    rewrite Hhtml. unfold bind at 1, lift. rewrite Hbuf.
    unfold savePdfAndRespond, try_catch, bind, mkdir, writeFile, ret.
    destruct Hfault as [[-> ->]|[-> ->]]; [reflexivity|].
    destruct opened; reflexivity. }
  rewrite E. cbn [fst snd disk fetched].
  split; [reflexivity|]. split; [reflexivity|]. split; [reflexivity|].
  split; [now intros ->|]. intros n ->. cbn [left_over]. unfold written at 1 2.
  rewrite list_eqb_refl. split; [reflexivity|]. split.
  - intros f Hf. destruct (list_eqb f (cache_name b)) eqn:Ef; [|reflexivity].
    apply list_eqb_eq in Ef. contradiction.
  - intros net' mkdir_fault' write_fault' b' url' Hu' Hne' Hname.
    rewrite <- Hname. apply (POST_cache_hit _ _ _ _ _ b' url'); auto.
    cbn [disk]. unfold written. rewrite Hname. now rewrite list_eqb_refl.
Qed.

(** X4: the confirm page of a large file.  When the download answers with
    an HTML page without an access-denied phrase, and the first [href]
    attribute in double quotes whose value holds [confirm=] has the value
    [href], the handler fetches a second address, [href] with its [&amp;]
    entities decoded, on the Drive host unless it begins with [http]; when
    that answers with a PDF or an octet stream the bytes are saved and
    delivered, and otherwise (a status that is not OK, or another content
    type) the request is skipped as an HTML answer. *)
Theorem extract_follows_confirm
    (b : Body) (url : jsstring) (w : World) (r r2 : Response)
    (html pre href : jsstring) :
  pdfUrl b = Some url -> url <> [] ->
  (forall old, disk w (cache_name b) <> Some (File old)) ->
  net (fetched w) (download_url b url) = Ok r ->
  ok r = true -> is_html r = true -> text r = Ok html ->
  access_denied html = false ->
  occurs_first confirm_link html pre href ->
  net (fetched w ++ [download_url b url]) (confirm_url href) = Ok r2 ->
  mkdir_fault = None -> write_fault (cache_name b) = None ->
  let out := POST net mkdir_fault write_fault base64 DOWNLOAD_DIR (Ok b) w in
  fetched (snd out) = fetched w ++ [download_url b url; confirm_url href] /\
  (forall bytes, ok r2 = true -> is_pdf r2 = true -> arrayBuffer r2 = Ok bytes ->
     fst out = Success (title b) (base64 bytes) (length bytes)
                 (filepath DOWNLOAD_DIR (cache_name b)) (cache_name b) false /\
     disk (snd out) = written (cache_name b) bytes w) /\
  (ok r2 = false \/ is_pdf r2 = false ->
     fst out = skip (js "Received HTML instead of PDF (access restriction)") /\
     disk (snd out) = disk w).
Proof.
  intros Hu Hne Hmiss Hnet Hok Hhtml Htext Hacc Hlink Hnet2 Hmk Hwr out.
  assert (E : out =
    let w2 := {| disk := disk w;
                 fetched := (fetched w ++ [download_url b url]) ++ [confirm_url href] |} in
    if ok r2 && is_pdf r2 then
      match arrayBuffer r2 with
      | Ok bytes =>
        (Success (title b) (base64 bytes) (length bytes)
           (filepath DOWNLOAD_DIR (cache_name b)) (cache_name b) false,
         {| disk := written (cache_name b) bytes w2; fetched := fetched w2 |})
      | Throws e => (skip e, w2)
      end
    else (skip (js "Received HTML instead of PDF (access restriction)"), w2)).
  { unfold out, POST. rewrite (POST_downloads b url w r Hu Hne Hmiss Hnet Hok).
    rewrite Hhtml. unfold bind at 1, lift. rewrite Htext, Hacc.
    unfold bind at 1. unfold follow_confirm.
    rewrite (search_occurs_first _ _ _ at_confirm_spec _ _ _ Hlink).
    fold (confirm_url href). unfold bind at 1. unfold fetch at 1.
    cbn [fetched disk]. rewrite Hnet2. unfold is_pdf.
    destruct (ok r2); [|reflexivity]. cbn [andb].
    destruct (includes _ _ || includes _ _); [|reflexivity].
    unfold bind at 1, lift. destruct (arrayBuffer r2) as [bytes|e]; [|reflexivity].
    unfold bind at 1.
    unfold savePdfAndRespond, try_catch, bind, mkdir, writeFile, ret.
    rewrite Hmk, Hwr. reflexivity. }
  rewrite E. cbv zeta. split; [|split].
  - destruct (ok r2 && is_pdf r2); [destruct (arrayBuffer r2)|];
      cbn [snd fetched]; now rewrite <- app_assoc.
  - intros bytes -> -> ->. cbn. split; reflexivity.
  - intros H. assert (ok r2 && is_pdf r2 = false) as ->.
    { destruct H as [-> | ->]; [reflexivity|apply andb_false_r]. }
    split; reflexivity.
Qed.

End ExtractMore.

Lemma extract_never_overwrites_witness :
  Extract.disk
    (snd (Extract.POST (Extract.pdf_host [Byte.x00]) None (fun _ => None)
            ExtractSpec.sample_encoder (lit "/app/downloads")
            (Extract.Ok (Extract.direct_request "https://foodhub.co.jp/b.pdf"
                           (lit "かま屋通信 2月号")))
            ExtractSpec.sample_world))
    (lit "かま屋通信_1月号.pdf") = Some (Extract.File ExtractSpec.sample_bytes).
Proof.
  apply (extract_never_overwrites (Extract.pdf_host [Byte.x00]) None (fun _ => None)
           ExtractSpec.sample_encoder (lit "/app/downloads")).
  vm_compute. reflexivity.
Defined.

Lemma extract_saved_then_cached_witness :
  let b := Extract.direct_request "https://foodhub.co.jp/a.pdf" (lit "かま屋通信: 1月号") in
  let b' := Extract.direct_request "https://foodhub.co.jp/b.pdf" (lit "かま屋通信　1月号") in
  let bytes := ExtractSpec.sample_bytes in
  let first := Extract.POST (Extract.pdf_host bytes) None (fun _ => None)
                 ExtractSpec.sample_encoder (lit "/app/downloads")
                 (Extract.Ok b) Extract.empty_world in
  let second := Extract.POST (Extract.html_host (lit "<html>Sign in</html>"))
                  (Some (lit "Error: EACCES")) (fun _ => Some (lit "Error: EACCES", None))
                  ExtractSpec.sample_encoder (lit "/app/downloads")
                  (Extract.Ok b') (snd first) in
  fst first = Extract.Success (Extract.title b) (ExtractSpec.sample_encoder bytes)
                (length bytes)
                (Extract.filepath (lit "/app/downloads") (Extract.cache_name b))
                (Extract.cache_name b) false /\
  Extract.fetched (snd first) =
    Extract.fetched Extract.empty_world ++
    [Extract.download_url b (lit "https://foodhub.co.jp/a.pdf")] /\
  Extract.disk (snd first) =
    ExtractSpec.written (Extract.cache_name b) bytes Extract.empty_world /\
  fst second = Extract.Success (Extract.title b') (ExtractSpec.sample_encoder bytes)
                 (length bytes)
                 (Extract.filepath (lit "/app/downloads") (Extract.cache_name b))
                 (Extract.cache_name b) true /\
  snd second = snd first.
Proof.
  intros b b' bytes.
  refine (extract_saved_then_cached (Extract.pdf_host bytes) None (fun _ => None)
            ExtractSpec.sample_encoder (lit "/app/downloads")
            b b' (lit "https://foodhub.co.jp/a.pdf") (lit "https://foodhub.co.jp/b.pdf")
            Extract.empty_world _ bytes
            (Extract.html_host (lit "<html>Sign in</html>"))
            (Some (lit "Error: EACCES")) (fun _ => Some (lit "Error: EACCES", None))
            _ _ _ _ _ _ _ _ _ _ _ _).
  - reflexivity.
  - vm_compute. discriminate.
  - intros old. vm_compute. discriminate.
  - reflexivity.
  - reflexivity.
  - vm_compute. reflexivity.
  - reflexivity.
  - reflexivity.
  - reflexivity.
  - reflexivity.
  - vm_compute. discriminate.
  - vm_compute. reflexivity.
Defined.

Lemma extract_save_failure_witness :
  let b := Extract.direct_request "https://foodhub.co.jp/a.pdf" (lit "かま屋通信 1月号") in
  let b' := Extract.direct_request "https://foodhub.co.jp/b.pdf" (lit "かま屋通信　1月号") in
  let out := Extract.POST (Extract.pdf_host ExtractSpec.sample_bytes) None
               (fun _ => Some (lit "Error: ENOSPC: no space left on device", Some 2))
               ExtractSpec.sample_encoder (lit "/app/downloads")
               (Extract.Ok b) Extract.empty_world in
  fst out = Extract.skip (lit "Failed to save PDF: " ++
                          lit "Error: ENOSPC: no space left on device") /\
  Extract.disk (snd out) (lit "かま屋通信_1月号.pdf") =
    Some (Extract.File (firstn 2 ExtractSpec.sample_bytes)) /\
  Extract.fetched (snd out) =
    Extract.fetched Extract.empty_world ++
    [Extract.download_url b (lit "https://foodhub.co.jp/a.pdf")] /\
  Extract.POST (Extract.pdf_host ExtractSpec.sample_bytes) None (fun _ => None)
    ExtractSpec.sample_encoder (lit "/app/downloads") (Extract.Ok b') (snd out) =
  (Extract.Success (lit "かま屋通信　1月号")
     (ExtractSpec.sample_encoder (firstn 2 ExtractSpec.sample_bytes)) 2
     (lit "/app/downloads/かま屋通信_1月号.pdf") (lit "かま屋通信_1月号.pdf") true,
   snd out).
Proof.
  intros b b'.
  pose proof (extract_save_failure (Extract.pdf_host ExtractSpec.sample_bytes) None
            (fun _ => Some (lit "Error: ENOSPC: no space left on device", Some 2))
            ExtractSpec.sample_encoder (lit "/app/downloads")
            b (lit "https://foodhub.co.jp/a.pdf") Extract.empty_world
            {| Extract.ok := true; Extract.status := 200;
               Extract.content_type := Some (lit "application/pdf");
               Extract.text := Extract.Throws (lit "TypeError: body is not text");
               Extract.arrayBuffer := Extract.Ok ExtractSpec.sample_bytes |}
            ExtractSpec.sample_bytes (lit "Error: ENOSPC: no space left on device")
            (Some 2)) as H.
  cbv zeta in H.
  destruct H as (Hr & _ & Hf & _ & Hn).
  - reflexivity.
  - vm_compute. discriminate.
  - intros old. vm_compute. discriminate.
  - reflexivity.
  - reflexivity.
  - vm_compute. reflexivity.
  - reflexivity.
  - right. split; reflexivity.
  - destruct (Hn 2 eq_refl) as (Hd & _ & Hlater).
    intros out. split; [exact Hr|]. split; [exact Hd|]. split; [exact Hf|].
    apply (Hlater (Extract.pdf_host ExtractSpec.sample_bytes) None (fun _ => None)
             b' (lit "https://foodhub.co.jp/b.pdf")).
    + reflexivity.
    + vm_compute. discriminate.
    + vm_compute. reflexivity.
Defined.

Lemma extract_follows_confirm_witness :
  let b := Extract.drive_request "https://drive.google.com/file/d/1AbC/view"
             "かま屋通信 1月号" in
  let dl := Extract.download_url b (lit "https://drive.google.com/file/d/1AbC/view") in
  let href := lit "/uc?export=download&amp;confirm=t&amp;id=1AbC" in
  let net := ExtractSpec.confirm_host ExtractSpec.confirm_page ExtractSpec.sample_bytes in
  let out := Extract.POST net None (fun _ => None)
               ExtractSpec.sample_encoder (lit "/app/downloads")
               (Extract.Ok b) Extract.empty_world in
  ExtractSpec.confirm_url href =
    lit "https://drive.google.com/uc?export=download&confirm=t&id=1AbC" /\
  Extract.fetched (snd out) =
    Extract.fetched Extract.empty_world ++ [dl; ExtractSpec.confirm_url href] /\
  fst out = Extract.Success (Extract.title b)
              (ExtractSpec.sample_encoder ExtractSpec.sample_bytes)
              (length ExtractSpec.sample_bytes)
              (Extract.filepath (lit "/app/downloads") (Extract.cache_name b))
              (Extract.cache_name b) false /\
  Extract.disk (snd out) =
    ExtractSpec.written (Extract.cache_name b) ExtractSpec.sample_bytes
      Extract.empty_world.
Proof.
  intros b dl href net out.
  split; [vm_compute; reflexivity|].
  assert (H := extract_follows_confirm net None (fun _ => None)
            ExtractSpec.sample_encoder (lit "/app/downloads")
            b (lit "https://drive.google.com/file/d/1AbC/view") Extract.empty_world
            (Extract.html_page ExtractSpec.confirm_page)
            {| Extract.ok := true; Extract.status := 200;
               Extract.content_type := Some (lit "application/pdf");
               Extract.text := Extract.Throws (lit "TypeError: body is not text");
               Extract.arrayBuffer := Extract.Ok ExtractSpec.sample_bytes |}
            ExtractSpec.confirm_page (lit "<html><a id='dl' ") href).
  cbv beta in H.
  assert (Hfirst : occurs_first ExtractSpec.confirm_link ExtractSpec.confirm_page
                     (lit "<html><a id='dl' ") href).
  { apply (occurs_first_by_eval _ _ _ at_confirm_spec) with
      (rest := skipn 17 ExtractSpec.confirm_page); vm_compute; reflexivity. }
  destruct (H eq_refl ltac:(vm_compute; discriminate)
              ltac:(intros old; vm_compute; discriminate)
              eq_refl eq_refl ltac:(vm_compute; reflexivity) eq_refl
              ltac:(vm_compute; reflexivity) Hfirst eq_refl eq_refl eq_refl)
    as (Hf & Hs & _).
  split; [exact Hf|].
  exact (Hs ExtractSpec.sample_bytes eq_refl ltac:(vm_compute; reflexivity) eq_refl).
Defined.

Section ExtractPure.
Import Extract ExtractSpec.

Lemma search_skip (A : Type) (at_pos : jsstring -> option A) (c : char16) (s : jsstring) :
  at_pos (c :: s) = None -> search at_pos (c :: s) = search at_pos s.
Proof. intros H. cbn [search]. now rewrite H. Qed.

Lemma at_file_d_no_slash (s : jsstring) :
  Forall (fun c => c <> SLASH) s -> search at_file_d s = None.
Proof.
  induction 1 as [|c s Hc _ IH]; [reflexivity|].
  rewrite search_skip; [exact IH|].
  unfold at_file_d, FILE_D. cbn [strip_prefix].
  destruct (N.eqb_spec 47 c) as [E|_]; [|reflexivity].
  exfalso. apply Hc. now rewrite <- E.
Qed.

(** X5: the download address of an identifier is a fixed point.  For an
    identifier without slash and without ampersand, the address that the
    function builds for it is returned as it is when it is given to the
    function again. *)
Theorem getGoogleDriveDownloadUrl_fixed_point (id : jsstring) :
  Forall (fun c => c <> SLASH) id ->
  Forall (fun c => c <> AMP) id ->
  getGoogleDriveDownloadUrl (UC_DOWNLOAD ++ id) = UC_DOWNLOAD ++ id.
Proof.
  intros Hs Ha. unfold getGoogleDriveDownloadUrl.
  assert (E1 : search at_file_d (UC_DOWNLOAD ++ id) = None).
  { unfold UC_DOWNLOAD. cbn [app].
    repeat (rewrite search_skip by reflexivity).
    now apply at_file_d_no_slash. }
  rewrite E1.
  destruct id as [|c id].
  - reflexivity.
  - assert (E2 : search at_query_id (UC_DOWNLOAD ++ c :: id) = Some (c :: id)).
    { unfold UC_DOWNLOAD. cbn [app].
      repeat (rewrite search_skip by reflexivity).
      cbn [search].
      match goal with
      | |- match ?x with _ => _ end = _ => assert (E : x = Some (c :: id))
      end.
      { apply at_query_id_spec. exists AMP, []. rewrite app_nil_r.
        split; [reflexivity|]. split; [now right|]. split; [discriminate|].
        split; [exact Ha|now left]. }
      now rewrite E. }
    now rewrite E2.
Qed.

Lemma getGoogleDriveDownloadUrl_fixed_point_witness :
  getGoogleDriveDownloadUrl (UC_DOWNLOAD ++ lit "1AbC_d-9") = UC_DOWNLOAD ++ lit "1AbC_d-9".
Proof.
  apply (getGoogleDriveDownloadUrl_fixed_point (lit "1AbC_d-9"));
    vm_compute; repeat constructor; discriminate.
Defined.

(** X6: the titles that are their own file name are exactly those of at most
    100 code units without a disallowed character and without white
    space. *)
Theorem sanitizeFilename_fixed_points (t : jsstring) :
  sanitizeFilename t = t <-> safe_title t.
Proof.
  unfold safe_title. split.
  - intros E. split.
    + apply Forall_forall. intros c Hc. rewrite <- E in Hc.
      now apply sanitizeFilename_chars in Hc.
    + rewrite <- E. unfold sanitizeFilename, substring0. rewrite length_firstn. lia.
  - intros [Hc Hl]. unfold sanitizeFilename, substring0.
    rewrite filter_id, replace_spaces_id.
    + now apply firstn_all2.
    + eapply Forall_impl; [|exact Hc]. now intros c [_ H].
    + eapply Forall_impl; [|exact Hc]. intros c [H _]. cbv beta. now rewrite H.
Qed.

End ExtractPure.

(** ** The analyze endpoint *)

Section AnalyzeMore.
Import Json Analyze AnalyzeSpec.
Import Extract (result, Ok, Throws).

Variable generateContent : jsstring -> jsstring -> result jsstring.

Lemma parsed_reply_status (t : jsstring) (parsed : result json) (e : jsstring) :
  parsed_reply t parsed <> Failure 400 e.
Proof.
  unfold parsed_reply, field.
  destruct parsed as [v|e']; [|discriminate].
  repeat match goal with
         | |- context [get v ?k] => destruct (get v k)
         end; discriminate.
Qed.

(** X7: the analyze handler answers with status 400 exactly when the body
    of the request can be read and lacks the PDF, its data or the key;
    neither the model nor the parser can make it do so. *)
Theorem analyze_bad_request (JSON_parse : jsstring -> result json)
    (request : result Body) :
  (exists e, POST generateContent JSON_parse request = Failure 400 e) <->
  (exists b, request = Ok b /\ incomplete b).
Proof.
  unfold POST, incomplete. split.
  - intros [e H]. destruct request as [b|e']; [|discriminate].
    exists b. split; [reflexivity|].
    destruct (pdf b) as [p|]; [|now left].
    destruct (pdfBase64 p) eqn:Ep; [right; left; now exists p|].
    destruct (apiKey b) eqn:Ek; [now right; right|].
    exfalso. destruct (generateContent _ _) as [text|e']; [|discriminate].
    unfold respond in H. destruct (jsonMatch text); [|discriminate].
    now apply parsed_reply_status in H.
  - intros (b & -> & [Hp|[(p & Hp & Hd)|Hk]]).
    + rewrite Hp. now eexists.
    + rewrite Hp, Hd. now eexists.
    + destruct (pdf b) as [p|]; [|now eexists].
      destruct (pdfBase64 p); [now eexists|]. rewrite Hk. now eexists.
Qed.

Lemma stringify_object_braces (fields : list (jsstring * json)) :
  exists body, JsonText.JSON_stringify (JObject fields) = LBRACE :: body ++ [RBRACE].
Proof.
  unfold JsonText.JSON_stringify. destruct fields as [|kv fields].
  - exists []. reflexivity.
  - pose proof (stringify_object 0 kv fields []) as E. rewrite app_nil_r in E.
    rewrite E.
    exists (JsonText.NEWLINE ::
              JsonText.lines (0 + 2) (map (JsonText.member_text (0 + 2)) (kv :: fields))
              ++ [JsonText.NEWLINE]).
    cbn [JsonText.spaces repeat app]. rewrite <- app_assoc. reflexivity.
Qed.

(** X8: the endpoint with the JSON reader behind it.  When the model
    answers with an object as [JSON.stringify] writes it, wrapped in text
    that holds no opening brace before it and no closing brace after it,
    the answer carries the four lists of that object, the empty list
    standing for a missing or falsy one. *)
Theorem analyze_reads_printed_object
    (b : Body) (p : Pdf) (pre post : jsstring) (fields : list (jsstring * json)) :
  answered generateContent b p
    (pre ++ JsonText.JSON_stringify (JObject fields) ++ post) ->
  ~ In LBRACE pre -> ~ In RBRACE post ->
  JsonText.printable (JObject fields) ->
  POST generateContent JsonText.JSON_parse (Ok b) = Analysed (title p) (data_of fields).
Proof.
  intros (Hp & Hb & Hk & Hg) Hpre Hpost Hprint.
  unfold POST. rewrite Hp.
  destruct (pdfBase64 p); [contradiction|].
  destruct (apiKey b) eqn:Ek; [contradiction|].
  rewrite Hg. unfold respond.
  destruct (stringify_object_braces fields) as [body E].
  rewrite E. cbn [app]. rewrite <- app_assoc. cbn [app].
  rewrite (jsonMatch_found _ _ _ Hpre Hpost). rewrite <- E.
  rewrite (JSON_round_trip _ Hprint). reflexivity.
Qed.

End AnalyzeMore.

Lemma analyze_reads_printed_object_witness :
  Analyze.POST
    (Analyze.sample_model
       (lit "結果: " ++ JsonText.JSON_stringify (Json.JObject AnalyzeSpec.sample_fields)
        ++ lit " 以上"))
    JsonText.JSON_parse (Extract.Ok Analyze.sample_body) =
  Analyze.Analysed (lit "かま屋通信 1月号")
    {| Analyze.ingredients := Json.JArray [Json.JString (lit "大根"); Json.JString (lit "人参")];
       Analyze.dishes := Json.JArray [];
       Analyze.cookingMethods := Json.JArray [];
       Analyze.seasons := Json.JArray [] |}.
Proof.
  refine (analyze_reads_printed_object
            (Analyze.sample_model
               (lit "結果: " ++ JsonText.JSON_stringify (Json.JObject AnalyzeSpec.sample_fields)
                ++ lit " 以上"))
            Analyze.sample_body
            {| Analyze.title := lit "かま屋通信 1月号"; Analyze.pdfBase64 := lit "JVBERi0=" |}
            (lit "結果: ") (lit " 以上") AnalyzeSpec.sample_fields _ _ _ _).
  - repeat split; vm_compute; discriminate.
  - vm_compute. intuition discriminate.
  - vm_compute. intuition discriminate.
  - split; [|cbn; tauto].
    repeat constructor; cbn; intuition discriminate.
Defined.

(** ** The details of an article *)

Section ScrapeMore.
Import Scrape ScrapeSpec.
Import Extract (result, Ok, Throws, Response, ok, text).

Variable net : jsstring -> result Response.
Variable h1_text : jsstring -> jsstring.
Variable title_text : jsstring -> jsstring.

Lemma padStart0_two (m : jsstring) :
  one_or_two m -> all_digits m ->
  length (padStart0 2 m) = 2 /\ all_digits (padStart0 2 m).
Proof.
  unfold padStart0, one_or_two, all_digits.
  intros [H|H] Hd; rewrite H; cbn [Nat.sub repeat app].
  - split; [cbn; now rewrite H|]. constructor; [reflexivity|exact Hd].
  - split; [exact H|exact Hd].
Qed.

Lemma format_date_iso (s : jsstring) (ymd : jsstring * jsstring * jsstring) :
  explicit_date s ymd -> iso_date (format_date ymd).
Proof.
  destruct ymd as [[y m] d]. intros (rest & _ & Hl & Hy & Hm1 & Hm2 & Hd1 & Hd2).
  destruct (padStart0_two m Hm1 Hm2) as [? ?].
  destruct (padStart0_two d Hd1 Hd2) as [? ?].
  exists y, (padStart0 2 m), (padStart0 2 d). repeat split; auto.
Qed.

Lemma format_issue_iso (s : jsstring) (ym : jsstring * jsstring) :
  issue_label s ym -> iso_date (format_issue ym).
Proof.
  destruct ym as [y m]. intros (rest & _ & Hl & Hy & Hm1 & Hm2).
  destruct (padStart0_two m Hm1 Hm2) as [? ?].
  exists y, (padStart0 2 m), (js "01"). repeat split; auto.
  repeat constructor.
Qed.

Lemma articleDate_iso (html t : jsstring) :
  articleDate html t = [] \/ iso_date (articleDate html t).
Proof.
  unfold articleDate.
  destruct (search at_date html) as [ymd|] eqn:Ed.
  - apply (search_Some_occurs _ _ _ at_date_spec) in Ed as (pre & rest & _ & H & _).
    pose proof (format_date_nonempty _ _ H) as Hne.
    apply format_date_iso in H.
    destruct (format_date ymd) eqn:E; [contradiction|].
    destruct (search at_issue t); now right.
  - destruct (search at_issue t) as [ym|] eqn:Ei; [|now left].
    apply (search_Some_occurs _ _ _ at_issue_spec) in Ei as (pre & rest & _ & H & _).
    right. now apply format_issue_iso in H.
Qed.

(** X9: whatever the site answers, the article that is returned keeps the
    address that was asked for, its date is empty or written [YYYY-MM-DD]
    with digits, and when the page could not be fetched or is empty its
    title and its date are empty. *)
Theorem fetchArticleDetails_shape (u : jsstring) :
  let a := fetchArticleDetails net h1_text title_text u in
  url a = u /\
  (date a = [] \/ iso_date (date a)) /\
  (fetchPage net u = None \/ fetchPage net u = Some [] ->
   title a = [] /\ date a = []).
Proof.
  unfold fetchArticleDetails.
  destruct (fetchPage net u) as [[|c html]|]; cbn.
  - split; [reflexivity|]. split; [now left|]. auto.
  - split; [reflexivity|]. split; [apply articleDate_iso|].
    intros [H|H]; discriminate.
  - split; [reflexivity|]. split; [now left|]. auto.
Qed.

End ScrapeMore.

(** ** The analysis run of the page *)

Section PageMore.
Import Json Page PageSpec.

Lemma on_outcome_progress (pdf : PdfData) (i n : N) (o : FetchOutcome) (a : Acc) :
  progress (ui (fst (on_outcome pdf i n o a))) = progress (ui a).
Proof.
  assert (Hcatch : forall ms e,
            progress (ui (fst (inner_catch pdf ms a e))) = progress (ui a)).
  { intros ms e. now destruct e. }
  destruct o as [e|data]; cbn [on_outcome]; [apply Hcatch|].
  unfold on_reply.
  destruct (get data _) as [ok|e]; [|apply Hcatch].
  destruct (truthy ok); [|reflexivity].
  destruct (get data _) as [[d|]|e]; [|reflexivity|apply Hcatch].
  destruct (truthy (Some d)); [|reflexivity].
  destruct (count_data d (maps a)) as [ms [e|]]; [apply Hcatch|reflexivity].
Qed.

Lemma loop_progress (env : nat -> Turn) (n : N) (pdfs : list PdfData) :
  forall (i : nat) (a a' : Acc),
  loop env n i pdfs a = (a', None) -> pdfs <> [] ->
  progress (ui a') = (N.of_nat (i + length pdfs), n).
Proof.
  induction pdfs as [|pdf rest IH]; intros i a a' H Hne; [contradiction|].
  cbn [loop] in H.
  destruct (aborted_at_check (env i)); [discriminate|].
  set (a1 := with_progress (N.of_nat i + 1) n a) in H.
  pose proof (on_outcome_progress pdf (N.of_nat i) n (outcome (env i)) a1) as Hp.
  destruct (on_outcome pdf (N.of_nat i) n (outcome (env i)) a1) as [a2 [e|]];
    [discriminate|].
  destruct (aborted_in_wait (env i)); [discriminate|].
  cbn [fst] in Hp. destruct rest as [|pdf' rest].
  - cbn [loop] in H. inversion H; subst a'. rewrite Hp. cbn.
    f_equal. lia.
  - rewrite (IH (S i) a2 a' H) by discriminate. f_equal. cbn [length]. lia.
Qed.

(** X10: how a run of [handleAnalyze] can end.  Without a key or without
    documents only the error cell is written.  Otherwise, whatever the
    network and the replies do, the run ends in the [complete] step with
    results, the error cell and the list of documents are as they were and
    the controller is released: no failure of a document reaches the outer
    handler. *)
Theorem handleAnalyze_outcomes (env : nat -> Turn) (s : State) :
  let s' := handleAnalyze env s in
  (apiKey s = [] \/ pdfDataList s = [] ->
   exists message, s' = setError (Some message) s) /\
  (apiKey s <> [] -> pdfDataList s <> [] ->
   step s' = complete /\ results s' <> None /\ error s' = error s /\
   pdfDataList s' = pdfDataList s /\ abortControllerRef s' = false).
Proof.
  unfold handleAnalyze. cbv zeta. split.
  - intros [H|H].
    + rewrite H. now eexists.
    + rewrite H. destruct (apiKey s); now eexists.
  - intros Hk Hp.
    destruct (apiKey s) as [|c key] eqn:Ek; [contradiction|].
    destruct (pdfDataList s) as [|p ps] eqn:Ep; [contradiction|].
    match goal with
    | |- context [loop env ?n 0 ?pdfs ?start] =>
      destruct (loop_inv env n pdfs 0 start good_maps_empty) as (_ & He & Hf);
      destruct (loop env n 0 pdfs start) as [a thrown]
    end.
    cbn [fst snd ui] in He, Hf.
    destruct Hf as (_ & _ & Herr & Hpdf & _).
    cbn [error pdfDataList addLog setProgress setStep setController] in Herr, Hpdf.
    destruct He as [-> | [-> | ->]];
      cbn [step results error pdfDataList abortControllerRef
           setController setStep setResults addLog];
      (split; [reflexivity|]); (split; [discriminate|]);
      (split; [exact Herr|]); (split; [now rewrite Hpdf|reflexivity]).
Qed.

(** X11: a run that meets no cancellation and whose replies carry lists of
    strings ends with the aggregation of all analysed documents; the last
    line of the log counts them as successes and the other documents as
    errors, the two counts adding up to the number of documents; and the
    progress stands at the end. *)
Theorem handleAnalyze_completed (env : nat -> Turn) (s : State) :
  apiKey s <> [] -> pdfDataList s <> [] ->
  (forall i, i < length (pdfDataList s) -> calm (env i)) ->
  (forall i, i < length (pdfDataList s) -> readable (env i)) ->
  let n := length (pdfDataList s) in
  let s' := handleAnalyze env s in
  let docs := analyses env n in
  length docs <= n /\
  results s' = Some (expected_report docs) /\
  step s' = complete /\
  last (logs s') [] = finish_line (N.of_nat (length docs))
                                  (N.of_nat (n - length docs)) /\
  progress s' = (N.of_nat n, N.of_nat n).
Proof.
  intros Hk Hp Hcalm Hread n s' docs. subst s'. unfold handleAnalyze.
  destruct (apiKey s) as [|c key] eqn:Ek; [contradiction|].
  destruct (pdfDataList s) as [|p ps] eqn:Ep; [contradiction|].
  cbv zeta.
  cbn [pdfDataList addLog setProgress setStep setController].
  rewrite Ep.
  match goal with
  | |- context [loop env ?m 0 (p :: ps) ?start] =>
    destruct (loop_completed env m (p :: ps) 0 start Hcalm Hread)
      as (a' & E & Hm & Hs & Hse & _);
    pose proof (loop_progress env m (p :: ps) 0 start a' E) as Hpr;
    rewrite E
  end.
  fold n in Hm, Hs, Hse, Hpr. fold (analyses env n) in Hm, Hs. fold docs in Hm, Hs.
  cbn [maps successCount errorCount ui N.add] in Hm, Hs, Hse.
  assert (Hle : length docs <= n) by lia.
  assert (He : errorCount a' = N.of_nat (n - length docs)) by lia.
  split; [exact Hle|].
  cbn [step results logs progress setController setStep setResults addLog].
  rewrite Hm, report_counted, last_last, Hs, He.
  repeat split. apply Hpr. discriminate.
Qed.

Lemma handleAnalyze_completed_witness :
  let n := length (pdfDataList sample_state) in
  let s' := handleAnalyze (sample_env false) sample_state in
  let docs := analyses (sample_env false) n in
  length docs <= n /\
  results s' = Some (expected_report docs) /\
  step s' = complete /\
  last (logs s') [] = finish_line (N.of_nat (length docs))
                                  (N.of_nat (n - length docs)) /\
  progress s' = (N.of_nat n, N.of_nat n).
Proof.
  apply (handleAnalyze_completed (sample_env false) sample_state).
  - vm_compute. discriminate.
  - vm_compute. discriminate.
  - intros i Hi. change (length (pdfDataList sample_state)) with 3 in Hi.
    assert (i = 0 \/ i = 1 \/ i = 2) as [-> | [-> | ->]] by lia;
      vm_compute; repeat split.
  - intros i Hi. change (length (pdfDataList sample_state)) with 3 in Hi.
    assert (i = 0 \/ i = 1 \/ i = 2) as [-> | [-> | ->]] by lia;
      vm_compute; try discriminate; exact I.
Defined.

Lemma insert_desc_filter (c : N) (x : jsstring * N) (l : list (jsstring * N)) :
  filter (fun e => (snd e =? c)%N) (insert_desc x l) =
  if (snd x =? c)%N then x :: filter (fun e => (snd e =? c)%N) l
  else filter (fun e => (snd e =? c)%N) l.
Proof.
  induction l as [|y rest IH]; cbn [insert_desc filter].
  - now destruct (snd x =? c)%N.
  - destruct (N.ltb_spec (snd x) (snd y)) as [Hlt|Hge]; cbn [filter].
    + rewrite IH.
      destruct (N.eqb_spec (snd y) c) as [Ey|_]; [|reflexivity].
      destruct (N.eqb_spec (snd x) c) as [Ex|_]; [lia|reflexivity].
    + reflexivity.
Qed.

(** X12: what [sortMap] does to the entries of a map besides ordering them
    by count: the ranking holds the same entries, and the entries of one
    count stand in the order in which their keys entered the map. *)
Theorem sortMap_stable (m : Map) :
  Permutation (sortMap m) (map item_of m) /\
  forall c : N,
    filter (fun it => (count it =? c)%N) (sortMap m) =
    map item_of (filter (fun e => (snd e =? c)%N) m).
Proof.
  unfold sortMap. fold item_of. split.
  - apply Permutation_map. apply sort_desc_perm.
  - intros c.
    assert (H : forall l, filter (fun it => (count it =? c)%N) (map item_of l) =
                          map item_of (filter (fun e => (snd e =? c)%N) l)).
    { induction l as [|e l IH]; [reflexivity|]. cbn [map filter item_of count].
      rewrite IH. now destruct (snd e =? c)%N. }
    rewrite H. f_equal.
    induction m as [|e m IH]; [reflexivity|].
    unfold sort_desc in *. cbn [fold_right filter].
    rewrite insert_desc_filter, IH. reflexivity.
Qed.

Lemma count_items_bad (terms : list jsstring) (bad : json) (rest : list json) (m : Map) :
  not_a_string bad ->
  exists e, count_items (map JString terms ++ bad :: rest) m =
            (fold_left (fun m k => increment k m) (keys terms) m, Some (OtherError e)).
Proof.
  intros Hbad. revert m; induction terms as [|s terms IH]; intros m.
  - cbn. destruct bad; try contradiction; now eexists.
  - unfold keys in *. cbn [map app count_items filter].
    destruct (trim s) as [|c t]; cbn [fold_left]; apply IH.
Qed.

(** X13: a document that fails in the middle of its lists is counted as an
    error, and the terms read before the failure stay in the report.  For a
    run over one document whose reply is a success whose list of
    ingredients holds a value that is not a string, the ranking of the
    ingredients is the one of the terms before that value, the other
    rankings are empty, and the last line of the log counts no success and
    one error. *)
Theorem handleAnalyze_partial_counts
    (env : nat -> Turn) (s : State) (pdf : PdfData) (data d bad : json)
    (terms : list jsstring) (rest : list json) :
  apiKey s <> [] -> pdfDataList s = [pdf] ->
  calm (env 0) -> outcome (env 0) = Replied data ->
  truthy (prop data (js "success")) = true ->
  prop data (js "data") = Some d -> truthy (Some d) = true ->
  prop d (js "ingredients") = Some (JArray (map JString terms ++ bad :: rest)) ->
  not_a_string bad ->
  let s' := handleAnalyze env s in
  results s' = Some (expected_report [only_ingredients terms]) /\
  step s' = complete /\
  last (logs s') [] = finish_line 0 1.
Proof.
  intros Hk Hp (Hc & _ & Hw) Ho Hok Hd Hdt Hi Hbad s'. subst s'.
  unfold handleAnalyze.
  destruct (apiKey s) as [|c key] eqn:Ek; [contradiction|].
  rewrite Hp. cbv zeta.
  cbn [pdfDataList addLog setProgress setStep setController].
  rewrite Hp. cbn [loop]. rewrite Hc, Ho. cbn [on_outcome]. unfold on_reply.
  unfold prop in Hok, Hd, Hi.
  destruct (get data (js "success")) as [ok|e]; [|discriminate].
  rewrite Hok.
  destruct (get data (js "data")) as [dd|e]; [|discriminate]. subst dd.
  rewrite Hdt. cbn [maps with_progress].
  unfold count_data, count_field. cbn [ingredientsMap empty_maps].
  destruct (get d (js "ingredients")) as [v|e]; [|discriminate]. subst v.
  cbn [or_empty truthy iterate].
  destruct (count_items_bad terms bad rest [] Hbad) as [e ->].
  cbn [inner_catch note_error fst snd]. rewrite Hw.
  cbn [step results logs maps successCount errorCount ui
       setController setStep setResults addLog].
  rewrite last_last.
  split; [|split; reflexivity].
  unfold report, expected_report, only_ingredients, ranking_of.
  cbn [ingredientsMap dishesMap cookingMethodsMap seasonsMap empty_maps
       flat_map a_ingredients a_dishes a_cookingMethods a_seasons app].
  rewrite app_nil_r. reflexivity.
Qed.

Lemma handleAnalyze_partial_counts_witness :
  let s' := handleAnalyze sample_bad_env sample_one in
  results s' = Some (expected_report [only_ingredients [lit "大根"; lit " 人参 "]]) /\
  step s' = complete /\
  last (logs s') [] = finish_line 0 1.
Proof.
  refine (handleAnalyze_partial_counts sample_bad_env sample_one
            (sample_pdf "かま屋通信 1月号") sample_bad_reply
            (JObject [(lit "ingredients",
                      JArray [JString (lit "大根"); JString (lit " 人参 ");
                              JNumber (Int 3); JString (lit "白菜")]);
                     (lit "dishes", JArray [JString (lit "おでん")])])
            (JNumber (Int 3)) [lit "大根"; lit " 人参 "] [JString (lit "白菜")]
            _ _ _ _ _ _ _ _ _).
  - vm_compute. discriminate.
  - reflexivity.
  - vm_compute. repeat split.
  - reflexivity.
  - vm_compute. reflexivity.
  - vm_compute. reflexivity.
  - reflexivity.
  - vm_compute. reflexivity.
  - exact I.
Defined.

(** X14: what [loadReportFromJson] does with a file, whatever [JSON.parse]
    gives for its text.  Either the text is JSON whose four properties of a
    report are there and truthy: then they become the results as they are
    and the name of the file is logged, and after that one of three things
    happens.  Without a truthy [generatedAt] the step is [complete] and the
    error cell is left as it was.  With a [generatedAt] that [new Date] can
    convert, its local form is logged as well before the step is
    [complete].  With a [generatedAt] that cannot be converted to a
    primitive (an object with a member [toString], or an array that holds
    one) the conversion throws after the results and the log were written:
    the error cell gets the [TypeError] and the step is left as it was.  Or
    the text is anything else: then only the error cell is written. *)
Theorem loadReportFromJson_outcomes
    (JSON_parse : jsstring -> Extract.result json)
    (toLocaleString : json -> jsstring) (fileName text : jsstring) (s : State) :
  let s' := onload toLocaleString JSON_parse fileName text s in
  let loaded (r : AnalysisResults) :=
    addLog (js "レポートを読み込みました: " ++ fileName) (setResults (Some r) s) in
  loadReportFromJson toLocaleString (Some (fileName, text)) s =
    onload toLocaleString JsonText.JSON_parse fileName text s /\
  loadReportFromJson toLocaleString None s = s /\
  ((exists v r, JSON_parse text = Extract.Ok v /\ report_like v r /\
      ((truthy (prop v (js "generatedAt")) = false /\
        s' = setStep complete (loaded r)) \/
       (exists g, prop v (js "generatedAt") = Some g /\ truthy (Some g) = true /\
          no_primitive g = false /\
          s' = setStep complete
                 (addLog (js "  生成日時: " ++ toLocaleString g) (loaded r))) \/
       (exists g, prop v (js "generatedAt") = Some g /\ no_primitive g = true /\
          s' = setError
                 (Some (js "JSONファイルの読み込みに失敗しました: TypeError: Cannot convert object to primitive value"))
                 (loaded r) /\
          results s' = Some r /\ step s' = step s /\
          logs s' = logs s ++ [js "レポートを読み込みました: " ++ fileName]))) \/
   ((forall v r, JSON_parse text = Extract.Ok v -> ~ report_like v r) /\
    exists message, s' = setError (Some message) s)).
Proof.
  intros s' loaded. split; [reflexivity|]. split; [reflexivity|].
  unfold s', loaded, onload. clear s' loaded. cbv zeta.
  destruct (JSON_parse text) as [v|e].
  2:{ right. split; [intros v r H; discriminate|now eexists]. }
  unfold report_like, prop.
  destruct (get v (js "ingredients")) as [i|e] eqn:Ei.
  2:{ right. split; [|now eexists]. intros v0 r E. inversion E; subst v0.
      rewrite Ei. intros (H & _). discriminate. }
  unfold prop_of.
  destruct i as [i|];
    [|right; split; [|now eexists]; intros v0 r E; inversion E; subst v0;
      rewrite Ei; intros (H & _); discriminate].
  destruct (get v (js "dishes")) as [[d|]|e'] eqn:Ed;
    [| right; split; [|now eexists]; intros v0 r E; inversion E; subst v0;
       rewrite Ed; intros (_ & H & _); discriminate
     | right; split; [|now eexists]; intros v0 r E; inversion E; subst v0;
       rewrite Ed; intros (_ & H & _); discriminate].
  destruct (get v (js "cookingMethods")) as [[c|]|e'] eqn:Ec;
    [| right; split; [|now eexists]; intros v0 r E; inversion E; subst v0;
       rewrite Ec; intros (_ & _ & H & _); discriminate
     | right; split; [|now eexists]; intros v0 r E; inversion E; subst v0;
       rewrite Ec; intros (_ & _ & H & _); discriminate].
  destruct (get v (js "seasons")) as [[z|]|e'] eqn:Ez;
    [| right; split; [|now eexists]; intros v0 r E; inversion E; subst v0;
       rewrite Ez; intros (_ & _ & _ & H & _); discriminate
     | right; split; [|now eexists]; intros v0 r E; inversion E; subst v0;
       rewrite Ez; intros (_ & _ & _ & H & _); discriminate].
  destruct (truthy (Some i) && truthy (Some d) && truthy (Some c) && truthy (Some z))
    eqn:Et.
  - left. apply andb_true_iff in Et as [Et Hz]. apply andb_true_iff in Et as [Et Hc].
    apply andb_true_iff in Et as [Hi Hd].
    exists v, {| ingredients := i; dishes := d; cookingMethods := c; seasons := z |}.
    split; [reflexivity|]. rewrite Ei, Ed, Ec, Ez.
    cbn [ingredients dishes cookingMethods seasons].
    split; [repeat split; assumption|].
    destruct (get v (js "generatedAt")) as [[g|]|e'];
      [| left; split; reflexivity | left; split; reflexivity].
    destruct (truthy (Some g)) eqn:Eg; [|left; split; reflexivity].
    right. unfold date_line. destruct (no_primitive g) eqn:En.
    + right. exists g. repeat split; assumption.
    + left. exists g. repeat split; assumption.
  - right. split; [|now eexists]. intros v0 r E. inversion E; subst v0.
    rewrite Ei, Ed, Ec, Ez.
    intros (H1 & H2 & H3 & H4 & T1 & T2 & T3 & T4).
    inversion H1; inversion H2; inversion H3; inversion H4; subst.
    rewrite T1, T2, T3, T4 in Et. discriminate.
Qed.

(** A report file whose date is an object with a member [toString]: the
    results are replaced and the file is logged, and then the error is set
    and the step stays where it was. *)
Example loadReportFromJson_date_throws :
  let one := JArray [JNumber (Int 1)] in
  let text :=
    JsonText.JSON_stringify
      (JObject [(lit "ingredients", one); (lit "dishes", one);
                (lit "cookingMethods", one); (lit "seasons", one);
                (lit "generatedAt", JObject [(lit "toString", JNumber (Int 0))])]) in
  let s' := loadReportFromJson sample_clock (Some (lit "report.json", text)) sample_state in
  results s' = Some {| ingredients := one; dishes := one; cookingMethods := one;
                       seasons := one |} /\
  step s' = step sample_state /\ step s' <> complete /\
  error s' = Some (lit "JSONファイルの読み込みに失敗しました: TypeError: Cannot convert object to primitive value") /\
  logs s' = logs sample_state ++ [lit "レポートを読み込みました: report.json"].
Proof. vm_compute. repeat split. discriminate. Qed.

End PageMore.

(** ** The load-pdfs endpoint *)

Section LoadPdfsMore.
Import Json LoadPdfs.
Import Extract (result, Ok, Throws, UNDERSCORE, sanitizeFilename, is_disallowed,
                replace_spaces).

Lemma replace_spaces_single (b : bool) (s : jsstring) :
  single_spaces b s -> replace_spaces b s = spaces_to_underscores s.
Proof.
  revert b; induction s as [|c s IH]; intros b H; [reflexivity|].
  cbn [single_spaces] in H. cbn [replace_spaces spaces_to_underscores map].
  destruct (is_space c).
  - destruct H as (_ & -> & H). f_equal. now apply IH.
  - f_equal. now apply IH.
Qed.

Lemma underscores_back (b : bool) (s : jsstring) :
  single_spaces b s -> Forall (fun c => c <> UNDERSCORE) s ->
  underscores_to_spaces (spaces_to_underscores s) = s.
Proof.
  intros H Hu; revert b H; induction Hu as [|c s Hc _ IH]; intros b H; [reflexivity|].
  cbn [single_spaces] in H.
  cbn [spaces_to_underscores underscores_to_spaces map].
  fold (spaces_to_underscores s). fold (underscores_to_spaces (spaces_to_underscores s)).
  destruct (is_space c).
  - destruct H as (-> & _ & H). rewrite N.eqb_refl. f_equal. now apply (IH true).
  - apply N.eqb_neq in Hc. rewrite Hc. f_equal. now apply (IH false).
Qed.

Lemma strip_prefix_spaces_to_underscores (s : jsstring) :
  match strip_prefix DOT_PDF (spaces_to_underscores s) with
  | Some _ => true | None => false
  end = startsWith s DOT_PDF.
Proof.
  unfold startsWith, DOT_PDF, spaces_to_underscores.
  assert (H : forall x c, is_space x = false -> x <> UNDERSCORE ->
            (x =? (if is_space c then UNDERSCORE else c))%N = (x =? c)%N).
  { intros x c Hx Hu. destruct (is_space c) eqn:Ec; [|reflexivity].
    destruct (N.eqb_spec x c) as [->|_]; [congruence|]. now apply N.eqb_neq. }
  destruct s as [|c1 s]; [reflexivity|]. cbn [map strip_prefix].
  rewrite H by (vm_compute; congruence). destruct (46 =? c1)%N; [|reflexivity].
  destruct s as [|c2 s]; [reflexivity|]. cbn [map strip_prefix].
  rewrite H by (vm_compute; congruence). destruct (112 =? c2)%N; [|reflexivity].
  destruct s as [|c3 s]; [reflexivity|]. cbn [map strip_prefix].
  rewrite H by (vm_compute; congruence). destruct (100 =? c3)%N; [|reflexivity].
  destruct s as [|c4 s]; [reflexivity|]. cbn [map strip_prefix].
  rewrite H by (vm_compute; congruence). destruct (102 =? c4)%N; reflexivity.
Qed.

Lemma includes_spaces_to_underscores (s : jsstring) :
  includes (spaces_to_underscores s) DOT_PDF = includes s DOT_PDF.
Proof.
  induction s as [|c s IH].
  - reflexivity.
  - cbn [includes]. change (spaces_to_underscores (c :: s)) with
      ((if is_space c then UNDERSCORE else c) :: spaces_to_underscores s).
    cbn [includes]. rewrite IH. f_equal.
    pose proof (strip_prefix_spaces_to_underscores (c :: s)) as H.
    unfold startsWith at 1. exact H.
Qed.

Lemma remove_first_suffix (s : jsstring) :
  includes s DOT_PDF = false -> remove_first DOT_PDF (s ++ DOT_PDF) = s.
Proof.
  induction s as [|c s IH]; intros H; [reflexivity|].
  cbn [includes] in H. apply orb_false_iff in H as [Hs Hi].
  assert (E : strip_prefix DOT_PDF ((c :: s) ++ DOT_PDF) = None).
  { unfold startsWith, DOT_PDF in Hs. unfold DOT_PDF.
    destruct s as [|c2 [|c3 [|c4 s]]]; cbn [strip_prefix app] in *;
      repeat match goal with
             | |- context [(?a =? ?b)%N] => destruct (N.eqb_spec a b); subst
             end; try reflexivity; try discriminate. }
  cbn [app] in *.
  change (remove_first DOT_PDF (c :: s ++ DOT_PDF)) with
    (match strip_prefix DOT_PDF (c :: s ++ DOT_PDF) with
     | Some t => t
     | None => c :: remove_first DOT_PDF (s ++ DOT_PDF)
     end).
  rewrite E. f_equal. now apply IH.
Qed.

(** X15: the title that the load-pdfs endpoint restores from the name of a
    file that the extract endpoint wrote is the title of the request,
    provided that the title holds no disallowed character, no underscore, no
    white space but single spaces, no [.pdf] and at most 100 code units;
    and a restored title never holds an underscore. *)
Theorem restore_title_round_trip (t : jsstring) :
  plain_title t ->
  restore_title (sanitizeFilename t ++ DOT_PDF) = t /\
  forall f, ~ In UNDERSCORE (restore_title f).
Proof.
  intros (Hc & Hs & Hi & Hl). split.
  - assert (E : sanitizeFilename t = spaces_to_underscores t).
    { unfold sanitizeFilename, substring0.
      rewrite filter_id, (replace_spaces_single _ _ Hs).
      - apply firstn_all2. unfold spaces_to_underscores. now rewrite length_map.
      - eapply Forall_impl; [|exact Hc]. intros c [H _]. cbv beta. now rewrite H. }
    rewrite E. unfold restore_title.
    rewrite remove_first_suffix by (now rewrite includes_spaces_to_underscores).
    apply (underscores_back false); [exact Hs|].
    eapply Forall_impl; [|exact Hc]. now intros c [_ H].
  - intros f. unfold restore_title, underscores_to_spaces.
    rewrite in_map_iff. intros (c & H & _).
    destruct (N.eqb_spec c UNDERSCORE) as [_|Hne]; [discriminate|congruence].
Qed.

Lemma restore_title_round_trip_witness :
  restore_title (sanitizeFilename (lit "かま屋通信 2024年1月号") ++ DOT_PDF) =
    lit "かま屋通信 2024年1月号" /\
  forall f, ~ In UNDERSCORE (restore_title f).
Proof.
  apply (restore_title_round_trip (lit "かま屋通信 2024年1月号")).
  repeat split; try (vm_compute; reflexivity).
  - vm_compute. repeat constructor; discriminate.
  - vm_compute. lia.
Defined.

Lemma endsWith_app (x p : jsstring) : endsWith (x ++ p) p = true.
Proof.
  unfold endsWith. rewrite rev_app_distr. apply startsWith_true. now eexists.
Qed.

Variable readdir : result (list jsstring).
Variable stat : jsstring -> result N.
Variable readFile : jsstring -> result (list Byte.byte).
Variable join : jsstring -> jsstring.
Variable base64 : list Byte.byte -> jsstring.

Lemma stat_all_Ok (names : list jsstring) :
  (forall f, In f names -> exists n, stat (join f) = Ok n) ->
  exists pdfs, stat_all stat join names = Ok pdfs /\
    map filename pdfs = names /\
    forall i, In i pdfs ->
      title i = restore_title (filename i) /\ filepath i = join (filename i) /\
      stat (filepath i) = Ok (size i).
Proof.
  induction names as [|f names IH]; intros H.
  - exists []. split; [reflexivity|]. split; [reflexivity|]. intros i [].
  - destruct (H f (or_introl eq_refl)) as [n Hn].
    destruct IH as (pdfs & E & Hm & Hp); [intros g Hg; apply H; now right|].
    cbn [stat_all]. rewrite Hn, E. eexists. split; [reflexivity|].
    split; [cbn; now rewrite Hm|].
    intros i [<-|Hi]; [cbn; auto|now apply Hp].
Qed.

Lemma GET_listing (files : list jsstring) :
  readdir = Ok files ->
  (forall f, In f files -> endsWith f DOT_PDF = true ->
     exists n, stat (join f) = Ok n) ->
  exists pdfs,
    GET readdir stat join = Listing (length pdfs) pdfs /\
    map filename pdfs = filter (fun f => endsWith f DOT_PDF) files /\
    (forall i, In i pdfs ->
       title i = restore_title (filename i) /\ filepath i = join (filename i) /\
       stat (filepath i) = Ok (size i)).
Proof.
  intros Hr Hs. unfold GET. rewrite Hr.
  destruct (stat_all_Ok (filter (fun f => endsWith f DOT_PDF) files))
    as (pdfs & E & Hm & Hp).
  { intros f Hf. apply filter_In in Hf as [Hf He]. now apply Hs. }
  exists pdfs. cbv zeta. rewrite E. split; [reflexivity|]. now split.
Qed.

(** X16: the list of the saved PDFs.  When the directory can be read and
    every file of it whose name ends in [.pdf] can be examined, the answer
    lists exactly these files, in the order of the directory, each with the
    title restored from its name, its path and its size, and counts them;
    every file that the extract endpoint wrote is among them. *)
Theorem loadPdfs_GET_lists (files : list jsstring) :
  readdir = Ok files ->
  (forall f, In f files -> endsWith f DOT_PDF = true ->
     exists n, stat (join f) = Ok n) ->
  exists pdfs,
    GET readdir stat join = Listing (length pdfs) pdfs /\
    map filename pdfs = filter (fun f => endsWith f DOT_PDF) files /\
    (forall i, In i pdfs ->
       title i = restore_title (filename i) /\ filepath i = join (filename i) /\
       stat (filepath i) = Ok (size i)) /\
    (forall b, In (Extract.cache_name b) files ->
       In (Extract.cache_name b) (map filename pdfs)).
Proof.
  intros Hr Hs. destruct (GET_listing files Hr Hs) as (pdfs & E & Hm & Hp).
  exists pdfs. split; [exact E|]. split; [exact Hm|]. split; [exact Hp|].
  intros b Hb. rewrite Hm. apply filter_In. split; [exact Hb|].
  apply endsWith_app.
Qed.

Lemma flat_map_read_one (items : list json) :
  flat_map (read_one readFile join base64) items =
  readable_contents readFile join base64 (string_items items).
Proof.
  induction items as [|x items IH]; [reflexivity|].
  cbn [flat_map]. rewrite IH.
  destruct x; cbn [read_one string_items app]; try reflexivity.
  cbn [readable_contents]. unfold content_of.
  now destruct (readFile (join s)).
Qed.





End LoadPdfsMore.

Lemma loadPdfs_GET_lists_witness :
  exists pdfs,
    LoadPdfs.GET (Extract.Ok LoadPdfs.sample_files) LoadPdfs.sample_stat
                 LoadPdfs.sample_join = LoadPdfs.Listing (length pdfs) pdfs /\
    map LoadPdfs.filename pdfs =
      filter (fun f => LoadPdfs.endsWith f LoadPdfs.DOT_PDF) LoadPdfs.sample_files /\
    (forall i, In i pdfs ->
       LoadPdfs.title i = LoadPdfs.restore_title (LoadPdfs.filename i) /\
       LoadPdfs.filepath i = LoadPdfs.sample_join (LoadPdfs.filename i) /\
       LoadPdfs.sample_stat (LoadPdfs.filepath i) = Extract.Ok (LoadPdfs.size i)) /\
    (forall b, In (Extract.cache_name b) LoadPdfs.sample_files ->
       In (Extract.cache_name b) (map LoadPdfs.filename pdfs)).
Proof.
  apply (loadPdfs_GET_lists (Extract.Ok LoadPdfs.sample_files) LoadPdfs.sample_stat
           LoadPdfs.sample_join LoadPdfs.sample_files).
  - reflexivity.
  - intros f _ _. now exists 4%N.
Defined.

(** ** Loading the saved PDFs from the page *)

Section ClientLoad.
Import Json Page Client.
Import Extract (result, Ok, Throws).

Variable readdir : result (list jsstring).
Variable stat : jsstring -> result N.
Variable readFile : jsstring -> result (list Byte.byte).
Variable join : jsstring -> jsstring.
Variable base64 : list Byte.byte -> jsstring.

Lemma string_items_strings (names : list jsstring) :
  LoadPdfs.string_items (map JString names) = names.
Proof. induction names as [|n names IH]; [reflexivity|]. cbn. now rewrite IH. Qed.

Lemma served_batch_reply (batch : list jsstring) :
  served_batch readFile join base64 batch =
  Replied (LoadPdfs.Contents
             (length (LoadPdfs.readable_contents readFile join base64 batch))
             (LoadPdfs.readable_contents readFile join base64 batch)).
Proof.
  unfold served_batch, LoadPdfs.POST, LoadPdfs.names_body.
  cbn [get lookup Extract.list_eqb N.eqb Pos.eqb andb].
  now rewrite flat_map_read_one, string_items_strings.
Qed.

Lemma readable_contents_app (a b : list jsstring) :
  LoadPdfs.readable_contents readFile join base64 (a ++ b) =
  LoadPdfs.readable_contents readFile join base64 a ++
  LoadPdfs.readable_contents readFile join base64 b.
Proof.
  induction a as [|x a IH]; [reflexivity|].
  cbn [app LoadPdfs.readable_contents]. rewrite IH.
  now destruct (readFile (join x)).
Qed.

(** The batches are read one after the other and add up to the files that
    are left. *)
Lemma load_batches_served (names : list jsstring) :
  forall (fuel i : nat) (acc : list PdfData),
  length names - i <= fuel ->
  load_batches (served_batch readFile join base64) fuel i names acc =
  inl (acc ++ map pdf_of_content
                  (LoadPdfs.readable_contents readFile join base64 (skipn i names))).
Proof.
  induction fuel as [|fuel IH]; intros i acc Hf.
  - cbn [load_batches]. rewrite skipn_all2 by lia. cbn. now rewrite app_nil_r.
  - cbn [load_batches]. destruct (Nat.ltb_spec i (length names)) as [Hi|Hi].
    + rewrite served_batch_reply. rewrite IH by (unfold batchSize; lia).
      rewrite <- app_assoc, <- map_app, <- readable_contents_app.
      unfold slice, batchSize.
      replace (i + 5 - i) with 5 by lia.
      replace (i + 5) with (5 + i) by lia.
      rewrite <- skipn_skipn, firstn_skipn. reflexivity.
    + rewrite skipn_all2 by lia. cbn. now rewrite app_nil_r.
Qed.

(** X18: loading the saved PDFs through the load-pdfs endpoint.  When the
    directory holds at least one file whose name ends in [.pdf] and these
    files can be examined, the page ends in the [idle] step without an
    error, and its list of documents holds, in the order of the directory,
    every such file that can be read, with the title restored from its name
    and the encoded bytes; the cut into batches of five does not show, and
    a file that cannot be read is left out silently. *)
Theorem handleLoadSavedPdfs_loads (files : list jsstring) (s : State) :
  readdir = Ok files ->
  (forall f, In f files -> LoadPdfs.endsWith f LoadPdfs.DOT_PDF = true ->
     exists n, stat (join f) = Ok n) ->
  filter (fun f => LoadPdfs.endsWith f LoadPdfs.DOT_PDF) files <> [] ->
  let s' := handleLoadSavedPdfs (served_list readdir stat join)
              (served_batch readFile join base64) s in
  let loaded := LoadPdfs.readable_contents readFile join base64
                  (filter (fun f => LoadPdfs.endsWith f LoadPdfs.DOT_PDF) files) in
  pdfDataList s' = map pdf_of_content loaded /\
  step s' = idle /\ error s' = None /\
  last (logs s') [] =
    Extract.decimal (N.of_nat (length loaded)) ++ js "件のPDFをメモリに読み込みました。".
Proof.
  intros Hr Hs Hne s' loaded. subst s'. unfold handleLoadSavedPdfs, served_list.
  destruct (GET_listing readdir stat join files Hr Hs)
    as (pdfs & -> & Hm & _).
  cbv zeta. destruct pdfs as [|p pdfs].
  { cbn [map] in Hm. now rewrite <- Hm in Hne. }
  rewrite Hm. rewrite load_batches_served by lia.
  cbn [skipn app]. fold loaded.
  cbn [pdfDataList step error logs setStep addLog setPdfDataList setError].
  rewrite last_last, length_map. repeat split.
Qed.

End ClientLoad.

Lemma handleLoadSavedPdfs_loads_witness :
  let s' := Client.handleLoadSavedPdfs
              (Client.served_list (Extract.Ok LoadPdfs.sample_files)
                 LoadPdfs.sample_stat LoadPdfs.sample_join)
              (Client.served_batch LoadPdfs.sample_readFile LoadPdfs.sample_join
                 ExtractSpec.sample_encoder) Page.sample_state in
  let loaded := LoadPdfs.readable_contents LoadPdfs.sample_readFile
                  LoadPdfs.sample_join ExtractSpec.sample_encoder
                  (filter (fun f => LoadPdfs.endsWith f LoadPdfs.DOT_PDF)
                          LoadPdfs.sample_files) in
  Page.pdfDataList s' = map Client.pdf_of_content loaded /\
  Page.step s' = Page.idle /\ Page.error s' = None /\
  last (Page.logs s') [] =
    Extract.decimal (N.of_nat (length loaded)) ++ lit "件のPDFをメモリに読み込みました。".
Proof.
  apply (handleLoadSavedPdfs_loads (Extract.Ok LoadPdfs.sample_files)
           LoadPdfs.sample_stat LoadPdfs.sample_readFile LoadPdfs.sample_join
           ExtractSpec.sample_encoder LoadPdfs.sample_files Page.sample_state).
  - reflexivity.
  - intros f _ _. now exists 4%N.
  - vm_compute. discriminate.
Defined.

(** ** Downloading the PDFs from the page *)

Section ClientExtract.
Import Json Page Client.

Variable env : nat -> ExtractTurn.
Variable saved : Outcome LoadPdfs.GetReply.

(** One turn either leaves the loop with the rejection of an aborted
    request, nothing being counted, or adds the document of the turn, if
    there is one, and counts the turn once. *)
Lemma on_extract_inv (article : Article) (t : ExtractTurn) (a : ExtractAcc) :
  N.of_nat (length (pdfs a)) = (cachedCount a + downloadedCount a)%N ->
  let r := on_extract article (outcome t) a in
  frame (ui a) (ui (fst r)) /\
  ((snd r = Some AbortError /\ outcome t = Rejected AbortError /\ fst r = a) \/
   (snd r = None /\ outcome t <> Rejected AbortError /\
    pdfs (fst r) = pdfs a ++ delivered_by t /\
    N.of_nat (length (pdfs (fst r))) = (cachedCount (fst r) + downloadedCount (fst r))%N /\
    (cachedCount (fst r) + downloadedCount (fst r) + skipped (fst r) =
     cachedCount a + downloadedCount a + skipped a + 1)%N)).
Proof.
  intros Hinv. unfold delivered_by.
  destruct (outcome t) as [e|reply]; cbn [on_extract].
  - destruct e; cbn [fst snd skip_one pdfs cachedCount downloadedCount skipped ui].
    + split; [apply frame_refl|]. left. auto.
    + split; [apply frame_refl|]. right. rewrite app_nil_r.
      repeat split; try discriminate; try assumption; lia.
    + split; [apply frame_refl|]. right. rewrite app_nil_r.
      repeat split; try discriminate; try assumption; lia.
  - destruct reply as [st error sk|t0 b64 sz path name cached].
    + destruct error as [|c error]; [|destruct (includes (c :: error) _)];
        cbn [fst snd skip_one with_ui pdfs cachedCount downloadedCount skipped ui];
        (split; [try apply frame_refl; repeat split|]);
        right; rewrite app_nil_r;
        repeat split; try discriminate; try assumption; lia.
    + destruct cached;
        cbn [fst snd pdfs cachedCount downloadedCount skipped ui];
        (split; [try apply frame_refl; repeat split|]);
        right; rewrite length_app; cbn [length];
        repeat split; try discriminate; lia.
Qed.

Lemma extract_loop_inv (n : N) (targets : list Article) :
  forall (i : nat) (a : ExtractAcc),
  N.of_nat (length (pdfs a)) = (cachedCount a + downloadedCount a)%N ->
  let r := extract_loop env n i targets a in
  exists m, m <= length targets /\
    pdfs (fst r) = pdfs a ++ flat_map (fun j => delivered_by (env j)) (seq i m) /\
    N.of_nat (length (pdfs (fst r))) = (cachedCount (fst r) + downloadedCount (fst r))%N /\
    (cachedCount (fst r) + downloadedCount (fst r) + skipped (fst r) =
     cachedCount a + downloadedCount a + skipped a + N.of_nat m)%N /\
    frame (ui a) (ui (fst r)) /\
    is_cancel_exn (snd r) /\
    ((forall j, j < length targets -> quiet (env (i + j))) ->
     m = length targets /\ snd r = None).
Proof.
  induction targets as [|article rest IH]; intros i a Hinv; cbn [extract_loop].
  - exists 0. cbn [seq flat_map fst snd length]. rewrite app_nil_r.
    split; [lia|]. split; [reflexivity|]. split; [exact Hinv|]. split; [lia|].
    split; [apply frame_refl|]. split; [now left|]. auto.
  - destruct (aborted_at_check (env i)) eqn:Hc.
    { exists 0. cbn [seq flat_map fst snd]. rewrite app_nil_r.
      split; [lia|]. split; [reflexivity|]. split; [exact Hinv|]. split; [lia|].
      split; [apply frame_refl|]. split; [right; now left|].
      intros Hq. destruct (Hq 0 (Nat.lt_0_succ _)) as (Hq0 & _).
      rewrite Nat.add_0_r in Hq0. congruence. }
    set (a1 := with_ui (setProgress (N.of_nat i + 1) n (ui a)) a).
    assert (Hinv1 : N.of_nat (length (pdfs a1)) = (cachedCount a1 + downloadedCount a1)%N)
      by exact Hinv.
    assert (Hf1 : frame (ui a) (ui a1)) by (repeat split).
    destruct (on_extract_inv article (env i) a1 Hinv1) as (Hf & Hcase).
    destruct (on_extract article (outcome (env i)) a1) as [a2 thrown].
    cbn [fst snd] in Hf, Hcase.
    destruct Hcase as [(-> & Ho & ->)|(-> & Ho & Hp & Hinv2 & Hsum)].
    { exists 0. cbn [seq flat_map fst snd]. rewrite app_nil_r.
      split; [lia|]. split; [reflexivity|]. split; [exact Hinv|]. split; [cbn; lia|].
      split; [exact Hf1|]. split; [right; now right|].
      intros Hq. destruct (Hq 0 (Nat.lt_0_succ _)) as (_ & Hq0 & _).
      rewrite Nat.add_0_r in Hq0. contradiction. }
    destruct (aborted_in_wait (env i)) eqn:Hw.
    { exists 1. cbn [seq flat_map fst snd length]. rewrite app_nil_r.
      split; [lia|]. split; [exact Hp|]. split; [exact Hinv2|].
      split; [rewrite Hsum; cbn; lia|].
      split; [exact (frame_trans _ _ _ Hf1 Hf)|]. split; [right; now left|].
      intros Hq. destruct (Hq 0 (Nat.lt_0_succ _)) as (_ & _ & Hq0).
      rewrite Nat.add_0_r in Hq0. congruence. }
    destruct (IH (S i) a2 Hinv2) as (m & Hm & Hp' & Hinv' & Hsum' & Hf' & He & Hq').
    exists (S m). cbn [length seq flat_map].
    split; [lia|].
    split; [rewrite Hp', Hp; cbn [pdfs a1 with_ui]; now rewrite <- app_assoc|].
    split; [exact Hinv'|].
    split; [rewrite Hsum', Hsum, Nat2N.inj_succ; cbn; lia|].
    split; [exact (frame_trans _ _ _ (frame_trans _ _ _ Hf1 Hf) Hf')|].
    split; [exact He|].
    intros Hq. destruct Hq' as [-> ->]; [|now split].
    intros j Hj. replace (S i + j) with (i + S j) by lia. apply Hq. lia.
Qed.

(** X19: what [handleExtract] leaves behind.  With at least one article
    that has a link, and whatever the requests and the signal do, the run
    ends in the [idle] step with the controller released and the error
    cell as it was; the list of documents holds the documents of the
    successful answers of the first [m] turns, in their order, for some [m]
    up to the number of targets; the skipped count is the number of the
    other turns among these [m]; and [m] is the number of targets when
    the signal is never seen aborted. *)
Theorem handleExtract_keeps_deliveries (s : State) :
  filter has_pdfUrl (articles s) <> [] ->
  let n := length (filter has_pdfUrl (articles s)) in
  let s' := handleExtract env saved s in
  exists m, m <= n /\
    pdfDataList s' = delivered env m /\
    (N.of_nat (length (pdfDataList s')) + skippedCount s' = N.of_nat m)%N /\
    step s' = idle /\ error s' = error s /\ abortControllerRef s' = false /\
    ((forall i, i < n -> quiet (env i)) -> m = n).
Proof.
  intros Hne n s'. subst s' n. unfold handleExtract.
  destruct (filter has_pdfUrl (articles s)) as [|t ts]; [contradiction|].
  cbv zeta.
  match goal with
  | |- context [extract_loop env ?n 0 ?targets ?start] =>
    destruct (extract_loop_inv n targets 0 start eq_refl)
      as (m & Hm & Hp & Hinv & Hsum & Hf & He & Hq);
    destruct (extract_loop env n 0 targets start) as [a thrown]
  end.
  cbn [fst snd pdfs cachedCount downloadedCount skipped ui app] in *.
  destruct Hf as (_ & _ & Herr & _).
  cbn [error addLog setSkippedCount setPdfDataList setProgress setStep setController]
    in Herr.
  exists m. split; [exact Hm|].
  assert (Hsaved : forall x, pdfDataList (checkSavedPdfs saved x) = pdfDataList x /\
                             skippedCount (checkSavedPdfs saved x) = skippedCount x /\
                             error (checkSavedPdfs saved x) = error x).
  { intros x. unfold checkSavedPdfs. destruct saved as [e|[c l|e]]; repeat split. }
  destruct He as [-> | [-> | ->]];
    cbn [pdfDataList skippedCount step error abortControllerRef setController setStep];
    match goal with
    | |- context [checkSavedPdfs saved ?x] =>
      destruct (Hsaved x) as (-> & -> & ->)
    end;
    cbn [pdfDataList skippedCount error setSkippedCount setPdfDataList addLog];
    (split; [exact Hp|]); (split; [lia|]); (split; [reflexivity|]);
    (split; [exact Herr|]); (split; [reflexivity|]);
    intros H; now destruct (Hq H).
Qed.

End ClientExtract.

Lemma handleExtract_keeps_deliveries_witness :
  let n := length (filter Client.has_pdfUrl (Page.articles Client.sample_articles)) in
  let s' := Client.handleExtract Client.sample_extract_env
              (Client.Rejected (Page.OtherError (lit "TypeError: Failed to fetch")))
              Client.sample_articles in
  exists m, m <= n /\
    Page.pdfDataList s' = Client.delivered Client.sample_extract_env m /\
    (N.of_nat (length (Page.pdfDataList s')) + Page.skippedCount s' = N.of_nat m)%N /\
    Page.step s' = Page.idle /\ Page.error s' = Page.error Client.sample_articles /\
    Page.abortControllerRef s' = false /\
    ((forall i, i < n -> Client.quiet (Client.sample_extract_env i)) -> m = n).
Proof.
  apply (handleExtract_keeps_deliveries Client.sample_extract_env
           (Client.Rejected (Page.OtherError (lit "TypeError: Failed to fetch")))
           Client.sample_articles).
  vm_compute. discriminate.
Defined.

(** ** Reading the event stream of the scrape endpoint *)

Section ClientScrape.
Import Json Page Client.

Lemma put_before_twice (a b : jsstring) (r : list jsstring * jsstring) :
  put_before a (put_before b r) = put_before (a ++ b) r.
Proof.
  destruct r as [[|x pieces] last]; unfold put_before; cbn [fst snd];
    now rewrite app_assoc.
Qed.

(** Induction over a text two characters at a time. *)
Lemma text_induction (P : jsstring -> Prop) :
  P [] -> (forall c, P [c]) ->
  (forall c d t, P t -> P (d :: t) -> P (c :: d :: t)) ->
  forall text, P text.
Proof.
  intros H0 H1 H2 text.
  assert (H : P text /\ forall c, P (c :: text)); [|apply H].
  induction text as [|d t [IH1 IH2]]; [split; [exact H0|exact H1]|].
  split; [apply IH2|]. intros c. apply H2; [exact IH1|apply IH2].
Qed.

Lemma split_blank_step (piece : jsstring) (c d : char16) (t : jsstring) :
  split_blank piece (c :: d :: t) =
  if ((c =? NEWLINE) && (d =? NEWLINE))%N
  then (piece :: fst (split_blank [] t), snd (split_blank [] t))
  else split_blank (piece ++ [c]) (d :: t).
Proof.
  cbn [split_blank]. destruct ((c =? NEWLINE) && (d =? NEWLINE))%N; [|reflexivity].
  now destruct (split_blank [] t).
Qed.

(** The piece read so far is not read again. *)
Lemma split_blank_piece (text : jsstring) :
  forall piece, split_blank piece text = put_before piece (split_blank [] text).
Proof.
  induction text as [| c | c d t IH1 IH2] using text_induction; intros piece.
  - cbn. unfold put_before. cbn. now rewrite app_nil_r.
  - reflexivity.
  - rewrite !split_blank_step.
    destruct ((c =? NEWLINE) && (d =? NEWLINE))%N.
    + unfold put_before. cbn [fst snd]. now rewrite app_nil_r.
    + rewrite (IH2 (piece ++ [c])), (IH2 ([] ++ [c])). cbn [app].
      now rewrite put_before_twice.
Qed.

(** A text without a blank line is its own last piece. *)
Lemma split_blank_none (text : jsstring) :
  fst (split_blank [] text) = [] -> snd (split_blank [] text) = text.
Proof.
  induction text as [| c | c d t IH1 IH2] using text_induction.
  - reflexivity.
  - reflexivity.
  - rewrite split_blank_step.
    destruct ((c =? NEWLINE) && (d =? NEWLINE))%N; [discriminate|].
    rewrite (split_blank_piece (d :: t)). cbn [app]. unfold put_before.
    destruct (fst (split_blank [] (d :: t))) eqn:E; [|discriminate].
    intros _. cbn [snd]. now rewrite (IH2 eq_refl).
Qed.

(** The last piece holds no blank line. *)
Lemma split_blank_last (text : jsstring) :
  fst (split_blank [] (snd (split_blank [] text))) = [].
Proof.
  induction text as [| c | c d t IH1 IH2] using text_induction.
  - reflexivity.
  - reflexivity.
  - rewrite split_blank_step.
    destruct ((c =? NEWLINE) && (d =? NEWLINE))%N eqn:Es; [exact IH1|].
    rewrite (split_blank_piece (d :: t) ([] ++ [c])). cbn [app]. unfold put_before.
    destruct (fst (split_blank [] (d :: t))) eqn:E; cbn [snd]; [|exact IH2].
    rewrite (split_blank_none _ E). cbn [app].
    rewrite split_blank_step, Es, (split_blank_piece (d :: t)). cbn [app].
    unfold put_before. now rewrite E.
Qed.

(** Splitting a text that is read in two parts: the pieces of the first
    part, then the pieces of what was left of it followed by the second
    part. *)
Lemma split_blank_app (s t : jsstring) :
  split_blank [] (s ++ t) =
  (fst (split_blank [] s) ++ fst (split_blank [] (snd (split_blank [] s) ++ t)),
   snd (split_blank [] (snd (split_blank [] s) ++ t))).
Proof.
  induction s as [| c | c d s IH1 IH2] using text_induction.
  - cbn [app split_blank fst snd]. apply surjective_pairing.
  - cbn [split_blank fst snd app]. apply surjective_pairing.
  - cbn [app]. rewrite !split_blank_step.
    destruct ((c =? NEWLINE) && (d =? NEWLINE))%N eqn:Es.
    + cbn [fst snd]. rewrite IH1. reflexivity.
    + rewrite (split_blank_piece (d :: s)). cbn [app].
      change (d :: s ++ t) with ((d :: s) ++ t).
      rewrite (split_blank_piece ((d :: s) ++ t)), IH2.
      destruct (split_blank [] (d :: s)) as [[|x pieces] rest] eqn:E; cbn [fst snd].
      * pose proof (split_blank_none (d :: s)) as Hn. rewrite E in Hn.
        cbn [fst snd] in Hn. rewrite (Hn eq_refl).
        assert (K : split_blank [] ((c :: d :: s) ++ t) =
                    put_before [c] (split_blank [] ((d :: s) ++ t))).
        { cbn [app]. rewrite split_blank_step, Es.
          apply (split_blank_piece (d :: s ++ t) ([] ++ [c])). }
        change (snd (put_before [c] ([], d :: s))) with (c :: d :: s).
        change (fst (put_before [c] ([], d :: s))) with (@nil jsstring).
        rewrite K. cbn [app]. rewrite <- surjective_pairing.
        apply surjective_pairing.
      * reflexivity.
Qed.

Variable JSON_parse : jsstring -> Extract.result json.
Variable ToString : option json -> jsstring.
Variable as_number : option json -> N.
Variable as_articles : option json -> list Article.
Variable as_error : option json -> option jsstring.

Lemma read_loop_chunks (texts : list jsstring) :
  forall (buffer : jsstring) (s : State),
  complete_lines buffer = [] ->
  read_loop JSON_parse ToString as_number as_articles as_error
    (map (fun text => {| aborted := false; read := Chunk text |}) texts) buffer s =
  (on_lines JSON_parse ToString as_number as_articles as_error
     (complete_lines (buffer ++ concat texts)) s, None).
Proof.
  induction texts as [|text texts IH]; intros buffer s Hb;
    unfold complete_lines in *.
  - cbn [map read_loop concat]. now rewrite app_nil_r, Hb.
  - cbn [map read_loop concat aborted read].
    rewrite app_assoc, (split_blank_app (buffer ++ text) (concat texts)).
    destruct (split_blank [] (buffer ++ text)) as [lines rest] eqn:E.
    cbn [fst snd]. rewrite IH.
    + unfold on_lines. now rewrite fold_left_app.
    + pose proof (split_blank_last (buffer ++ text)) as H. now rewrite E in H.
Qed.

(** X20: the messages of the stream do not depend on how the stream is cut
    into chunks.  When the signal is never aborted and no read fails, the
    run handles, in their order, the pieces of the whole text that end
    with a blank line, each once, and ends in the [idle] step; what
    follows the last blank line is never handled; and two streams with
    the same text end in the same state. *)
Theorem handleScrape_chunks (texts : list jsstring) (s : State) :
  handleScrape JSON_parse ToString as_number as_articles as_error (chunks texts) s =
    setController false
      (setStep idle
         (on_lines JSON_parse ToString as_number as_articles as_error
            (complete_lines (concat texts)) (scraping_state s))) /\
  forall texts',
    concat texts' = concat texts ->
    handleScrape JSON_parse ToString as_number as_articles as_error (chunks texts') s =
    handleScrape JSON_parse ToString as_number as_articles as_error (chunks texts) s.
Proof.
  assert (H : forall l,
            handleScrape JSON_parse ToString as_number as_articles as_error (chunks l) s =
            setController false
              (setStep idle
                 (on_lines JSON_parse ToString as_number as_articles as_error
                    (complete_lines (concat l)) (scraping_state s)))).
  { intros l. unfold handleScrape, chunks, complete_lines. cbv zeta.
    now rewrite (read_loop_chunks l [] _ eq_refl). }
  split; [apply H|]. intros texts' E. now rewrite !H, E.
Qed.

End ClientScrape.

(** ** The collection of the article addresses *)

Section ScrapeListMore.
Import ScrapeList.
Import Extract (result, Response, SLASH).

Lemma at_daybook_end_Some (s id : jsstring) :
  at_daybook_end s = Some id ->
  id <> [] /\ Forall (fun c => is_digit c = true) id /\
  (s = DAYBOOK ++ id \/ s = DAYBOOK ++ id ++ [SLASH]).
Proof.
  unfold at_daybook_end.
  destruct (strip_prefix DAYBOOK s) as [t|] eqn:E; [|discriminate].
  apply strip_prefix_Some in E. subst s.
  pose proof (span_app is_digit t) as Happ.
  pose proof (span_fst_all is_digit t) as Hall.
  destruct (span is_digit t) as [[|c0 run] rest]; [discriminate|].
  cbn [fst snd] in *. rewrite forallb_forall in Hall.
  assert (Hd : Forall (fun c => is_digit c = true) (c0 :: run))
    by (apply Forall_forall; exact Hall).
  destruct rest as [|c [|c' rest]]; [| |discriminate].
  - intros H; inversion H; subst id. rewrite app_nil_r in Happ.
    split; [discriminate|]. split; [exact Hd|]. left. now rewrite Happ.
  - destruct (N.eqb_spec c SLASH) as [->|_]; [|discriminate].
    intros H; inversion H; subst id.
    split; [discriminate|]. split; [exact Hd|]. right. now rewrite Happ.
Qed.

Lemma strip_slash_slash (s : jsstring) : strip_slash (s ++ [SLASH]) = s.
Proof.
  unfold strip_slash. rewrite rev_app_distr. cbn [rev app].
  rewrite N.eqb_refl. apply rev_involutive.
Qed.

Lemma strip_slash_digit (s id : jsstring) :
  id <> [] -> Forall (fun c => is_digit c = true) id ->
  strip_slash (s ++ id) = s ++ id.
Proof.
  intros Hne Hd. unfold strip_slash. rewrite rev_app_distr.
  destruct (rev id) as [|c r] eqn:E.
  - apply (f_equal (@rev _)) in E. rewrite rev_involutive in E. contradiction.
  - cbn [app]. destruct (N.eqb_spec c SLASH) as [->|_]; [|reflexivity].
    exfalso. rewrite Forall_forall in Hd.
    assert (Hin : In SLASH id) by (apply in_rev; rewrite E; now left).
    apply Hd in Hin. discriminate.
Qed.

Lemma normalizedUrl_address (href : jsstring) :
  is_article_link href = true -> article_address (normalizedUrl href).
Proof.
  unfold is_article_link, normalizedUrl.
  destruct (search at_daybook_end href) as [id|] eqn:E; [|discriminate].
  intros _. apply search_found in E as (n & _ & E & _).
  apply at_daybook_end_Some in E as (Hne & Hd & Hs).
  set (origin := if startsWith href (js "http") then [] else BASE_URL).
  assert (Hurl : (if startsWith href (js "http") then href else BASE_URL ++ href) =
                 origin ++ firstn n href ++ skipn n href).
  { rewrite firstn_skipn. subst origin. now destruct (startsWith href _). }
  rewrite Hurl. exists (origin ++ firstn n href), id.
  split; [|now split].
  destruct Hs as [-> | ->].
  - replace (origin ++ firstn n href ++ DAYBOOK ++ id)
      with ((origin ++ firstn n href ++ DAYBOOK) ++ id)
      by (now rewrite <- !app_assoc).
    rewrite (strip_slash_digit _ _ Hne Hd). now rewrite <- !app_assoc.
  - replace (origin ++ firstn n href ++ DAYBOOK ++ id ++ [SLASH])
      with ((origin ++ firstn n href ++ DAYBOOK ++ id) ++ [SLASH])
      by (now rewrite <- !app_assoc).
    rewrite strip_slash_slash. now rewrite <- !app_assoc.
Qed.

Lemma has_In (u : jsstring) (l : list jsstring) : has u l = true <-> In u l.
Proof.
  unfold has. rewrite existsb_exists. split.
  - intros (x & Hx & E). apply list_eqb_eq in E. now subst.
  - intros H. exists u. split; [exact H|apply list_eqb_refl].
Qed.

(** An address with a slash at its end is never in the set. *)
Lemma has_with_slash (x : jsstring) (l : list jsstring) :
  Forall article_address l -> has (x ++ [SLASH]) l = false.
Proof.
  intros Hl. destruct (has (x ++ [SLASH]) l) eqn:E; [|reflexivity].
  exfalso. apply has_In in E. rewrite Forall_forall in Hl.
  destruct (Hl _ E) as (before & id & Hu & Hne & Hd).
  assert (H : strip_slash (x ++ [SLASH]) = x ++ [SLASH]).
  { rewrite Hu. replace (before ++ DAYBOOK ++ id) with ((before ++ DAYBOOK) ++ id)
      by (now rewrite <- app_assoc).
    now apply strip_slash_digit. }
  rewrite strip_slash_slash in H.
  apply (f_equal (@length _)) in H. rewrite length_app in H. cbn in H. lia.
Qed.

Lemma on_anchor_tidy (allUrls : list jsstring) (n : nat) (href : jsstring) :
  tidy allUrls ->
  tidy (fst (on_anchor (allUrls, n) href)) /\
  length (fst (on_anchor (allUrls, n) href)) + n =
  length allUrls + snd (on_anchor (allUrls, n) href).
Proof.
  intros [Hn Ha]. unfold on_anchor.
  destruct href as [|c href]; [now repeat split|].
  destruct (is_article_link (c :: href)) eqn:El; [|now repeat split].
  destruct (has (normalizedUrl (c :: href)) allUrls) eqn:Eh; cbn [negb andb];
    [now repeat split|].
  rewrite (has_with_slash _ _ Ha). cbn [negb fst snd]. split; [split|].
  - apply NoDup_app; [exact Hn|repeat constructor; intros []|].
    intros u Hu [<-|[]]. apply has_In in Hu. congruence.
  - apply Forall_app. split; [exact Ha|]. repeat constructor.
    now apply normalizedUrl_address.
  - rewrite length_app. cbn. lia.
Qed.

Lemma anchors_tidy (hrefs : list jsstring) :
  forall (allUrls : list jsstring) (n : nat),
  tidy allUrls ->
  tidy (fst (fold_left on_anchor hrefs (allUrls, n))) /\
  length (fst (fold_left on_anchor hrefs (allUrls, n))) + n =
  length allUrls + snd (fold_left on_anchor hrefs (allUrls, n)).
Proof.
  induction hrefs as [|href hrefs IH]; intros allUrls n Ht; [now split|].
  cbn [fold_left].
  destruct (on_anchor_tidy allUrls n href Ht) as [Ht' Hl].
  destruct (on_anchor (allUrls, n) href) as [urls' n']. cbn [fst snd] in *.
  destruct (IH urls' n' Ht') as [Ht'' Hl'']. split; [exact Ht''|lia].
Qed.

Variable net : jsstring -> result Response.
Variable hrefs : jsstring -> list jsstring.

Lemma collect_tidy (pages : list nat) :
  forall allUrls : list jsstring,
  tidy allUrls ->
  let r := collect net hrefs pages allUrls in
  tidy (fst r) /\ length (snd r) <= length pages /\
  list_sum (map found (snd r)) + length allUrls = length (fst r).
Proof.
  induction pages as [|page rest IH]; intros allUrls Ht; cbn [collect].
  - cbn. auto.
  - destruct (Scrape.fetchPage net (page_url page)) as [[|c html]|];
      [cbn; split; [exact Ht|split; [lia|reflexivity]]| |
       cbn; split; [exact Ht|split; [lia|reflexivity]]].
    destruct (anchors_tidy (hrefs (c :: html)) allUrls 0 Ht) as [Ht' Hl].
    destruct (fold_left on_anchor (hrefs (c :: html)) (allUrls, 0)) as [urls' n'].
    cbn [fst snd] in *.
    destruct ((n' =? 0) && (1 <? page)).
    + simpl. split; [exact Ht'|]. split; lia.
    + destruct (IH urls' Ht') as (H1 & H2 & H3).
      destruct (collect net hrefs rest urls') as [urls reports].
      simpl in *. split; [exact H1|]. split; lia.
Qed.

(** X21: the addresses that the scrape endpoint collects.  Whatever the
    site serves, every address of the set ends with [/daybook/] and a
    number, so none ends with a slash; no address is held twice; the second
    membership test of the loop, on the address with a slash, never
    succeeds; at most fifteen list pages are reported; and the counts
    found page by page add up to the size of the set. *)
Theorem scrape_collects_articles :
  let r := collected net hrefs in
  NoDup (fst r) /\
  Forall article_address (fst r) /\
  (forall u, has (u ++ [SLASH]) (fst r) = false) /\
  length (snd r) <= 15 /\
  list_sum (map found (snd r)) = length (fst r).
Proof.
  unfold collected.
  destruct (collect_tidy (seq 1 15) []) as ([Hn Ha] & Hl & Hs).
  { split; constructor. }
  cbv zeta. split; [exact Hn|]. split; [exact Ha|].
  split; [intros u; now apply has_with_slash|].
  split; [exact Hl|]. cbn [length] in Hs. lia.
Qed.

End ScrapeListMore.

(** ** The models run on sample values *)

Example collected_sample :
  ScrapeList.collected ScrapeList.sample_net ScrapeList.sample_hrefs =
  ([lit "https://foodhub.co.jp/daybook/101"; lit "https://foodhub.co.jp/daybook/102"],
   [{| ScrapeList.page_number := 1; ScrapeList.found := 2; ScrapeList.total := 2 |};
    {| ScrapeList.page_number := 2; ScrapeList.found := 0; ScrapeList.total := 2 |}]).
Proof. vm_compute. reflexivity. Qed.

Example handleScrape_sample :
  Page.logs
    (Client.handleScrape Client.sample_parser Client.sample_ToString
       (fun _ => 0%N) (fun _ => []) (fun _ => None)
       (Client.chunks [lit "data: log-mes"; lit "sage"; [Client.NEWLINE];
                       [Client.NEWLINE] ++ lit "data: log-message" ++
                       [Client.NEWLINE; Client.NEWLINE] ++ lit "data: log"])
       Page.sample_state) =
  [lit "Webサイトから記事情報を収集中..."; lit "ページ一覧を取得中...";
   lit "ページ一覧を取得中..."].
Proof. vm_compute. reflexivity. Qed.

Example loadPdfs_POST_sample :
  LoadPdfs.POST LoadPdfs.sample_readFile LoadPdfs.sample_join
    ExtractSpec.sample_encoder (Extract.Ok LoadPdfs.sample_body) =
  LoadPdfs.Contents 1
    [LoadPdfs.content_of ExtractSpec.sample_encoder (lit "かま屋通信_1月号.pdf")
       ExtractSpec.sample_bytes].
Proof. vm_compute. reflexivity. Qed.

(** ** The analysis run served by the analyze endpoint *)

Section PipelineMore.
Import Json Page Pipeline.

Variable generateContent : jsstring -> jsstring -> Extract.result jsstring.
Variable JSON_parse : jsstring -> Extract.result json.

Lemma read_reply_json (r : Analyze.Reply) :
  read_reply (reply_json r) =
  match r with
  | Analyze.Failure _ _ => Unsuccessful
  | Analyze.Analysed _ d =>
    match lists_of d with
    | Some a => Analysed a
    | None => Malformed
    end
  end.
Proof.
  destruct r as [st e|t d]; [reflexivity|].
  unfold read_reply, lists_of, reply_json.
  cbn [prop get lookup Extract.list_eqb N.eqb Pos.eqb andb truthy].
  destruct (strings_of (Some (Analyze.ingredients d))) as [l1|];
    destruct (strings_of (Some (Analyze.dishes d))) as [l2|];
    destruct (strings_of (Some (Analyze.cookingMethods d))) as [l3|];
    destruct (strings_of (Some (Analyze.seasons d))) as [l4|]; reflexivity.
Qed.

Lemma served_turn (key : jsstring) (pdfs : list PdfData) (i : nat) (pdf : PdfData) :
  nth_error pdfs i = Some pdf ->
  well_typed (answer generateContent JSON_parse key pdf) ->
  calm (served generateContent JSON_parse key pdfs i) /\
  readable (served generateContent JSON_parse key pdfs i) /\
  analysis_of (served generateContent JSON_parse key pdfs i) =
    document_of (answer generateContent JSON_parse key pdf).
Proof.
  intros Hn Hw. unfold calm, readable, analysis_of, served.
  cbn [aborted_at_check outcome aborted_in_wait]. rewrite Hn.
  cbn [is_cancel]. rewrite read_reply_json.
  unfold well_typed, document_of in *.
  destruct (answer generateContent JSON_parse key pdf) as [st e|t d].
  - repeat split. discriminate.
  - destruct (lists_of d) as [a|]; [|contradiction].
    repeat split. discriminate.
Qed.

Lemma flat_map_served (A : Type) (f g : nat -> list A) (n m : nat) :
  (forall i, i < m -> f (n + i) = g (n + i)) ->
  flat_map f (seq n m) = flat_map g (seq n m).
Proof.
  revert n; induction m as [|m IH]; intros n H; [reflexivity|].
  cbn [seq flat_map]. f_equal.
  - specialize (H 0 (Nat.lt_0_succ m)). now rewrite Nat.add_0_r in H.
  - apply IH. intros i Hi. replace (S n + i) with (n + S i) by lia. apply H. lia.
Qed.

Lemma flat_map_nth_error (A B : Type) (h : A -> list B) (l : list A) :
  forall n,
  flat_map (fun i => match nth_error l (i - n) with Some x => h x | None => [] end)
           (seq n (length l)) = flat_map h l.
Proof.
  induction l as [|x l IH]; intros n; [reflexivity|].
  cbn [length seq flat_map]. rewrite Nat.sub_diag. cbn [nth_error]. f_equal.
  rewrite <- (IH (S n)). apply flat_map_served. intros i Hi.
  replace (S n + i - n) with (S i) by lia.
  replace (S n + i - S n) with i by lia. reflexivity.
Qed.

(** X22: the page and the analyze endpoint together.  When every request
    of a run is answered by the endpoint, the signal is never aborted, and
    every success of the endpoint carries lists of strings, the report is
    the aggregation of the documents for which the endpoint answered with
    a success, in the order of the documents; an answer that is a failure,
    whatever its status, adds nothing and is counted with the errors of
    the last line of the log. *)
Theorem analysis_pipeline (s : State) :
  apiKey s <> [] -> pdfDataList s <> [] ->
  (forall pdf, In pdf (pdfDataList s) ->
     well_typed (answer generateContent JSON_parse (apiKey s) pdf)) ->
  let s' := handleAnalyze
              (served generateContent JSON_parse (apiKey s) (pdfDataList s)) s in
  let docs := flat_map (fun pdf => document_of
                                     (answer generateContent JSON_parse (apiKey s) pdf))
                       (pdfDataList s) in
  results s' = Some (expected_report docs) /\
  step s' = complete /\
  last (logs s') [] =
    finish_line (N.of_nat (length docs))
                (N.of_nat (length (pdfDataList s) - length docs)).
Proof.
  intros Hk Hp Hw s' docs.
  set (env := served generateContent JSON_parse (apiKey s) (pdfDataList s)).
  assert (Hturn : forall i, i < length (pdfDataList s) ->
            calm (env i) /\ readable (env i) /\
            analysis_of (env i) =
              match nth_error (pdfDataList s) i with
              | Some pdf => document_of (answer generateContent JSON_parse (apiKey s) pdf)
              | None => []
              end).
  { intros i Hi. destruct (nth_error (pdfDataList s) i) as [pdf|] eqn:E.
    - apply served_turn; [exact E|]. apply Hw. eapply nth_error_In. exact E.
    - apply nth_error_None in E. lia. }
  assert (Hdocs : analyses env (length (pdfDataList s)) = docs).
  { unfold analyses, docs.
    rewrite <- (flat_map_nth_error _ _ _ (pdfDataList s) 0).
    apply flat_map_served. intros i Hi. cbn [Nat.add].
    rewrite Nat.sub_0_r. now destruct (Hturn i Hi) as (_ & _ & ->). }
  assert (Hcalm : forall i, i < length (pdfDataList s) -> calm (env i))
    by (intros i Hi; now destruct (Hturn i Hi)).
  assert (Hread : forall i, i < length (pdfDataList s) -> readable (env i))
    by (intros i Hi; now destruct (Hturn i Hi) as (_ & H & _)).
  subst s'. fold env. unfold handleAnalyze.
  destruct (apiKey s) as [|c key] eqn:Ek; [contradiction|].
  destruct (pdfDataList s) as [|p ps] eqn:Ep; [contradiction|].
  cbv zeta.
  cbn [pdfDataList addLog setProgress setStep setController].
  rewrite Ep.
  match goal with
  | |- context [loop env ?m 0 (p :: ps) ?start] =>
    destruct (loop_completed env m (p :: ps) 0 start Hcalm Hread)
      as (a' & -> & Hm & Hsc & Hse & _)
  end.
  fold (analyses env (length (p :: ps))) in Hm, Hsc. rewrite Hdocs in Hm, Hsc.
  cbn [maps successCount errorCount ui N.add] in Hm, Hsc, Hse.
  assert (He : errorCount a' = N.of_nat (length (p :: ps) - length docs)) by lia.
  cbn [step results logs setController setStep setResults addLog].
  rewrite Hm, report_counted, last_last, Hsc, He. repeat split.
Qed.

End PipelineMore.

Lemma analysis_pipeline_witness :
  let s' := Page.handleAnalyze
              (Pipeline.served Pipeline.sample_model JsonText.JSON_parse
                 (Page.apiKey Pipeline.sample_run) (Page.pdfDataList Pipeline.sample_run))
              Pipeline.sample_run in
  let docs := flat_map (fun pdf => Pipeline.document_of
                                     (Pipeline.answer Pipeline.sample_model
                                        JsonText.JSON_parse
                                        (Page.apiKey Pipeline.sample_run) pdf))
                       (Page.pdfDataList Pipeline.sample_run) in
  Page.results s' = Some (Page.expected_report docs) /\
  Page.step s' = Page.complete /\
  last (Page.logs s') [] =
    Page.finish_line (N.of_nat (length docs))
                     (N.of_nat (length (Page.pdfDataList Pipeline.sample_run) - length docs)).
Proof.
  apply (analysis_pipeline Pipeline.sample_model JsonText.JSON_parse Pipeline.sample_run).
  - vm_compute. discriminate.
  - vm_compute. discriminate.
  - intros pdf [<-|[<-|[]]]; vm_compute; try discriminate; exact I.
Defined.

Example analysis_pipeline_sample :
  Page.results
    (Page.handleAnalyze
       (Pipeline.served Pipeline.sample_model JsonText.JSON_parse
          (Page.apiKey Pipeline.sample_run) (Page.pdfDataList Pipeline.sample_run))
       Pipeline.sample_run) =
  Some (Page.rankings [{| Page.name := lit "大根"; Page.count := 2 |}]
                      [{| Page.name := lit "おでん"; Page.count := 1 |}] [] []).
Proof. vm_compute. reflexivity. Qed.
